(** * Partial sign vectors: a shallow embedding of
      [sign_vectors/partial_sign_vectors.py] and the properties of its
      algebra (composition, flipping, ordering, orthogonality, unpacking). *)

From Stdlib Require Import NArith ZArith List Bool String Ascii Lia Arith FinFun.
Import ListNotations.

(** ** Python exceptions and fallible computations *)

Inductive exn : Type :=
| IndexError (msg : string)
| ValueError (msg : string)
| TypeError (msg : string).

Inductive result (A : Type) : Type :=
| Ok (a : A)
| Raise (e : exn).

Arguments Ok {A} a.
Arguments Raise {A} e.

Definition bind {A B : Type} (m : result A) (f : A -> result B) : result B :=
  match m with
  | Ok a => f a
  | Raise e => Raise e
  end.

Notation "x <- m ;; k" := (bind m (fun x => k))
  (at level 61, m at next level, right associativity).

(** [mapM f l]: evaluate [f] on every element from left to right and stop
    at the first exception, as a Python comprehension does. *)
Fixpoint mapM {A B : Type} (f : A -> result B) (l : list A) : result (list B) :=
  match l with
  | [] => Ok []
  | a :: l' => b <- f a ;; bs <- mapM f l' ;; Ok (b :: bs)
  end.

(** ** The bitset primitive *)

Module Bitset.

(** Modelled from the spec: the bitset primitive is Sage's [FrozenBitset],
    an external collaborator: a fixed-capacity set of indices with union,
    intersection, symmetric difference, difference, complement within the
    capacity, subset test, membership, iteration, equality.  A bitset is
    its capacity and its bits, packed in a binary number.  The rules on
    capacities are those of Sage's [bitset.pyx]: an operation on two
    bitsets gives the larger of the two capacities, comparisons look at
    the bits only, and no bitset has capacity 0, which the constructor
    refuses with a [ValueError]. *)
Record t : Type := mk { capacity : nat; bits : N }.

(** No bit is set at or above the capacity. *)
Definition valid (b : t) : Prop :=
  (bits b <? 2 ^ N.of_nat (capacity b))%N = true.

Definition testbit (b : t) (i : nat) : bool := N.testbit (bits b) (N.of_nat i).

(** [i in b] *)
Definition contains (b : t) (i : nat) : bool :=
  (i <? capacity b) && testbit b i.

Definition of_indices (l : list nat) : N :=
  fold_left (fun acc i => N.setbit acc (N.of_nat i)) l 0%N.

Definition needed_capacity (iter : list nat) : nat :=
  match iter with [] => 0 | _ => S (list_max iter) end.

(** [FrozenBitset(iter)]: as large as the largest element needs; an empty
    iterable would need the capacity 0 and is refused. *)
Definition FrozenBitset (iter : list nat) : result t :=
  match iter with
  | [] => Raise (ValueError "Bitsets must not be empty")
  | _ => Ok (mk (needed_capacity iter) (of_indices iter))
  end.

(** [FrozenBitset(iter, capacity=c)]: the capacity must be positive and
    large enough for the elements. *)
Definition FrozenBitset_capacity (iter : list nat) (c : nat) : result t :=
  if c =? 0 then Raise (ValueError "bitset capacity must be greater than 0")
  else if c <? needed_capacity iter
       then Raise (ValueError "bitset capacity does not match passed capacity")
       else Ok (mk c (of_indices iter)).

(** [a | b], [a & b], [a - b], [a ^ b] *)
Definition union (a b : t) : t :=
  mk (Nat.max (capacity a) (capacity b)) (N.lor (bits a) (bits b)).
Definition intersection (a b : t) : t :=
  mk (Nat.max (capacity a) (capacity b)) (N.land (bits a) (bits b)).
Definition difference (a b : t) : t :=
  mk (Nat.max (capacity a) (capacity b)) (N.ldiff (bits a) (bits b)).
Definition symmetric_difference (a b : t) : t :=
  mk (Nat.max (capacity a) (capacity b)) (N.lxor (bits a) (bits b)).

(** [~a]: the complement within the capacity. *)
Definition complement (a : t) : t :=
  mk (capacity a) (N.ldiff (N.ones (N.of_nat (capacity a))) (bits a)).

Definition isempty (a : t) : bool := (bits a =? 0)%N.

(** [a.issubset(b)] and [a == b] *)
Definition issubset (a b : t) : bool := (N.ldiff (bits a) (bits b) =? 0)%N.
Definition eqb (a b : t) : bool := (bits a =? bits b)%N.

(** [list(a)]: the elements in ascending order; [len(a)]. *)
Definition to_list (a : t) : list nat := filter (testbit a) (seq 0 (capacity a)).
Definition len (a : t) : nat := List.length (to_list a).

End Bitset.

Infix ":|:" := Bitset.union (at level 50, left associativity).
Infix ":&:" := Bitset.intersection (at level 40, left associativity).
Infix ":\:" := Bitset.difference (at level 40, left associativity).
Infix ":^:" := Bitset.symmetric_difference (at level 40, left associativity).

(** ** The collaborator [SignVector] *)

(** Modelled from the spec: [SignVector] (module [sign_vectors.sign_vectors])
    is the total sign vector type with disjoint positive and negative
    bitsets and the implied zero complement; its constructor takes the
    positive and the negative support, in this order, and two sign vectors
    are equal when their supports are. *)
Record SignVector : Type := mkSignVector {
  sv_positive_support : Bitset.t;
  sv_negative_support : Bitset.t
}.

Definition sv_zero_support (sv : SignVector) : Bitset.t :=
  Bitset.complement (sv_positive_support sv :|: sv_negative_support sv).

Definition sv_eqb (a b : SignVector) : bool :=
  Bitset.eqb (sv_positive_support a) (sv_positive_support b)
  && Bitset.eqb (sv_negative_support a) (sv_negative_support b).

(** ** The class [PartialSignVector] *)

Record PartialSignVector : Type := mkPartialSignVector {
  _negative_support : Bitset.t;
  _zero_support : Bitset.t;
  _positive_support : Bitset.t
}.

(** The argument [other] of the binary operations is a sign vector or a
    partial sign vector; the code reads the same three attributes of both. *)
Inductive vector : Type :=
| SV (sv : SignVector)
| PSV (x : PartialSignVector).

Definition other_negative (o : vector) : Bitset.t :=
  match o with SV sv => sv_negative_support sv | PSV x => _negative_support x end.
Definition other_zero (o : vector) : Bitset.t :=
  match o with SV sv => sv_zero_support sv | PSV x => _zero_support x end.
Definition other_positive (o : vector) : Bitset.t :=
  match o with SV sv => sv_positive_support sv | PSV x => _positive_support x end.

Definition length (x : PartialSignVector) : nat :=
  Bitset.capacity (_negative_support x).

(** [__getitem__] on an integer: the admissible signs at position [e]. *)
Definition getitem (x : PartialSignVector) (e : Z) : result (list Z) :=
  let n := Z.of_nat (length x) in
  if ((e >=? n) || (e <? - n))%Z then Raise (IndexError "index out of range")
  else
    let e := Z.to_nat (if (e <? 0)%Z then e mod n else e)%Z in
    Ok ((if Bitset.contains (_negative_support x) e then [(-1)%Z] else [])
          ++ (if Bitset.contains (_zero_support x) e then [0%Z] else [])
          ++ (if Bitset.contains (_positive_support x) e then [1%Z] else [])).

Fixpoint list_Z_eqb (a b : list Z) : bool :=
  match a, b with
  | [], [] => true
  | u :: a', v :: b' => (u =? v)%Z && list_Z_eqb a' b'
  | _, _ => false
  end.

(** [to_string(index=e)]; Python's [None] at an empty candidate set. *)
Definition to_string_at (x : PartialSignVector) (index : Z) : result (option string) :=
  s <- getitem x index ;;
  Ok (if list_Z_eqb s [-1]%Z then Some "-"%string
      else if list_Z_eqb s [0]%Z then Some "0"%string
      else if list_Z_eqb s [1]%Z then Some "+"%string
      else if list_Z_eqb s [-1; 0]%Z then Some "n"%string
      else if list_Z_eqb s [-1; 1]%Z then Some "/"%string
      else if list_Z_eqb s [0; 1]%Z then Some "p"%string
      else if list_Z_eqb s [-1; 0; 1]%Z then Some "*"%string
      else None).

(** ["".join(parts)], which refuses [None]. *)
Fixpoint join (parts : list (option string)) : result string :=
  match parts with
  | [] => Ok EmptyString
  | None :: _ => Raise (TypeError "sequence item: expected str instance, NoneType found")
  | Some p :: rest => r <- join rest ;; Ok (p ++ r)%string
  end.

(** [to_string()] *)
Definition to_string (x : PartialSignVector) : result string :=
  parts <- mapM (fun e => to_string_at x (Z.of_nat e)) (seq 0 (length x)) ;;
  join parts.

Definition negative_support (x : PartialSignVector) : list nat :=
  Bitset.to_list (_negative_support x).
Definition zero_support (x : PartialSignVector) : list nat :=
  Bitset.to_list (_zero_support x).
Definition positive_support (x : PartialSignVector) : list nat :=
  Bitset.to_list (_positive_support x).

Definition _determined_negative_support (x : PartialSignVector) : Bitset.t :=
  _negative_support x :\: (_positive_support x :|: _zero_support x).
Definition _determined_zero_support (x : PartialSignVector) : Bitset.t :=
  _zero_support x :\: (_negative_support x :|: _positive_support x).
Definition _determined_positive_support (x : PartialSignVector) : Bitset.t :=
  _positive_support x :\: (_negative_support x :|: _zero_support x).
Definition _determined_support (x : PartialSignVector) : Bitset.t :=
  _determined_negative_support x :|: _determined_zero_support x
    :|: _determined_positive_support x.
Definition _undetermined_support (x : PartialSignVector) : Bitset.t :=
  _positive_support x :&: _negative_support x :&: _zero_support x.

Definition determined_negative_support (x : PartialSignVector) : list nat :=
  Bitset.to_list (_determined_negative_support x).
Definition determined_zero_support (x : PartialSignVector) : list nat :=
  Bitset.to_list (_determined_zero_support x).
Definition determined_positive_support (x : PartialSignVector) : list nat :=
  Bitset.to_list (_determined_positive_support x).
Definition determined_support (x : PartialSignVector) : list nat :=
  Bitset.to_list (_determined_support x).
Definition undetermined_support (x : PartialSignVector) : list nat :=
  Bitset.to_list (_undetermined_support x).

(** [cardinality()]; the exponent is never negative, the determined and
    the undetermined positions being disjoint. *)
Definition cardinality (x : PartialSignVector) : nat :=
  2 ^ (length x - List.length (determined_support x)
                - List.length (undetermined_support x))
  * 3 ^ List.length (undetermined_support x).

(** The argument [sign] of [set_sign]: a string code or a list of integers. *)
Inductive sign_arg : Type :=
| SignStr (s : string)
| SignList (l : list Z).

Definition str_in (s : string) (l : list string) : bool :=
  existsb (String.eqb s) l.
Definition int_in (z : Z) (l : list Z) : bool :=
  existsb (Z.eqb z) l.

(** [flip_signs(indices)] *)
Definition flip_signs (x : PartialSignVector) (indices : list nat)
  : result PartialSignVector :=
  indices <- Bitset.FrozenBitset indices ;;
  let indices := indices :&: (_positive_support x :|: _negative_support x) in
  Ok (mkPartialSignVector (_negative_support x :^: indices)
                          (_zero_support x)
                          (_positive_support x :^: indices)).

(** [set_sign(indices, sign)] *)
Definition set_sign (x : PartialSignVector) (indices : list nat) (sign : sign_arg)
  : result PartialSignVector :=
  indices <- Bitset.FrozenBitset indices ;;
  let negative_support := _negative_support x in
  let zero_support := _zero_support x in
  let positive_support := _positive_support x in
  match sign with
  | SignStr sign =>
      let negative_support :=
        if str_in sign ["-"; "n"; "/"; "*"]%string
        then negative_support :|: indices else negative_support :\: indices in
      let zero_support :=
        if str_in sign ["0"; "n"; "p"; "*"]%string
        then zero_support :|: indices else zero_support :\: indices in
      let positive_support :=
        if str_in sign ["+"; "p"; "/"; "*"]%string
        then positive_support :|: indices else positive_support :\: indices in
      Ok (mkPartialSignVector negative_support zero_support positive_support)
  | SignList sign =>
      let negative_support :=
        if int_in (-1) sign
        then negative_support :|: indices else negative_support :\: indices in
      let zero_support :=
        if int_in 0 sign
        then zero_support :|: indices else zero_support :\: indices in
      let positive_support :=
        if int_in 1 sign
        then positive_support :|: indices else positive_support :\: indices in
      Ok (mkPartialSignVector negative_support zero_support positive_support)
  end.

(** [_connecting_elements(other)] and [_separating_elements(other)] *)
Definition _connecting_elements (x : PartialSignVector) (other : vector) : Bitset.t :=
  match other with
  | SV o =>
      (_determined_positive_support x :&: sv_positive_support o)
        :|: (_determined_negative_support x :&: sv_negative_support o)
  | PSV o =>
      (_determined_positive_support x :&: _determined_positive_support o)
        :|: (_determined_negative_support x :&: _determined_negative_support o)
  end.

Definition _separating_elements (x : PartialSignVector) (other : vector) : Bitset.t :=
  match other with
  | SV o =>
      (_determined_positive_support x :&: sv_negative_support o)
        :|: (_determined_negative_support x :&: sv_positive_support o)
  | PSV o =>
      (_determined_positive_support x :&: _determined_negative_support o)
        :|: (_determined_negative_support x :&: _determined_positive_support o)
  end.

Definition connecting_elements (x : PartialSignVector) (other : vector) : list nat :=
  Bitset.to_list (_connecting_elements x other).
Definition separating_elements (x : PartialSignVector) (other : vector) : list nat :=
  Bitset.to_list (_separating_elements x other).

(** [compose(other)] *)
Definition compose (x : PartialSignVector) (other : vector) : PartialSignVector :=
  mkPartialSignVector
    (_negative_support x :|: (other_negative other :&: _zero_support x))
    (_zero_support x :&: other_zero other)
    (_positive_support x :|: (other_positive other :&: _zero_support x)).

(** [is_orthogonal_to(other)] *)
Definition is_orthogonal_to (x : PartialSignVector) (other : vector) : bool :=
  if match other with
     | SV o =>
         Bitset.isempty
           (Bitset.complement (_determined_zero_support x :|: sv_zero_support o))
     | PSV o =>
         Bitset.isempty
           (Bitset.complement
              (_determined_zero_support x :|: _determined_zero_support o))
     end
  then true
  else negb (Bitset.isempty (_separating_elements x other)
             || Bitset.isempty (_connecting_elements x other)).

(** [issubset(other)] *)
Definition issubset (x other : PartialSignVector) : bool :=
  Bitset.issubset (_positive_support x) (_positive_support other)
  && Bitset.issubset (_negative_support x) (_negative_support other)
  && Bitset.issubset (_zero_support x) (_zero_support other).

(** [__eq__(other)] for a sign vector or a partial sign vector [other]. *)
Definition __eq__ (x : PartialSignVector) (other : vector) : bool :=
  Bitset.eqb (_negative_support x) (other_negative other)
  && Bitset.eqb (_positive_support x) (other_positive other)
  && Bitset.eqb (_zero_support x) (other_zero other).

(** [__neg__()] *)
Definition __neg__ (x : PartialSignVector) : PartialSignVector :=
  mkPartialSignVector (_positive_support x) (_zero_support x) (_negative_support x).

(** [is_sign_vector()] *)
Definition is_sign_vector (x : PartialSignVector) : bool :=
  length x =? List.length (determined_support x).

(** What [to_sign_vector] hands back: a sign vector or an exception object. *)
Inductive value : Type :=
| VSignVector (sv : SignVector)
| VException (msg : string).

(** [to_sign_vector()]: the exception is built and returned, not raised. *)
Definition to_sign_vector (x : PartialSignVector) : result value :=
  if is_sign_vector x
  then Ok (VSignVector (mkSignVector (_positive_support x) (_negative_support x)))
  else Ok (VException "not a sign vector").

(** Python sets, as lists without repetition for the elements' [==];
    [set_add] is [s.add(v)].  An exception object is equal to itself only,
    and every call of [Exception] builds a new one. *)
Definition set_add {A : Type} (eqb : A -> A -> bool) (s : list A) (v : A) : list A :=
  if existsb (eqb v) s then s else s ++ [v].

Definition value_eqb (a b : value) : bool :=
  match a, b with
  | VSignVector u, VSignVector v => sv_eqb u v
  | _, _ => false
  end.

(** The loop of [unpack]: every vector of [res] is replaced by its copies
    with position [e] set to each of its admissible signs. *)
Definition unpack_at (e : nat) (res : list PartialSignVector)
  : result (list PartialSignVector) :=
  fold_left
    (fun temp psv =>
       temp <- temp ;;
       signs <- getitem psv (Z.of_nat e) ;;
       fold_left
         (fun temp s =>
            temp <- temp ;;
            v <- set_sign psv [e] (SignList [s]) ;;
            Ok (set_add (fun a b => __eq__ a (PSV b)) temp v))
         signs (Ok temp))
    res (Ok []).

Definition unpack_loop (indices : list nat) (res : list PartialSignVector)
  : result (list PartialSignVector) :=
  fold_left (fun res e => res <- res ;; unpack_at e res) indices (Ok res).

Inductive unpacked : Type :=
| SignVectors (s : list value)
| PartialSignVectors (s : list PartialSignVector).

(** [unpack(indices)], with [None] for the default. *)
Definition unpack (x : PartialSignVector) (indices : option (list nat))
  : result unpacked :=
  match indices with
  | None =>
      res <- unpack_loop (seq 0 (length x)) [x] ;;
      svs <- mapM to_sign_vector res ;;
      Ok (SignVectors (fold_left (set_add value_eqb) svs []))
  | Some indices =>
      res <- unpack_loop indices [x] ;;
      Ok (PartialSignVectors res)
  end.

(** [from_support(negative_support, zero_support, positive_support, length)] *)
Definition from_support (negative_support zero_support positive_support : list nat)
  (length : nat) : result PartialSignVector :=
  n <- Bitset.FrozenBitset_capacity negative_support length ;;
  z <- Bitset.FrozenBitset_capacity zero_support length ;;
  p <- Bitset.FrozenBitset_capacity positive_support length ;;
  Ok (mkPartialSignVector n z p).

Definition char_in (t : ascii) (l : list ascii) : bool :=
  existsb (Ascii.eqb t) l.

Definition enumerate (s : string) : list (nat * ascii) :=
  combine (seq 0 (String.length s)) (list_ascii_of_string s).

Definition positions_in (l : list ascii) (s : string) : list nat :=
  map fst (filter (fun pt => char_in (snd pt) l) (enumerate s)).

(** [from_string(s)] *)
Definition from_string (s : string) : result PartialSignVector :=
  from_support (positions_in ["-"; "n"; "/"; "*"]%char s)
               (positions_in ["0"; "n"; "p"; "*"]%char s)
               (positions_in ["+"; "p"; "/"; "*"]%char s)
               (String.length s).

(** [zero(length)] and [star(length)] *)
Definition zero (length : nat) : result PartialSignVector :=
  e <- Bitset.FrozenBitset_capacity [] length ;;
  Ok (mkPartialSignVector e (Bitset.complement e) e).

Definition star (length : nat) : result PartialSignVector :=
  e <- Bitset.FrozenBitset_capacity [] length ;;
  Ok (mkPartialSignVector (Bitset.complement e) (Bitset.complement e)
                          (Bitset.complement e)).

(** ** Shape conditions on a partial sign vector *)

(** The three bitsets share the capacity [n]. *)
Definition has_length (n : nat) (x : PartialSignVector) : Prop :=
  Bitset.capacity (_negative_support x) = n
  /\ Bitset.capacity (_zero_support x) = n
  /\ Bitset.capacity (_positive_support x) = n.

Definition valid (x : PartialSignVector) : Prop :=
  Bitset.valid (_negative_support x)
  /\ Bitset.valid (_zero_support x)
  /\ Bitset.valid (_positive_support x).

(** Invariant I1: every position admits at least one sign. *)
Definition admits_some (x : PartialSignVector) (i : nat) : bool :=
  Bitset.contains (_negative_support x) i
  || Bitset.contains (_zero_support x) i
  || Bitset.contains (_positive_support x) i.

Definition well_formed (x : PartialSignVector) : Prop :=
  forallb (admits_some x) (seq 0 (length x)) = true.

(** The vector of capacity [n] with the given packed supports, for examples. *)
Definition packed (n : nat) (negative zero positive : N) : PartialSignVector :=
  mkPartialSignVector (Bitset.mk n negative) (Bitset.mk n zero) (Bitset.mk n positive).

(** The admissible signs at position [p], in ascending order. *)
Definition signs_at (x : PartialSignVector) (p : nat) : list Z :=
  filter (fun s => if (s =? -1)%Z then Bitset.contains (_negative_support x) p
                   else if (s =? 0)%Z then Bitset.contains (_zero_support x) p
                   else Bitset.contains (_positive_support x) p)
         [-1; 0; 1]%Z.

(** The connecting elements in the words of the specification: [x] is
    determined positive and [y] determined negative, or [x] is determined
    negative and [y] determined positive. *)
Definition spec_connecting_elements (x y : PartialSignVector) : list nat :=
  filter (fun e =>
            Bitset.contains (_determined_positive_support x) e
            && Bitset.contains (_determined_negative_support y) e
            || Bitset.contains (_determined_negative_support x) e
               && Bitset.contains (_determined_positive_support y) e)
         (seq 0 (length x)).

(** The seven symbols, and the strings over them. *)
Definition alphabet : list ascii := ["-"; "0"; "+"; "n"; "p"; "/"; "*"]%char.

Definition over_alphabet (s : string) : Prop :=
  forallb (fun t => char_in t alphabet) (list_ascii_of_string s) = true.

(** The symbol of a candidate set, by the table of [to_string]. *)
Definition symbol (negative zero positive : bool) : ascii :=
  match negative, zero, positive with
  | true, false, false => "-"
  | false, true, false => "0"
  | false, false, true => "+"
  | true, true, false => "n"
  | true, false, true => "/"
  | false, true, true => "p"
  | true, true, true => "*"
  | false, false, false => " "
  end%char.

Definition symbol_at (x : PartialSignVector) (e : nat) : ascii :=
  symbol (Bitset.contains (_negative_support x) e)
         (Bitset.contains (_zero_support x) e)
         (Bitset.contains (_positive_support x) e).

(** The three membership bits of position [i], and the number of
    admissible signs there. *)
Definition admitted (x : PartialSignVector) (i : nat) : bool * bool * bool :=
  (Bitset.testbit (_negative_support x) i,
   Bitset.testbit (_zero_support x) i,
   Bitset.testbit (_positive_support x) i).

Definition count_signs (x : PartialSignVector) (i : nat) : nat :=
  List.length (signs_at x i).

Definition product (l : list nat) : nat := fold_right Nat.mul 1 l.

(** The bitset of the single index [k], and [x] with the sign [s] alone at
    position [k]: what [set_sign([k], [s])] returns. *)
Definition singleton (k : nat) : Bitset.t := Bitset.mk (S k) (Bitset.of_indices [k]).

Definition set_at (x : PartialSignVector) (k : nat) (s : Z) : PartialSignVector :=
  mkPartialSignVector
    (if (-1 =? s)%Z then _negative_support x :|: singleton k
     else _negative_support x :\: singleton k)
    (if (0 =? s)%Z then _zero_support x :|: singleton k
     else _zero_support x :\: singleton k)
    (if (1 =? s)%Z then _positive_support x :|: singleton k
     else _positive_support x :\: singleton k).

(** The candidates of [unpack] at position [e]: a copy of [psv] for each of
    its admissible signs. *)
Definition resolve_at (e : nat) (psv : PartialSignVector) : list PartialSignVector :=
  map (set_at psv e) (signs_at psv e).

(** A position with exactly one admissible sign. *)
Definition determined_at (x : PartialSignVector) (i : nat) : bool :=
  match admitted x i with
  | (true, false, false) | (false, true, false) | (false, false, true) => true
  | _ => false
  end.

(** The state of the loop of [unpack] on [x], of length [n], before position
    [k]: the vectors of [res] are pairwise different, they have one sign at
    every position below [k], and the bits of [x] from [k] on. *)
Definition unpack_invariant (n : nat) (x : PartialSignVector) (k : nat)
  (res : list PartialSignVector) : Prop :=
  NoDup res
  /\ forall psv, In psv res ->
       has_length n psv
       /\ (forall i, k <= i -> admitted psv i = admitted x i)
       /\ (forall i, i < k -> determined_at psv i = true).

(** A position that admits all three signs. *)
Definition undetermined_at (x : PartialSignVector) (i : nat) : bool :=
  match admitted x i with
  | (true, true, true) => true
  | _ => false
  end.

(** The sign vector that [to_sign_vector] builds. *)
Definition as_sign_vector (x : PartialSignVector) : value :=
  VSignVector (mkSignVector (_positive_support x) (_negative_support x)).

(** A sign vector value of length [n]. *)
Definition sign_vector_of_length (n : nat) (v : value) : Prop :=
  match v with
  | VSignVector sv =>
      Bitset.capacity (sv_positive_support sv) = n
      /\ Bitset.capacity (sv_negative_support sv) = n
  | VException _ => False
  end.

(** The shape of the argument [other], and the zero support that
    [is_orthogonal_to] reads from it. *)
Definition vector_has_length (n : nat) (other : vector) : Prop :=
  match other with
  | SV o => Bitset.capacity (sv_positive_support o) = n
            /\ Bitset.capacity (sv_negative_support o) = n
  | PSV o => has_length n o
  end.

Definition determined_zero_of (other : vector) : Bitset.t :=
  match other with
  | SV o => sv_zero_support o
  | PSV o => _determined_zero_support o
  end.

(** ** Further methods of the class *)

(** [__pos__()] *)
Definition __pos__ (x : PartialSignVector) : PartialSignVector :=
  mkPartialSignVector (_negative_support x) (_zero_support x) (_positive_support x).

(** [list_from_positions(positions)] *)
Definition list_from_positions (x : PartialSignVector) (positions : list Z)
  : result (list (list Z)) :=
  mapM (getitem x) positions.

(** [from_iterable(iterable)]: the loop appends the running position to the
    supports whose sign the element contains. *)
Definition from_iterable (iterable : list (list Z)) : result PartialSignVector :=
  let '(negative_support, zero_support, positive_support, length) :=
    fold_left
      (fun '(negative_support, zero_support, positive_support, length) s =>
         (if int_in (-1) s then negative_support ++ [length] else negative_support,
          if int_in 0 s then zero_support ++ [length] else zero_support,
          if int_in 1 s then positive_support ++ [length] else positive_support,
          S length))
      iterable ([], [], [], 0) in
  from_support negative_support zero_support positive_support length.

(** [delete_components(indices)] *)
Definition delete_components (x : PartialSignVector) (indices : list nat)
  : result PartialSignVector :=
  deleted <- Bitset.FrozenBitset_capacity indices (length x) ;;
  items <- mapM (fun i => getitem x (Z.of_nat i))
                (Bitset.to_list (Bitset.complement deleted)) ;;
  from_iterable items.

(** [from_sign_vector(sv)] *)
Definition from_sign_vector (sv : SignVector) : PartialSignVector :=
  mkPartialSignVector (sv_negative_support sv) (sv_zero_support sv)
                      (sv_positive_support sv).

(** The right operand of a comparison: a partial sign vector or an integer. *)
Inductive operand : Type :=
| OPartial (y : PartialSignVector)
| OInt (z : Z).

(** [self == other], with the integer branch of [__eq__]:
    [not (positive | negative)] is true on an empty bitset. *)
Definition eq_operand (x : PartialSignVector) (other : operand) : bool :=
  match other with
  | OPartial y => __eq__ x (PSV y)
  | OInt z =>
      if (z =? 0)%Z
      then Bitset.len (_positive_support x :|: _negative_support x) =? 0
      else false
  end.

(** [__le__(other)] *)
Definition __le__ (x : PartialSignVector) (other : operand) : bool :=
  match other with
  | OPartial y => issubset x y
  | OInt z => if (z =? 0)%Z then eq_operand x (OInt 0) else false
  end.

(** [__lt__(other)]: [self != other and self <= other] *)
Definition __lt__ (x : PartialSignVector) (other : operand) : bool :=
  negb (eq_operand x other) && __le__ x other.

(** [__ge__(other)]; [all(0 in a for a in self)] runs through the positions
    of [self] by [__getitem__]. *)
Definition __ge__ (x : PartialSignVector) (other : operand) : result bool :=
  match other with
  | OPartial y => Ok (issubset y x)
  | OInt z =>
      if (z =? 0)%Z
      then items <- mapM (fun i => getitem x (Z.of_nat i)) (seq 0 (length x)) ;;
           Ok (forallb (int_in 0) items)
      else Ok false
  end.

(** [__gt__(other)]: [self != other and self >= other] *)
Definition __gt__ (x : PartialSignVector) (other : operand) : result bool :=
  if negb (eq_operand x other) then __ge__ x other else Ok false.

(** [__bool__()]: [self != 0] *)
Definition __bool__ (x : PartialSignVector) : bool :=
  negb (eq_operand x (OInt 0)).

(** The signs that an argument [sign] of [set_sign] stands for, as the
    three tests of [set_sign] read it, and as the list [x[i]] shows them. *)
Definition sign_flags (sign : sign_arg) : bool * bool * bool :=
  match sign with
  | SignStr c => (str_in c ["-"; "n"; "/"; "*"]%string,
                  str_in c ["0"; "n"; "p"; "*"]%string,
                  str_in c ["+"; "p"; "/"; "*"]%string)
  | SignList l => (int_in (-1) l, int_in 0 l, int_in 1 l)
  end.

Definition flags_signs (flags : bool * bool * bool) : list Z :=
  let '(a, b, c) := flags in
  ((if a then [-1] else []) ++ (if b then [0] else []) ++ (if c then [1] else []))%Z.

(** The positions, counted from [k], of the elements of [l] that contain
    the sign [c]. *)
Fixpoint positions_of (c : Z) (k : nat) (l : list (list Z)) : list nat :=
  match l with
  | [] => []
  | s :: l' => (if int_in c s then [k] else []) ++ positions_of c (S k) l'
  end.

(** The positions of a vector of length [n] that [delete_components] keeps. *)
Definition kept_positions (n : nat) (indices : list nat) : list nat :=
  filter (fun i => negb (existsb (Nat.eqb i) indices)) (seq 0 n).

(** What holds of every vector in the loop of [unpack] on [x], of length
    [n], once the positions [done] are resolved: it is a subset of [x], it
    has one sign at the resolved positions and the candidate sets of [x]
    at the others. *)
Definition resolved (n : nat) (x : PartialSignVector) (done : list nat)
  (y : PartialSignVector) : Prop :=
  has_length n y
  /\ issubset y x = true
  /\ (forall e, In e done -> determined_at y e = true)
  /\ (forall i, ~ In i done -> admitted y i = admitted x i).

(** The signs that a character of a string stands for in [from_string]. *)
Definition char_signs (t : ascii) : list Z :=
  flags_signs (char_in t ["-"; "n"; "/"; "*"]%char,
               char_in t ["0"; "n"; "p"; "*"]%char,
               char_in t ["+"; "p"; "/"; "*"]%char).

(** The vector that [from_iterable] builds from the candidate lists [l]. *)
Definition items_vector (l : list (list Z)) : PartialSignVector :=
  mkPartialSignVector
    (Bitset.mk (List.length l) (Bitset.of_indices (positions_of (-1) 0 l)))
    (Bitset.mk (List.length l) (Bitset.of_indices (positions_of 0 0 l)))
    (Bitset.mk (List.length l) (Bitset.of_indices (positions_of 1 0 l))).

(** * Properties *)

(** ** The bitset primitive, bit by bit *)

Module BitsetFacts.
Import Bitset.

Lemma testbit_union a b i : testbit (a :|: b) i = testbit a i || testbit b i.
Proof. apply N.lor_spec. Qed.

Lemma testbit_intersection a b i :
  testbit (a :&: b) i = testbit a i && testbit b i.
Proof. apply N.land_spec. Qed.

Lemma testbit_difference a b i :
  testbit (a :\: b) i = testbit a i && negb (testbit b i).
Proof. apply N.ldiff_spec. Qed.

Lemma testbit_symmetric_difference a b i :
  testbit (a :^: b) i = xorb (testbit a i) (testbit b i).
Proof. apply N.lxor_spec. Qed.

Lemma testbit_complement a i :
  testbit (complement a) i = (i <? capacity a) && negb (testbit a i).
Proof.
  unfold testbit, complement; simpl. rewrite N.ldiff_spec.
  destruct (Nat.ltb_spec i (capacity a)) as [H | H].
  - rewrite N.ones_spec_low by lia. reflexivity.
  - rewrite N.ones_spec_high by lia. reflexivity.
Qed.

Lemma valid_iff a :
  valid a <-> forall i, capacity a <= i -> testbit a i = false.
Proof.
  unfold valid, testbit. rewrite N.ltb_lt. split.
  - intros H i Hi.
    destruct (N.eq_dec (bits a) 0) as [E | E].
    + rewrite E. apply N.bits_0.
    + apply N.bits_above_log2.
      apply N.lt_le_trans with (N.of_nat (capacity a)); [| lia].
      apply N.log2_lt_pow2; lia.
  - intros H.
    assert (E : (bits a mod 2 ^ N.of_nat (capacity a) = bits a)%N).
    { apply N.bits_inj. intros n.
      destruct (N.lt_ge_cases n (N.of_nat (capacity a))) as [L | L].
      - apply N.mod_pow2_bits_low; assumption.
      - rewrite N.mod_pow2_bits_high by assumption.
        symmetry. rewrite <- (N2Nat.id n). apply H. lia. }
    rewrite <- E. apply N.mod_lt. apply N.pow_nonzero. discriminate.
Qed.

Lemma eqb_iff a b : eqb a b = true <-> forall i, testbit a i = testbit b i.
Proof.
  unfold eqb, testbit. rewrite N.eqb_eq. split.
  - intros -> i. reflexivity.
  - intros H. apply N.bits_inj. intros n.
    rewrite <- (N2Nat.id n). apply H.
Qed.

Lemma isempty_iff a : isempty a = true <-> forall i, testbit a i = false.
Proof.
  unfold isempty, testbit. rewrite N.eqb_eq. split.
  - intros -> i. apply N.bits_0.
  - intros H. apply N.bits_inj. intros n.
    rewrite N.bits_0, <- (N2Nat.id n). apply H.
Qed.

Lemma issubset_iff a b :
  issubset a b = true <-> forall i, testbit a i = true -> testbit b i = true.
Proof.
  pose proof (isempty_iff (a :\: b)) as E.
  unfold isempty in E; simpl in E. unfold issubset. rewrite E.
  split; intros H i.
  - specialize (H i). rewrite testbit_difference in H.
    destruct (testbit a i), (testbit b i); simpl in *; congruence.
  - rewrite testbit_difference. specialize (H i).
    destruct (testbit a i), (testbit b i); simpl in *; auto.
    discriminate H; reflexivity.
Qed.

Lemma In_to_list a i :
  In i (to_list a) <-> i < capacity a /\ testbit a i = true.
Proof.
  unfold to_list. rewrite filter_In, in_seq. intuition lia.
Qed.

Lemma contains_In a i : contains a i = true <-> In i (to_list a).
Proof.
  rewrite In_to_list. unfold contains.
  rewrite andb_true_iff, Nat.ltb_lt. reflexivity.
Qed.

Lemma testbit_of_indices l i :
  N.testbit (of_indices l) (N.of_nat i) = true <-> In i l.
Proof.
  unfold of_indices.
  assert (G : forall acc,
             N.testbit (fold_left (fun acc i => N.setbit acc (N.of_nat i)) l acc)
                       (N.of_nat i) = true
             <-> In i l \/ N.testbit acc (N.of_nat i) = true).
  { induction l as [| j l IH]; intros acc; simpl.
    - tauto.
    - rewrite IH, N.setbit_iff. intuition (subst; auto); lia. }
  rewrite G, N.bits_0. intuition discriminate.
Qed.

End BitsetFacts.

(** ** Composition *)

Lemma well_formed_iff x :
  well_formed x <-> forall i, i < length x -> admits_some x i = true.
Proof.
  unfold well_formed. rewrite forallb_forall. split; intros H i Hi.
  - apply H. apply in_seq. lia.
  - apply H. apply in_seq in Hi. lia.
Qed.

Lemma compose_has_length n x y :
  has_length n x -> has_length n y -> has_length n (compose x (PSV y)).
Proof.
  intros (Hn & Hz & Hp) (Hn' & Hz' & Hp'). unfold has_length; simpl.
  rewrite Hn, Hz, Hp, Hn', Hz', Hp'. repeat split; lia.
Qed.

Ltac bitwise :=
  unfold Bitset.contains;
  rewrite ?BitsetFacts.testbit_union, ?BitsetFacts.testbit_intersection,
    ?BitsetFacts.testbit_difference, ?BitsetFacts.testbit_symmetric_difference,
    ?BitsetFacts.testbit_complement;
  simpl Bitset.capacity.

Lemma compose_contains n x y e :
  has_length n x -> has_length n y ->
  Bitset.contains (_negative_support (compose x (PSV y))) e
  = Bitset.contains (_negative_support x) e
    || Bitset.contains (_negative_support y) e && Bitset.contains (_zero_support x) e
  /\ Bitset.contains (_zero_support (compose x (PSV y))) e
    = Bitset.contains (_zero_support x) e && Bitset.contains (_zero_support y) e
  /\ Bitset.contains (_positive_support (compose x (PSV y))) e
    = Bitset.contains (_positive_support x) e
      || Bitset.contains (_positive_support y) e && Bitset.contains (_zero_support x) e.
Proof.
  intros (Hn & Hz & Hp) (Hn' & Hz' & Hp'). simpl. bitwise.
  rewrite Hn, Hz, Hp, Hn', Hz', Hp', !Nat.max_id.
  repeat split; destruct (e <? n); simpl; try reflexivity;
    repeat match goal with |- context [Bitset.testbit ?b e] =>
             destruct (Bitset.testbit b e) end; reflexivity.
Qed.

(** C1: [x.compose(y)] admits [-] where [x] does or where [y] does and [x]
    admits [0], admits [0] where both do, and admits [+] where [x] does or
    where [y] does and [x] admits [0]; the bitsets of the result are the
    unions and intersections of the formula.  Composition is not
    commutative: "p*0" with "--0" is "//0", "--0" with "p*0" is "--0". *)
Theorem compose_supports :
  (forall n x y, has_length n x -> has_length n y ->
     has_length n (compose x (PSV y))
     /\ _negative_support (compose x (PSV y))
        = _negative_support x :|: (_negative_support y :&: _zero_support x)
     /\ _zero_support (compose x (PSV y)) = _zero_support x :&: _zero_support y
     /\ _positive_support (compose x (PSV y))
        = _positive_support x :|: (_positive_support y :&: _zero_support x)
     /\ forall e,
         Bitset.contains (_negative_support (compose x (PSV y))) e
         = Bitset.contains (_negative_support x) e
           || Bitset.contains (_negative_support y) e
              && Bitset.contains (_zero_support x) e
         /\ Bitset.contains (_zero_support (compose x (PSV y))) e
           = Bitset.contains (_zero_support x) e
             && Bitset.contains (_zero_support y) e
         /\ Bitset.contains (_positive_support (compose x (PSV y))) e
           = Bitset.contains (_positive_support x) e
             || Bitset.contains (_positive_support y) e
                && Bitset.contains (_zero_support x) e)
  /\ (x <- from_string "p*0" ;; y <- from_string "--0" ;; z <- from_string "//0" ;;
      Ok (__eq__ (compose x (PSV y)) (PSV z))) = Ok true
  /\ (x <- from_string "p*0" ;; y <- from_string "--0" ;;
      Ok (__eq__ (compose y (PSV x)) (PSV y))) = Ok true
  /\ (x <- from_string "p*0" ;; y <- from_string "--0" ;;
      Ok (__eq__ (compose x (PSV y)) (PSV (compose y (PSV x))))) = Ok false.
Proof.
  split; [| repeat split; vm_compute; reflexivity].
  intros n x y Hx Hy. split; [apply compose_has_length; assumption |].
  do 3 (split; [reflexivity |]).
  intros e. apply compose_contains with (n := n); assumption.
Qed.

Lemma compose_supports_witness :
  from_string "p*0" = Ok (packed 3 2 7 3)
  /\ from_string "--0" = Ok (packed 3 3 4 0)
  /\ has_length 3 (packed 3 2 7 3) /\ has_length 3 (packed 3 3 4 0)
  /\ forall e,
      Bitset.contains
        (_negative_support (compose (packed 3 2 7 3) (PSV (packed 3 3 4 0)))) e
      = Bitset.contains (Bitset.mk 3 2) e
        || Bitset.contains (Bitset.mk 3 3) e && Bitset.contains (Bitset.mk 3 7) e.
Proof.
  assert (Hx : has_length 3 (packed 3 2 7 3)) by (repeat split; reflexivity).
  assert (Hy : has_length 3 (packed 3 3 4 0)) by (repeat split; reflexivity).
  do 2 (split; [reflexivity |]). do 2 (split; [assumption |]).
  intros e.
  destruct compose_supports as [H _].
  destruct (H 3 (packed 3 2 7 3) (packed 3 3 4 0) Hx Hy) as (_ & _ & _ & _ & G).
  apply (G e).
Defined.

(** C10: composition keeps the length and the well-formedness: when every
    position of [x] and of [y], two vectors of the same length, admits a
    sign, so does every position of [x.compose(y)]. *)
Theorem compose_well_formed n x y :
  has_length n x -> has_length n y -> well_formed x -> well_formed y ->
  has_length n (compose x (PSV y))
  /\ length (compose x (PSV y)) = n
  /\ well_formed (compose x (PSV y)).
Proof.
  intros Hx Hy Wx Wy.
  pose proof (compose_has_length n x y Hx Hy) as Hc.
  split; [assumption |]. split; [apply Hc |].
  rewrite well_formed_iff in *. intros i Hi.
  assert (Li : length (compose x (PSV y)) = n) by apply Hc.
  assert (Lx : length x = n) by apply Hx.
  assert (Ly : length y = n) by apply Hy.
  specialize (Wx i ltac:(lia)). specialize (Wy i ltac:(lia)).
  destruct (compose_contains n x y i Hx Hy) as (En & Ez & Ep).
  unfold admits_some in *. rewrite En, Ez, Ep.
  destruct (Bitset.contains (_negative_support x) i),
    (Bitset.contains (_zero_support x) i),
    (Bitset.contains (_positive_support x) i),
    (Bitset.contains (_negative_support y) i),
    (Bitset.contains (_zero_support y) i),
    (Bitset.contains (_positive_support y) i); simpl in *; congruence.
Qed.

Lemma compose_well_formed_witness :
  from_string "-0pn0" = Ok (packed 5 9 30 4)
  /\ from_string "0n/+0" = Ok (packed 5 6 19 12)
  /\ has_length 5 (packed 5 9 30 4) /\ has_length 5 (packed 5 6 19 12)
  /\ well_formed (compose (packed 5 9 30 4) (PSV (packed 5 6 19 12))).
Proof.
  assert (Hx : has_length 5 (packed 5 9 30 4)) by (repeat split; reflexivity).
  assert (Hy : has_length 5 (packed 5 6 19 12)) by (repeat split; reflexivity).
  do 2 (split; [reflexivity |]). do 2 (split; [assumption |]).
  apply (compose_well_formed 5 _ _ Hx Hy); reflexivity.
Defined.

(** ** The subset order *)

Lemma to_list_incl n a b :
  Bitset.capacity a = n -> Bitset.capacity b = n -> Bitset.valid a ->
  Bitset.issubset a b = true <-> incl (Bitset.to_list a) (Bitset.to_list b).
Proof.
  intros Ca Cb Va. rewrite BitsetFacts.issubset_iff. unfold incl.
  rewrite BitsetFacts.valid_iff in Va. split; intros H i.
  - rewrite !BitsetFacts.In_to_list, Ca, Cb. intros [L T]. auto.
  - intros T. destruct (Nat.lt_ge_cases i n) as [L | L].
    + assert (I : In i (Bitset.to_list b)).
      { apply H. apply BitsetFacts.In_to_list. rewrite Ca. auto. }
      apply BitsetFacts.In_to_list in I. apply I.
    + rewrite Va in T by lia. discriminate.
Qed.

Lemma issubset_refl a : Bitset.issubset a a = true.
Proof. apply BitsetFacts.issubset_iff. auto. Qed.

Lemma issubset_trans a b c :
  Bitset.issubset a b = true -> Bitset.issubset b c = true ->
  Bitset.issubset a c = true.
Proof. rewrite !BitsetFacts.issubset_iff. auto. Qed.

Lemma issubset_antisym a b :
  Bitset.issubset a b && Bitset.issubset b a = true <-> Bitset.eqb a b = true.
Proof.
  rewrite andb_true_iff, !BitsetFacts.issubset_iff, BitsetFacts.eqb_iff.
  split.
  - intros [H1 H2] i. specialize (H1 i). specialize (H2 i).
    destruct (Bitset.testbit a i), (Bitset.testbit b i); auto.
    symmetry; auto.
  - intros H. split; intros i; rewrite H; auto.
Qed.

(** C8: [issubset] is a partial order on the partial sign vectors of one
    length: reflexive, antisymmetric for [==], transitive; and
    [x.issubset(y)] holds exactly when the positive, the negative and the
    zero support of [x] are contained in those of [y]. *)
Theorem issubset_partial_order n x y z :
  has_length n x -> has_length n y -> valid x ->
  issubset x x = true
  /\ (issubset x y && issubset y x = true <-> __eq__ x (PSV y) = true)
  /\ (issubset x y = true -> issubset y z = true -> issubset x z = true)
  /\ (issubset x y = true <->
      incl (positive_support x) (positive_support y)
      /\ incl (negative_support x) (negative_support y)
      /\ incl (zero_support x) (zero_support y)).
Proof.
  intros (Hn & Hz & Hp) (Hn' & Hz' & Hp') (Vn & Vz & Vp).
  unfold issubset, __eq__; simpl. repeat split.
  - rewrite !issubset_refl. reflexivity.
  - rewrite !andb_true_iff. intros [[[P N0] Z0] [[P' N'] Z']].
    rewrite <- !issubset_antisym, P, P', N0, N', Z0, Z'. auto.
  - rewrite !andb_true_iff, <- !issubset_antisym, !andb_true_iff. tauto.
  - rewrite !andb_true_iff. intros [[P N0] Z0] [[P' N'] Z'].
    rewrite (issubset_trans _ _ _ P P'), (issubset_trans _ _ _ N0 N'),
      (issubset_trans _ _ _ Z0 Z'). auto.
  - apply (to_list_incl n _ _ Hp Hp' Vp).
    rewrite !andb_true_iff in H. tauto.
  - apply (to_list_incl n _ _ Hn Hn' Vn).
    rewrite !andb_true_iff in H. tauto.
  - apply (to_list_incl n _ _ Hz Hz' Vz).
    rewrite !andb_true_iff in H. tauto.
  - intros (P & N0 & Z0). unfold positive_support, negative_support, zero_support in *.
    apply (to_list_incl n _ _ Hp Hp' Vp) in P. apply (to_list_incl n _ _ Hn Hn' Vn) in N0.
    apply (to_list_incl n _ _ Hz Hz' Vz) in Z0. rewrite P, N0, Z0. reflexivity.
Qed.

Lemma issubset_partial_order_witness :
  from_string "-+00+" = Ok (packed 5 1 12 18)
  /\ from_string "-/p0+" = Ok (packed 5 3 12 22)
  /\ has_length 5 (packed 5 1 12 18) /\ has_length 5 (packed 5 3 12 22)
  /\ valid (packed 5 1 12 18)
  /\ (issubset (packed 5 1 12 18) (packed 5 3 12 22) = true ->
      issubset (packed 5 3 12 22) (packed 5 3 12 22) = true ->
      issubset (packed 5 1 12 18) (packed 5 3 12 22) = true).
Proof.
  assert (Hx : has_length 5 (packed 5 1 12 18)) by (repeat split; reflexivity).
  assert (Hy : has_length 5 (packed 5 3 12 22)) by (repeat split; reflexivity).
  assert (Vx : valid (packed 5 1 12 18)) by (repeat split; reflexivity).
  do 2 (split; [reflexivity |]). do 3 (split; [assumption |]).
  apply (issubset_partial_order 5 _ _ (packed 5 3 12 22) Hx Hy Vx).
Defined.

(** ** Indexing *)

(** C9: [x[i]] raises [IndexError] exactly when [i >= n] or [i < -n], for
    [n] the length of [x]; otherwise it returns the admissible signs at
    position [i], or [n + i] for a negative [i], in ascending order. *)
Theorem getitem_index x i :
  let n := Z.of_nat (length x) in
  (getitem x i = Raise (IndexError "index out of range")
   <-> (i >= n \/ i < - n)%Z)
  /\ ((- n <= i < n)%Z ->
      getitem x i
      = Ok (signs_at x (Z.to_nat (if (i <? 0)%Z then n + i else i)%Z))).
Proof.
  intros n. unfold getitem. fold n.
  destruct (Z.geb_spec i n) as [G | G]; simpl.
  - split; [intuition lia | lia].
  - destruct (Z.ltb_spec i (- n)) as [L | L]; simpl.
    + split; [intuition lia | lia].
    + split; [split; [discriminate | lia] |].
      intros _. f_equal.
      assert (E : (if (i <? 0)%Z then (i mod n)%Z else i)
                  = (if (i <? 0)%Z then (n + i)%Z else i)).
      { destruct (Z.ltb_spec i 0); [| reflexivity].
        symmetry. apply Z.mod_unique with (q := (-1)%Z); lia. }
      rewrite E. unfold signs_at. simpl.
      destruct (Bitset.contains (_negative_support x) _),
        (Bitset.contains (_zero_support x) _),
        (Bitset.contains (_positive_support x) _); reflexivity.
Qed.

Lemma getitem_index_witness :
  from_string "0+*n" = Ok (packed 4 12 13 6)
  /\ (- Z.of_nat (length (packed 4 12 13 6)) <= -1
      < Z.of_nat (length (packed 4 12 13 6)))%Z
  /\ getitem (packed 4 12 13 6) (-1) = Ok [-1; 0]%Z.
Proof.
  split; [reflexivity |].
  assert (R : (- Z.of_nat (length (packed 4 12 13 6)) <= -1
               < Z.of_nat (length (packed 4 12 13 6)))%Z) by (simpl; lia).
  split; [assumption |].
  destruct (getitem_index (packed 4 12 13 6) (-1)) as [_ H].
  rewrite (H R). reflexivity.
Defined.

(** ** Conversion to a sign vector *)

(** C2: on the vector "p", which is not a sign vector, [to_sign_vector]
    raises nothing: it returns an exception object as its value; on the
    sign vector "0++-" it returns the sign vector of the positive and the
    negative support. *)
Theorem to_sign_vector_returns_exception :
  from_string "p" = Ok (packed 1 0 1 1)
  /\ is_sign_vector (packed 1 0 1 1) = false
  /\ to_sign_vector (packed 1 0 1 1) = Ok (VException "not a sign vector")
  /\ (forall x, is_sign_vector x = false ->
      to_sign_vector x = Ok (VException "not a sign vector"))
  /\ (forall x, is_sign_vector x = true ->
      to_sign_vector x
      = Ok (VSignVector (mkSignVector (_positive_support x) (_negative_support x)))).
Proof.
  do 3 (split; [reflexivity |]).
  split; intros x H; unfold to_sign_vector; rewrite H; reflexivity.
Qed.

Lemma to_sign_vector_returns_exception_witness :
  is_sign_vector (packed 1 1 0 1) = false
  /\ to_sign_vector (packed 1 1 0 1) = Ok (VException "not a sign vector").
Proof.
  assert (H : is_sign_vector (packed 1 1 0 1) = false) by reflexivity.
  split; [assumption |].
  destruct to_sign_vector_returns_exception as (_ & _ & _ & G & _).
  apply (G _ H).
Defined.

(** ** Flipping signs *)

Lemma flip_signs_zero_support x indices y :
  flip_signs x indices = Ok y -> _zero_support y = _zero_support x.
Proof.
  unfold flip_signs. destruct (Bitset.FrozenBitset indices); simpl;
    [| discriminate].
  intros E. inversion E. reflexivity.
Qed.

(** C3: on "*" with the index set [0], [flip_signs] gives "0", and a second
    flip leaves "0": two flips do not give back "*".  On "/" the first flip
    leaves position 0 without any admissible sign.  [__neg__] maps "*" and
    "/" to themselves. *)
Theorem flip_signs_twice_star :
  from_string "*" = Ok (packed 1 1 1 1)
  /\ from_string "0" = Ok (packed 1 0 1 0)
  /\ from_string "/" = Ok (packed 1 1 0 1)
  /\ flip_signs (packed 1 1 1 1) [0] = Ok (packed 1 0 1 0)
  /\ (y <- flip_signs (packed 1 1 1 1) [0] ;; flip_signs y [0])
     = Ok (packed 1 0 1 0)
  /\ (y <- flip_signs (packed 1 1 1 1) [0] ;; z <- flip_signs y [0] ;;
      Ok (__eq__ z (PSV (packed 1 1 1 1)))) = Ok false
  /\ flip_signs (packed 1 1 0 1) [0] = Ok (packed 1 0 0 0)
  /\ getitem (packed 1 0 0 0) 0 = Ok []
  /\ (y <- flip_signs (packed 1 1 0 1) [0] ;; z <- flip_signs y [0] ;;
      Ok (__eq__ z (PSV (packed 1 1 0 1)))) = Ok false
  /\ __neg__ (packed 1 1 1 1) = packed 1 1 1 1
  /\ __neg__ (packed 1 1 0 1) = packed 1 1 0 1.
Proof.
  repeat split; reflexivity.
Qed.

(** Away from the positions that admit both [-] and [+], two flips with the
    same, non-empty index set do give back the vector. *)
Lemma flip_signs_involutive_disjoint x indices :
  indices <> [] ->
  (forall i, In i indices ->
     Bitset.testbit (_negative_support x) i
     && Bitset.testbit (_positive_support x) i = false) ->
  (y <- flip_signs x indices ;; z <- flip_signs y indices ;;
   Ok (__eq__ z (PSV x))) = Ok true.
Proof.
  intros Ne H. unfold flip_signs.
  destruct indices as [| j l] eqn:El; [congruence |]. rewrite <- El in *.
  assert (F : Bitset.FrozenBitset indices
              = Ok (Bitset.mk (Bitset.needed_capacity indices)
                              (Bitset.of_indices indices)))
    by (rewrite El; reflexivity).
  rewrite F. simpl bind. f_equal.
  set (b := Bitset.mk _ _).
  assert (G : forall i,
             Bitset.testbit b i = true ->
             Bitset.testbit (_negative_support x) i
             && Bitset.testbit (_positive_support x) i = false).
  { intros i T. apply H. apply BitsetFacts.testbit_of_indices. exact T. }
  unfold __eq__. simpl. rewrite !andb_true_iff, !BitsetFacts.eqb_iff.
  repeat split; intros i; specialize (G i);
    rewrite ?BitsetFacts.testbit_symmetric_difference,
      ?BitsetFacts.testbit_intersection, ?BitsetFacts.testbit_union,
      ?BitsetFacts.testbit_symmetric_difference,
      ?BitsetFacts.testbit_intersection, ?BitsetFacts.testbit_union;
    destruct (Bitset.testbit b i),
      (Bitset.testbit (_negative_support x) i),
      (Bitset.testbit (_positive_support x) i);
    simpl in *; try reflexivity; discriminate (G eq_refl).
Qed.

(** ** Connecting and separating elements *)

Lemma determined_capacity n x :
  has_length n x ->
  Bitset.capacity (_determined_negative_support x) = n
  /\ Bitset.capacity (_determined_zero_support x) = n
  /\ Bitset.capacity (_determined_positive_support x) = n.
Proof.
  intros (Hn & Hz & Hp). simpl. rewrite Hn, Hz, Hp. repeat split; lia.
Qed.

(** C4, on the doctest of [connecting_elements]: for "+*-p-" and "+--++"
    the code returns the positions 0 and 2, where the two vectors have the
    same sign, and not the position 4, the only one where the signs are
    opposite. *)
Lemma connecting_elements_not_opposite :
  from_string "+*-p-" = Ok (packed 5 22 10 11)
  /\ from_string "+--++" = Ok (packed 5 6 0 25)
  /\ connecting_elements (packed 5 22 10 11) (PSV (packed 5 6 0 25)) = [0; 2]
  /\ spec_connecting_elements (packed 5 22 10 11) (packed 5 6 0 25) = [4]
  /\ connecting_elements (packed 5 22 10 11) (PSV (packed 5 6 0 25))
     <> spec_connecting_elements (packed 5 22 10 11) (packed 5 6 0 25).
Proof.
  repeat split; try reflexivity. vm_compute. discriminate.
Qed.

(** C4, as the code has it: [x.connecting_elements(y)] lists, in ascending
    order, the positions where [x] and [y] are both determined positive or
    both determined negative. *)
Theorem connecting_elements_same_sign n x y :
  has_length n x -> has_length n y ->
  connecting_elements x (PSV y)
  = filter (fun e =>
              Bitset.contains (_determined_positive_support x) e
              && Bitset.contains (_determined_positive_support y) e
              || Bitset.contains (_determined_negative_support x) e
                 && Bitset.contains (_determined_negative_support y) e)
           (seq 0 n)
  /\ forall e,
      In e (connecting_elements x (PSV y)) <->
      (In e (determined_positive_support x) /\ In e (determined_positive_support y))
      \/ (In e (determined_negative_support x)
          /\ In e (determined_negative_support y)).
Proof.
  intros Hx Hy.
  destruct (determined_capacity n x Hx) as (Cn & _ & Cp).
  destruct (determined_capacity n y Hy) as (Cn' & _ & Cp').
  assert (C : Bitset.capacity (_connecting_elements x (PSV y)) = n).
  { simpl Bitset.capacity at 1. simpl in Cn, Cp, Cn', Cp'.
    rewrite Cn, Cp, Cn', Cp'. lia. }
  assert (E : forall e, e < n ->
              Bitset.testbit (_connecting_elements x (PSV y)) e
              = Bitset.contains (_determined_positive_support x) e
                && Bitset.contains (_determined_positive_support y) e
                || Bitset.contains (_determined_negative_support x) e
                   && Bitset.contains (_determined_negative_support y) e).
  { intros e L. unfold Bitset.contains. rewrite Cn, Cp, Cn', Cp'.
    apply Nat.ltb_lt in L. rewrite L. simpl.
    unfold _connecting_elements.
    rewrite BitsetFacts.testbit_union, !BitsetFacts.testbit_intersection.
    reflexivity. }
  split.
  - unfold connecting_elements, Bitset.to_list. rewrite C.
    apply filter_ext_in. intros e I. apply in_seq in I. apply E. lia.
  - intros e. unfold connecting_elements, determined_positive_support,
      determined_negative_support.
    rewrite <- !BitsetFacts.contains_In. unfold Bitset.contains at 1.
    rewrite C. destruct (Nat.ltb_spec e n) as [L | L].
    + rewrite (E e L). simpl. rewrite orb_true_iff, !andb_true_iff. reflexivity.
    + unfold Bitset.contains. rewrite Cn, Cp.
      assert (F : (e <? n) = false) by (apply Nat.ltb_ge; lia).
      rewrite F. simpl. intuition discriminate.
Qed.

Lemma connecting_elements_same_sign_witness :
  has_length 5 (packed 5 22 10 11) /\ has_length 5 (packed 5 6 0 25)
  /\ (In 2 (connecting_elements (packed 5 22 10 11) (PSV (packed 5 6 0 25))) <->
      (In 2 (determined_positive_support (packed 5 22 10 11))
       /\ In 2 (determined_positive_support (packed 5 6 0 25)))
      \/ (In 2 (determined_negative_support (packed 5 22 10 11))
          /\ In 2 (determined_negative_support (packed 5 6 0 25)))).
Proof.
  assert (Hx : has_length 5 (packed 5 22 10 11)) by (repeat split; reflexivity).
  assert (Hy : has_length 5 (packed 5 6 0 25)) by (repeat split; reflexivity).
  do 2 (split; [assumption |]).
  apply (connecting_elements_same_sign 5 _ _ Hx Hy).
Defined.

(** ** Orthogonality *)

Lemma to_list_nil a :
  Bitset.valid a -> Bitset.to_list a = [] <-> Bitset.isempty a = true.
Proof.
  intros V. rewrite BitsetFacts.valid_iff in V.
  rewrite BitsetFacts.isempty_iff. split.
  - intros E i. destruct (Nat.lt_ge_cases i (Bitset.capacity a)) as [L | L].
    + destruct (Bitset.testbit a i) eqn:T; [| reflexivity].
      assert (I : In i (Bitset.to_list a)) by (apply BitsetFacts.In_to_list; auto).
      rewrite E in I. destruct I.
    + apply V. assumption.
  - intros H. destruct (Bitset.to_list a) as [| i l] eqn:E; [reflexivity |].
    assert (I : In i (Bitset.to_list a)) by (rewrite E; left; reflexivity).
    apply BitsetFacts.In_to_list in I. rewrite H in I. destruct I; discriminate.
Qed.

Lemma valid_intersection_l a b :
  Bitset.valid a -> Bitset.capacity b <= Bitset.capacity a -> Bitset.valid (a :&: b).
Proof.
  rewrite !BitsetFacts.valid_iff. simpl. intros V C i L.
  rewrite BitsetFacts.testbit_intersection, V by lia. reflexivity.
Qed.

Lemma valid_difference_l a b :
  Bitset.valid a -> Bitset.capacity b <= Bitset.capacity a -> Bitset.valid (a :\: b).
Proof.
  rewrite !BitsetFacts.valid_iff. simpl. intros V C i L.
  rewrite BitsetFacts.testbit_difference, V by lia. reflexivity.
Qed.

Lemma valid_union a b :
  Bitset.valid a -> Bitset.valid b -> Bitset.valid (a :|: b).
Proof.
  rewrite !BitsetFacts.valid_iff. simpl. intros Va Vb i L.
  rewrite BitsetFacts.testbit_union, Va, Vb by lia. reflexivity.
Qed.

Lemma determined_valid n x :
  has_length n x -> valid x ->
  Bitset.valid (_determined_negative_support x)
  /\ Bitset.valid (_determined_zero_support x)
  /\ Bitset.valid (_determined_positive_support x).
Proof.
  intros (Hn & Hz & Hp) (Vn & Vz & Vp).
  repeat split; apply valid_difference_l; try assumption; simpl; lia.
Qed.

(** The two vectors cover all positions with determined zeros. *)
(** Two bitsets cover all positions. *)
Lemma cover_iff n a b :
  Bitset.capacity a = n -> Bitset.capacity b = n ->
  Bitset.isempty (Bitset.complement (a :|: b)) = true
  <-> forall i, i < n -> In i (Bitset.to_list a) \/ In i (Bitset.to_list b).
Proof.
  intros Ca Cb. rewrite BitsetFacts.isempty_iff. split.
  - intros H i L. specialize (H i).
    rewrite BitsetFacts.testbit_complement, BitsetFacts.testbit_union in H.
    simpl Bitset.capacity in H. rewrite Ca, Cb, Nat.max_id in H.
    apply Nat.ltb_lt in L. rewrite L in H. simpl in H.
    apply Nat.ltb_lt in L.
    rewrite !BitsetFacts.In_to_list, Ca, Cb.
    destruct (Bitset.testbit a i); [auto |].
    destruct (Bitset.testbit b i); [auto |].
    discriminate.
  - intros H i.
    rewrite BitsetFacts.testbit_complement, BitsetFacts.testbit_union.
    simpl Bitset.capacity. rewrite Ca, Cb, Nat.max_id.
    destruct (Nat.ltb_spec i n) as [L | L]; [| reflexivity].
    destruct (H i L) as [I | I]; apply BitsetFacts.In_to_list in I;
      destruct I as [_ T]; rewrite T; simpl; rewrite ?orb_true_r; reflexivity.
Qed.

Lemma determined_zero_of_capacity n other :
  vector_has_length n other -> Bitset.capacity (determined_zero_of other) = n.
Proof.
  destruct other as [o | o]; simpl.
  - intros [Cp Cn]. rewrite Cp, Cn. lia.
  - intros (Cn & Cz & Cp). rewrite Cn, Cz, Cp. lia.
Qed.

Lemma elements_valid n x other :
  has_length n x -> vector_has_length n other -> valid x ->
  Bitset.valid (_separating_elements x other)
  /\ Bitset.valid (_connecting_elements x other).
Proof.
  intros Hx Ho Vx.
  destruct (determined_valid n x Hx Vx) as (Vn & _ & Vp).
  destruct (determined_capacity n x Hx) as (Cn & _ & Cp).
  destruct other as [o | o]; simpl in Ho.
  - destruct Ho as [Cp' Cn'].
    split; apply valid_union; apply valid_intersection_l; auto; lia.
  - destruct (determined_capacity n o Ho) as (Cn' & _ & Cp').
    split; apply valid_union; apply valid_intersection_l; auto; lia.
Qed.

(** C7: [x.is_orthogonal_to(y)], for a sign vector or a partial sign vector
    [y], is true when every position is a determined zero of [x] or a
    (determined) zero of [y]; otherwise it is true exactly when there is a
    separating element and there is a connecting element.  "n*0-+" is
    orthogonal to "**0++" and not to "0*++0". *)
Theorem is_orthogonal_to_cases :
  (forall n x y, has_length n x -> vector_has_length n y -> valid x ->
     ((forall i, i < n ->
         In i (determined_zero_support x)
         \/ In i (Bitset.to_list (determined_zero_of y))) ->
      is_orthogonal_to x y = true)
     /\ (~ (forall i, i < n ->
              In i (determined_zero_support x)
              \/ In i (Bitset.to_list (determined_zero_of y))) ->
         (is_orthogonal_to x y = true <->
          separating_elements x y <> [] /\ connecting_elements x y <> [])))
  /\ from_string "n*0-+" = Ok (packed 5 11 7 18)
  /\ from_string "**0++" = Ok (packed 5 3 7 27)
  /\ from_string "0*++0" = Ok (packed 5 2 19 14)
  /\ is_orthogonal_to (packed 5 11 7 18) (PSV (packed 5 3 7 27)) = true
  /\ is_orthogonal_to (packed 5 11 7 18) (PSV (packed 5 2 19 14)) = false.
Proof.
  split; [| repeat split; reflexivity].
  intros n x y Hx Hy Vx.
  destruct (determined_capacity n x Hx) as (_ & Cz & _).
  pose proof (cover_iff n _ _ Cz (determined_zero_of_capacity n y Hy)) as Z.
  destruct (elements_valid n x y Hx Hy Vx) as [Vs Vc].
  assert (E : is_orthogonal_to x y
              = if Bitset.isempty
                     (Bitset.complement
                        (_determined_zero_support x :|: determined_zero_of y))
                then true
                else negb (Bitset.isempty (_separating_elements x y)
                           || Bitset.isempty (_connecting_elements x y)))
    by (destruct y; reflexivity).
  rewrite E. fold (determined_zero_support x) in Z. split.
  - intros H. apply Z in H. rewrite H. reflexivity.
  - intros H.
    destruct (Bitset.isempty (Bitset.complement _)) eqn:F.
    + exfalso. apply H. apply Z. reflexivity.
    + unfold separating_elements, connecting_elements.
      rewrite (to_list_nil _ Vs), (to_list_nil _ Vc), negb_true_iff, orb_false_iff.
      destruct (Bitset.isempty (_separating_elements x y)),
        (Bitset.isempty (_connecting_elements x y));
        intuition congruence.
Qed.

Lemma is_orthogonal_to_cases_witness :
  from_string "00+00" = Ok (packed 5 0 27 4)
  /\ has_length 5 (packed 5 11 7 18)
  /\ vector_has_length 5 (PSV (packed 5 0 27 4))
  /\ valid (packed 5 11 7 18)
  /\ (forall i, i < 5 ->
        In i (determined_zero_support (packed 5 11 7 18))
        \/ In i (Bitset.to_list (determined_zero_of (PSV (packed 5 0 27 4)))))
  /\ is_orthogonal_to (packed 5 11 7 18) (PSV (packed 5 0 27 4)) = true.
Proof.
  assert (Hx : has_length 5 (packed 5 11 7 18)) by (repeat split; reflexivity).
  assert (Hy : vector_has_length 5 (PSV (packed 5 0 27 4)))
    by (repeat split; reflexivity).
  assert (Vx : valid (packed 5 11 7 18)) by (repeat split; reflexivity).
  assert (C : forall i, i < 5 ->
                In i (determined_zero_support (packed 5 11 7 18))
                \/ In i (Bitset.to_list
                           (determined_zero_of (PSV (packed 5 0 27 4))))).
  { intros i L.
    do 5 (destruct i as [| i]; [vm_compute; tauto |]). lia. }
  split; [reflexivity |]. do 3 (split; [assumption |]). split; [assumption |].
  destruct is_orthogonal_to_cases as [H _].
  destruct (H 5 _ _ Hx Hy Vx) as [G _]. apply (G C).
Defined.


(** ** Strings *)

Lemma length_list_ascii_of_string s :
  List.length (list_ascii_of_string s) = String.length s.
Proof. induction s as [| c s IH]; simpl; congruence. Qed.

Lemma FrozenBitset_capacity_ok l c :
  0 < c -> (forall i, In i l -> i < c) ->
  Bitset.FrozenBitset_capacity l c = Ok (Bitset.mk c (Bitset.of_indices l)).
Proof.
  intros Hc Hl. unfold Bitset.FrozenBitset_capacity.
  destruct (Nat.eqb_spec c 0) as [E | _]; [lia |].
  assert (L : Bitset.needed_capacity l <= c).
  { unfold Bitset.needed_capacity. destruct l as [| i l]; [lia |].
    apply Nat.le_succ_l. apply list_max_lt; [discriminate |].
    apply Forall_forall. exact Hl. }
  apply Nat.ltb_ge in L. rewrite L. reflexivity.
Qed.

Lemma In_combine_seq (cs : list ascii) k e c :
  In (e, c) (combine (seq k (List.length cs)) cs)
  <-> k <= e /\ nth_error cs (e - k) = Some c.
Proof.
  revert k. induction cs as [| d cs IH]; intros k; simpl.
  - split; [tauto |]. intros [_ H]. destruct (e - k); discriminate.
  - rewrite IH. split.
    + intros [E | [L H]].
      * inversion E; subst. rewrite Nat.sub_diag. auto.
      * split; [lia |]. replace (e - k) with (S (e - S k)) by lia. exact H.
    + intros [L H]. destruct (e - k) as [| m] eqn:M.
      * left. simpl in H. inversion H. f_equal. lia.
      * right. split; [lia |]. simpl in H.
        replace (e - S k) with m by lia. exact H.
Qed.

Lemma In_positions_in l s e :
  In e (positions_in l s)
  <-> exists c, nth_error (list_ascii_of_string s) e = Some c
                /\ char_in c l = true.
Proof.
  unfold positions_in, enumerate. rewrite in_map_iff.
  rewrite <- length_list_ascii_of_string. split.
  - intros ([e' c] & E & I). simpl in E. subst e'.
    apply filter_In in I. destruct I as [I C]. simpl in C.
    apply In_combine_seq in I. rewrite Nat.sub_0_r in I.
    exists c. tauto.
  - intros (c & H & C). exists (e, c). split; [reflexivity |].
    apply filter_In. split; [| exact C].
    apply In_combine_seq. rewrite Nat.sub_0_r. split; [lia | exact H].
Qed.

Lemma positions_in_lt l s e :
  In e (positions_in l s) -> e < String.length s.
Proof.
  intros H. apply In_positions_in in H. destruct H as (c & H & _).
  rewrite <- length_list_ascii_of_string. apply nth_error_Some. congruence.
Qed.

Lemma from_string_ok s :
  s <> EmptyString ->
  from_string s
  = Ok (mkPartialSignVector
          (Bitset.mk (String.length s)
             (Bitset.of_indices (positions_in ["-"; "n"; "/"; "*"]%char s)))
          (Bitset.mk (String.length s)
             (Bitset.of_indices (positions_in ["0"; "n"; "p"; "*"]%char s)))
          (Bitset.mk (String.length s)
             (Bitset.of_indices (positions_in ["+"; "p"; "/"; "*"]%char s)))).
Proof.
  intros H. assert (L : 0 < String.length s) by (destruct s; simpl; [congruence | lia]).
  unfold from_string, from_support.
  rewrite !FrozenBitset_capacity_ok
    by (try assumption; intros i I; apply positions_in_lt in I; exact I).
  reflexivity.
Qed.

(** Membership in a parsed support, read off the string. *)
Lemma contains_positions_in l s e c :
  nth_error (list_ascii_of_string s) e = Some c ->
  Bitset.contains
    (Bitset.mk (String.length s) (Bitset.of_indices (positions_in l s))) e
  = char_in c l.
Proof.
  intros H. unfold Bitset.contains, Bitset.testbit. simpl.
  assert (L : e < String.length s).
  { rewrite <- length_list_ascii_of_string. apply nth_error_Some. congruence. }
  apply Nat.ltb_lt in L. rewrite L. simpl.
  destruct (char_in c l) eqn:C.
  - apply BitsetFacts.testbit_of_indices. apply In_positions_in. eauto.
  - destruct (N.testbit _ _) eqn:T; [| reflexivity].
    apply BitsetFacts.testbit_of_indices, In_positions_in in T.
    destruct T as (c' & H' & C'). congruence.
Qed.

Lemma getitem_nat x e :
  e < length x -> getitem x (Z.of_nat e) = Ok (signs_at x e).
Proof.
  intros L. unfold getitem.
  destruct (Z.geb_spec (Z.of_nat e) (Z.of_nat (length x))) as [G | _]; [lia |].
  destruct (Z.ltb_spec (Z.of_nat e) (- Z.of_nat (length x))) as [G | _]; [lia |].
  destruct (Z.ltb_spec (Z.of_nat e) 0) as [G | _]; [lia |].
  simpl. rewrite Nat2Z.id. unfold signs_at. simpl.
  destruct (Bitset.contains (_negative_support x) e),
    (Bitset.contains (_zero_support x) e),
    (Bitset.contains (_positive_support x) e); reflexivity.
Qed.

Lemma to_string_at_symbol x e :
  e < length x -> admits_some x e = true ->
  to_string_at x (Z.of_nat e) = Ok (Some (String (symbol_at x e) EmptyString)).
Proof.
  intros L A. unfold to_string_at. rewrite (getitem_nat x e L).
  unfold signs_at, symbol_at, admits_some in *. simpl.
  destruct (Bitset.contains (_negative_support x) e),
    (Bitset.contains (_zero_support x) e),
    (Bitset.contains (_positive_support x) e);
    try reflexivity; discriminate A.
Qed.

Lemma mapM_Ok {A B : Type} (f : A -> result B) (g : A -> B) l :
  (forall a, In a l -> f a = Ok (g a)) -> mapM f l = Ok (map g l).
Proof.
  induction l as [| a l IH]; intros H; simpl; [reflexivity |].
  rewrite (H a) by (left; reflexivity). simpl.
  rewrite IH by (intros b I; apply H; right; exact I). reflexivity.
Qed.

Lemma join_chars cs :
  join (map (fun c => Some (String c EmptyString)) cs)
  = Ok (string_of_list_ascii cs).
Proof.
  induction cs as [| c cs IH]; simpl; [reflexivity |].
  rewrite IH. reflexivity.
Qed.

(** The string of a well-formed vector, symbol by symbol. *)
Lemma to_string_symbols x :
  well_formed x ->
  to_string x
  = Ok (string_of_list_ascii (map (symbol_at x) (seq 0 (length x)))).
Proof.
  intros W. rewrite well_formed_iff in W. unfold to_string.
  rewrite (mapM_Ok _ (fun e => Some (String (symbol_at x e) EmptyString))).
  - simpl. rewrite <- (map_map (symbol_at x)
                          (fun c => Some (String c EmptyString))).
    apply join_chars.
  - intros e I. apply in_seq in I.
    apply to_string_at_symbol; [lia | apply W; lia].
Qed.

Lemma map_seq_nth_error (cs : list ascii) (f : nat -> ascii) k :
  (forall e, e < List.length cs -> nth_error cs e = Some (f (k + e))) ->
  map f (seq k (List.length cs)) = cs.
Proof.
  revert k. induction cs as [| c cs IH]; intros k H; simpl; [reflexivity |].
  f_equal.
  - specialize (H 0 ltac:(simpl; lia)). rewrite Nat.add_0_r in H.
    simpl in H. congruence.
  - apply IH. intros e L. specialize (H (S e) ltac:(simpl; lia)).
    simpl in H. rewrite H. f_equal. f_equal. lia.
Qed.

Lemma alphabet_cases c :
  char_in c alphabet = true ->
  c = "-"%char \/ c = "0"%char \/ c = "+"%char \/ c = "n"%char
  \/ c = "p"%char \/ c = "/"%char \/ c = "*"%char.
Proof.
  unfold char_in, alphabet. cbn [existsb].
  rewrite !orb_true_iff, !Ascii.eqb_eq. intuition discriminate.
Qed.

Lemma symbol_of_char c :
  char_in c alphabet = true ->
  symbol (char_in c ["-"; "n"; "/"; "*"]%char)
         (char_in c ["0"; "n"; "p"; "*"]%char)
         (char_in c ["+"; "p"; "/"; "*"]%char) = c
  /\ char_in c ["-"; "n"; "/"; "*"]%char
     || char_in c ["0"; "n"; "p"; "*"]%char
     || char_in c ["+"; "p"; "/"; "*"]%char = true.
Proof.
  intros H. apply alphabet_cases in H.
  destruct H as [-> | [-> | [-> | [-> | [-> | [-> | ->]]]]]];
    split; reflexivity.
Qed.

Lemma char_in_symbol a b c :
  a || b || c = true ->
  char_in (symbol a b c) ["-"; "n"; "/"; "*"]%char = a
  /\ char_in (symbol a b c) ["0"; "n"; "p"; "*"]%char = b
  /\ char_in (symbol a b c) ["+"; "p"; "/"; "*"]%char = c
  /\ char_in (symbol a b c) alphabet = true.
Proof.
  destruct a, b, c; simpl; intros H; try discriminate H; repeat split.
Qed.

Lemma testbit_positions_in l s i :
  N.testbit (Bitset.of_indices (positions_in l s)) (N.of_nat i)
  = match nth_error (list_ascii_of_string s) i with
    | Some c => char_in c l
    | None => false
    end.
Proof.
  destruct (nth_error (list_ascii_of_string s) i) as [c |] eqn:E.
  - destruct (char_in c l) eqn:C.
    + apply BitsetFacts.testbit_of_indices, In_positions_in. eauto.
    + destruct (N.testbit _ _) eqn:T; [| reflexivity].
      apply BitsetFacts.testbit_of_indices, In_positions_in in T.
      destruct T as (c' & H' & C'). congruence.
  - destruct (N.testbit _ _) eqn:T; [| reflexivity].
    apply BitsetFacts.testbit_of_indices, In_positions_in in T.
    destruct T as (c' & H' & _). congruence.
Qed.

Lemma nth_error_map_seq (f : nat -> ascii) n i :
  nth_error (map f (seq 0 n)) i = if i <? n then Some (f i) else None.
Proof.
  destruct (Nat.ltb_spec i n) as [L | L].
  - rewrite (nth_error_nth' _ (f 0)) by (rewrite length_map, length_seq; lia).
    rewrite (map_nth f (seq 0 n) 0 i), seq_nth by lia. reflexivity.
  - apply nth_error_None. rewrite length_map, length_seq. lia.
Qed.

Lemma from_string_to_string s :
  s <> EmptyString -> over_alphabet s ->
  (x <- from_string s ;; to_string x) = Ok s.
Proof.
  intros Hs Ha. rewrite (from_string_ok s Hs). simpl bind.
  set (x := mkPartialSignVector _ _ _).
  unfold over_alphabet in Ha. rewrite forallb_forall in Ha.
  assert (P : forall e, e < String.length s ->
              exists c, nth_error (list_ascii_of_string s) e = Some c
                        /\ symbol_at x e = c /\ admits_some x e = true).
  { intros e L. rewrite <- length_list_ascii_of_string in L.
    destruct (nth_error (list_ascii_of_string s) e) as [c |] eqn:E;
      [| apply nth_error_None in E; lia].
    exists c. split; [reflexivity |].
    unfold symbol_at, admits_some, x. simpl.
    rewrite !(contains_positions_in _ s e c E).
    apply symbol_of_char. apply Ha. eapply nth_error_In. exact E. }
  rewrite to_string_symbols.
  - f_equal.
    transitivity (string_of_list_ascii (list_ascii_of_string s));
      [| apply string_of_list_ascii_of_string].
    f_equal.
    change (length x) with (String.length s).
    rewrite <- length_list_ascii_of_string.
    apply map_seq_nth_error. intros e L.
    rewrite length_list_ascii_of_string in L.
    destruct (P e L) as (c & E & S & _). simpl. congruence.
  - apply well_formed_iff. intros e L. destruct (P e L) as (c & _ & _ & A).
    exact A.
Qed.

Lemma valid_testbit_contains a i :
  Bitset.valid a -> Bitset.testbit a i = Bitset.contains a i.
Proof.
  intros V. rewrite BitsetFacts.valid_iff in V. unfold Bitset.contains.
  destruct (Nat.ltb_spec i (Bitset.capacity a)) as [L | L]; [reflexivity |].
  simpl. apply V. exact L.
Qed.

Lemma to_string_from_string n x :
  0 < n -> has_length n x -> valid x -> well_formed x ->
  (s <- to_string x ;; y <- from_string s ;; Ok (__eq__ y (PSV x))) = Ok true.
Proof.
  intros Hn (Cn & Cz & Cp) (Vn & Vz & Vp) W.
  rewrite (to_string_symbols x W). simpl bind.
  unfold length. rewrite Cn.
  set (s := string_of_list_ascii (map (symbol_at x) (seq 0 n))).
  assert (Ls : list_ascii_of_string s = map (symbol_at x) (seq 0 n))
    by apply list_ascii_of_string_of_list_ascii.
  assert (Hs : s <> EmptyString).
  { intros E. rewrite E in Ls. destruct n; [lia | discriminate Ls]. }
  rewrite (from_string_ok s Hs). simpl bind. f_equal.
  rewrite well_formed_iff in W. unfold length in W. rewrite Cn in W.
  assert (T : forall l i,
             N.testbit (Bitset.of_indices (positions_in l s)) (N.of_nat i)
             = (i <? n) && char_in (symbol_at x i) l).
  { intros l i. rewrite testbit_positions_in, Ls, nth_error_map_seq.
    destruct (i <? n); reflexivity. }
  unfold __eq__. simpl. rewrite !andb_true_iff, !BitsetFacts.eqb_iff.
  unfold Bitset.testbit at 1 3 5. simpl.
  repeat split; intros i; rewrite T;
    rewrite valid_testbit_contains by assumption;
    (destruct (Nat.ltb_spec i n) as [L | L];
     [ destruct (char_in_symbol _ _ _ (W i L)) as (En & Ez & Ep & _);
       simpl; assumption
     | unfold Bitset.contains; rewrite ?Cn, ?Cz, ?Cp;
       apply Nat.ltb_ge in L; rewrite L; reflexivity ]).
Qed.

(** C5, at the empty string: [from_string] asks for three bitsets of
    capacity 0, which [FrozenBitset] refuses with a [ValueError]; no vector
    comes back whose string could be compared with the empty string. *)
Lemma from_string_empty :
  over_alphabet EmptyString
  /\ from_string EmptyString
     = Raise (ValueError "bitset capacity must be greater than 0")
  /\ (x <- from_string EmptyString ;; to_string x) <> Ok EmptyString.
Proof.
  repeat split. vm_compute. discriminate.
Qed.

(** C5, as the code has it: for every non-empty string [s] over the seven
    symbols, [from_string(s).to_string()] is [s]; and for every well-formed
    partial sign vector [x] of positive length, [from_string(x.to_string())]
    is equal to [x]. *)
Theorem from_string_round_trip :
  (forall s, s <> EmptyString -> over_alphabet s ->
     (x <- from_string s ;; to_string x) = Ok s)
  /\ (forall n x, 0 < n -> has_length n x -> valid x -> well_formed x ->
      (s <- to_string x ;; y <- from_string s ;; Ok (__eq__ y (PSV x)))
      = Ok true).
Proof.
  split.
  - exact from_string_to_string.
  - exact to_string_from_string.
Qed.

Lemma from_string_round_trip_witness :
  "+/-+p0n"%string <> EmptyString
  /\ over_alphabet "+/-+p0n"
  /\ (x <- from_string "+/-+p0n" ;; to_string x) = Ok "+/-+p0n"%string
  /\ 0 < 5 /\ has_length 5 (packed 5 9 30 4) /\ valid (packed 5 9 30 4)
  /\ well_formed (packed 5 9 30 4)
  /\ (s <- to_string (packed 5 9 30 4) ;; y <- from_string s ;;
      Ok (__eq__ y (PSV (packed 5 9 30 4)))) = Ok true.
Proof.
  assert (Hs : "+/-+p0n"%string <> EmptyString) by discriminate.
  assert (Ha : over_alphabet "+/-+p0n") by reflexivity.
  assert (Hn : 0 < 5) by lia.
  assert (Hx : has_length 5 (packed 5 9 30 4)) by (repeat split; reflexivity).
  assert (Vx : valid (packed 5 9 30 4)) by (repeat split; reflexivity).
  assert (Wx : well_formed (packed 5 9 30 4)) by reflexivity.
  destruct from_string_round_trip as [A B].
  split; [assumption |]. split; [assumption |].
  split; [apply (A _ Hs Ha) |].
  do 4 (split; [assumption |]).
  apply (B 5 _ Hn Hx Vx Wx).
Defined.

(** ** Unpacking *)

Lemma testbit_singleton k i :
  Bitset.testbit (singleton k) i = (i =? k).
Proof.
  unfold Bitset.testbit, singleton. simpl Bitset.bits.
  destruct (Nat.eqb_spec i k) as [E | E].
  - apply BitsetFacts.testbit_of_indices. left. congruence.
  - destruct (N.testbit _ _) eqn:T; [| reflexivity].
    apply BitsetFacts.testbit_of_indices in T. destruct T as [T | []].
    congruence.
Qed.

Lemma set_sign_singleton x k s :
  set_sign x [k] (SignList [s]) = Ok (set_at x k s).
Proof.
  unfold set_sign, set_at, int_in, Bitset.FrozenBitset, Bitset.needed_capacity,
    singleton.
  cbn [existsb list_max fold_right bind]. rewrite Nat.max_0_r, !orb_false_r.
  reflexivity.
Qed.

Lemma set_sign_has_length n x k s :
  has_length n x -> k < n -> has_length n (set_at x k s).
Proof.
  intros (Cn & Cz & Cp) L. unfold has_length, set_at.
  destruct (-1 =? s)%Z, (0 =? s)%Z, (1 =? s)%Z;
    repeat split;
    cbn [_negative_support _zero_support _positive_support];
    unfold Bitset.union, Bitset.difference, singleton; cbn [Bitset.capacity];
    rewrite ?Cn, ?Cz, ?Cp; lia.
Qed.

Lemma set_sign_admitted x k s i :
  admitted (set_at x k s) i
  = if i =? k then ((-1 =? s)%Z, (0 =? s)%Z, (1 =? s)%Z) else admitted x i.
Proof.
  unfold admitted, set_at.
  destruct (-1 =? s)%Z, (0 =? s)%Z, (1 =? s)%Z; cbn [_negative_support
    _zero_support _positive_support];
    rewrite ?BitsetFacts.testbit_union, ?BitsetFacts.testbit_difference,
      !testbit_singleton;
    destruct (i =? k);
    rewrite ?orb_true_r, ?orb_false_r, ?andb_true_r, ?andb_false_r;
    reflexivity.
Qed.

(** Vectors of one length are equal when they have the same bits. *)
Lemma bitset_ext a b :
  Bitset.capacity a = Bitset.capacity b ->
  (forall i, Bitset.testbit a i = Bitset.testbit b i) -> a = b.
Proof.
  destruct a as [ca ba], b as [cb bb]. simpl. intros -> H. f_equal.
  apply N.eqb_eq. apply (BitsetFacts.eqb_iff (Bitset.mk cb ba) (Bitset.mk cb bb)).
  exact H.
Qed.

Lemma admitted_ext n x y :
  has_length n x -> has_length n y ->
  (forall i, admitted x i = admitted y i) -> x = y.
Proof.
  intros (Cn & Cz & Cp) (Cn' & Cz' & Cp') H.
  destruct x as [xn xz xp], y as [yn yz yp]. simpl in *.
  f_equal; apply bitset_ext; try congruence; intros i; specialize (H i);
    unfold admitted in H; simpl in H; congruence.
Qed.

Lemma eq_iff n x y :
  has_length n x -> has_length n y -> __eq__ x (PSV y) = true <-> x = y.
Proof.
  intros Hx Hy. split.
  - unfold __eq__. simpl. rewrite !andb_true_iff, !BitsetFacts.eqb_iff.
    intros [[N0 P] Z0]. apply (admitted_ext n); try assumption.
    intros i. unfold admitted. rewrite N0, P, Z0. reflexivity.
  - intros ->. unfold __eq__, Bitset.eqb. simpl.
    rewrite !N.eqb_refl. reflexivity.
Qed.

Section SetAdd.
Context {A : Type} (eqb : A -> A -> bool) (P : A -> Prop).
Hypothesis eqb_eq : forall a b, P a -> P b -> (eqb a b = true <-> a = b).

(** Adding new, pairwise different elements appends them. *)
Lemma fold_set_add_fresh l temp :
  Forall P temp -> Forall P l -> NoDup (temp ++ l) ->
  fold_left (set_add eqb) l temp = temp ++ l.
Proof.
  revert temp. induction l as [| a l IH]; intros temp Pt Pl N; simpl.
  - rewrite app_nil_r. reflexivity.
  - inversion Pl as [| ? ? Pa Pl']; subst.
    assert (F : existsb (eqb a) temp = false).
    { destruct (existsb (eqb a) temp) eqn:E; [| reflexivity].
      apply existsb_exists in E. destruct E as (b & I & E).
      rewrite Forall_forall in Pt.
      apply eqb_eq in E; [| assumption | apply Pt; assumption]. subst b.
      apply NoDup_remove_2 in N. exfalso. apply N.
      apply in_or_app. left. exact I. }
    unfold set_add at 2. rewrite F.
    rewrite IH.
    + rewrite <- app_assoc. reflexivity.
    + apply Forall_app. split; [assumption | constructor; auto].
    + assumption.
    + rewrite <- app_assoc. exact N.
Qed.
End SetAdd.

Lemma resolve_signs psv e signs temp :
  fold_left
    (fun temp s =>
       temp <- temp ;;
       v <- set_sign psv [e] (SignList [s]) ;;
       Ok (set_add (fun a b => __eq__ a (PSV b)) temp v))
    signs (Ok temp)
  = Ok (fold_left (set_add (fun a b => __eq__ a (PSV b)))
                  (map (set_at psv e) signs) temp).
Proof.
  revert temp. induction signs as [| s signs IH]; intros temp;
    cbn [fold_left map bind]; [reflexivity |].
  rewrite set_sign_singleton. cbn [bind]. apply IH.
Qed.

(** One round of the loop of [unpack], as a set built from the candidates. *)
Lemma unpack_at_flat e res :
  (forall psv, In psv res -> e < length psv) ->
  unpack_at e res
  = Ok (fold_left (set_add (fun a b => __eq__ a (PSV b)))
                  (flat_map (resolve_at e) res) []).
Proof.
  unfold unpack_at. generalize (@nil PartialSignVector) as temp.
  induction res as [| psv res IH]; intros temp H;
    cbn [fold_left flat_map bind]; [reflexivity |].
  rewrite (getitem_nat psv e) by (apply H; left; reflexivity). cbn [bind].
  rewrite resolve_signs.
  rewrite IH by (intros q I; apply H; right; exact I).
  rewrite fold_left_app. reflexivity.
Qed.

Lemma contains_testbit a i :
  i < Bitset.capacity a -> Bitset.contains a i = Bitset.testbit a i.
Proof.
  intros L. unfold Bitset.contains. apply Nat.ltb_lt in L. rewrite L. reflexivity.
Qed.

Lemma signs_at_admitted n x i :
  has_length n x -> i < n ->
  signs_at x i
  = (let '(a, b, c) := admitted x i in
     (if a then [-1] else []) ++ (if b then [0] else []) ++ (if c then [1] else []))%Z.
Proof.
  intros (Cn & Cz & Cp) L. unfold signs_at, admitted.
  rewrite !contains_testbit by lia. simpl.
  destruct (Bitset.testbit (_negative_support x) i),
    (Bitset.testbit (_zero_support x) i),
    (Bitset.testbit (_positive_support x) i); reflexivity.
Qed.

Lemma signs_at_range x i s :
  In s (signs_at x i) -> (s = -1 \/ s = 0 \/ s = 1)%Z.
Proof.
  unfold signs_at. rewrite filter_In. simpl. intuition.
Qed.

Lemma signs_at_NoDup x i : NoDup (signs_at x i).
Proof.
  unfold signs_at. apply NoDup_filter.
  repeat constructor; simpl; intuition discriminate.
Qed.

Lemma NoDup_flat_map {A B : Type} (f : A -> list B) l :
  NoDup l -> (forall a, In a l -> NoDup (f a)) ->
  (forall a b y, In a l -> In b l -> In y (f a) -> In y (f b) -> a = b) ->
  NoDup (flat_map f l).
Proof.
  induction l as [| a l IH]; intros N F D; simpl; [constructor |].
  inversion N as [| ? ? Na Nl]; subst.
  apply NoDup_app.
  - apply F. left. reflexivity.
  - apply IH; [assumption | intros b I; apply F; right; exact I |].
    intros b c y Ib Ic. apply D; right; assumption.
  - intros y Iy Iy'. apply in_flat_map in Iy'. destruct Iy' as (b & Ib & Iyb).
    apply Na. rewrite (D a b y); auto; [left; reflexivity | right; exact Ib].
Qed.

Lemma resolve_at_In k psv y :
  In y (resolve_at k psv) ->
  exists s, (s = -1 \/ s = 0 \/ s = 1)%Z /\ y = set_at psv k s.
Proof.
  unfold resolve_at. rewrite in_map_iff. intros (s & E & I).
  exists s. split; [eapply signs_at_range; eassumption | congruence].
Qed.

Lemma resolve_at_NoDup k psv : NoDup (resolve_at k psv).
Proof.
  unfold resolve_at. apply Injective_map_NoDup_in; [| apply signs_at_NoDup].
  intros s s' I I' E.
  apply signs_at_range in I. apply signs_at_range in I'.
  assert (H : admitted (set_at psv k s) k = admitted (set_at psv k s') k)
    by congruence.
  rewrite !set_sign_admitted, Nat.eqb_refl in H.
  destruct I as [-> | [-> | ->]], I' as [-> | [-> | ->]];
    try reflexivity; discriminate H.
Qed.

Section UnpackLoop.
Variables (n : nat) (x : PartialSignVector).
Hypothesis Hx : has_length n x.

Lemma unpack_invariant_start : unpack_invariant n x 0 [x].
Proof.
  split; [repeat constructor; simpl; tauto |].
  intros psv [<- | []]. split; [assumption |]. split; [reflexivity | lia].
Qed.

(** One round keeps the invariant and multiplies the number of vectors by
    the number of admissible signs at the position. *)
Lemma unpack_at_step k res :
  k < n -> unpack_invariant n x k res ->
  unpack_at k res = Ok (flat_map (resolve_at k) res)
  /\ unpack_invariant n x (S k) (flat_map (resolve_at k) res)
  /\ List.length (flat_map (resolve_at k) res)
     = List.length res * count_signs x k.
Proof.
  intros L [N I].
  assert (Hl : forall y, In y (flat_map (resolve_at k) res) -> has_length n y).
  { intros y Iy. apply in_flat_map in Iy. destruct Iy as (psv & Ip & Iy).
    apply resolve_at_In in Iy. destruct Iy as (s & _ & ->).
    apply set_sign_has_length; [apply (I psv Ip) | exact L]. }
  assert (Nf : NoDup (flat_map (resolve_at k) res)).
  { apply NoDup_flat_map; [assumption | intros; apply resolve_at_NoDup |].
    intros a b y Ia Ib Iya Iyb.
    destruct (I a Ia) as (La & Ea & _). destruct (I b Ib) as (Lb & Eb & _).
    apply resolve_at_In in Iya. destruct Iya as (s & _ & Ey).
    apply resolve_at_In in Iyb. destruct Iyb as (s' & _ & Ey').
    apply (admitted_ext n); try assumption. intros i.
    destruct (Nat.eqb_spec i k) as [-> | D].
    - rewrite Ea, Eb by lia. reflexivity.
    - assert (E : admitted (set_at a k s) i = admitted (set_at b k s') i)
        by congruence.
      rewrite !set_sign_admitted in E. apply Nat.eqb_neq in D.
      rewrite D in E. exact E. }
  split; [| split].
  - rewrite unpack_at_flat.
    + f_equal.
      apply (fold_set_add_fresh (fun a b => __eq__ a (PSV b)) (has_length n)).
      * intros a b. apply eq_iff.
      * constructor.
      * apply Forall_forall. exact Hl.
      * exact Nf.
    + intros psv Ip. destruct (I psv Ip) as ((C & _) & _).
      unfold length. lia.
  - split; [exact Nf |]. intros y Iy. split; [apply Hl; exact Iy |].
    apply in_flat_map in Iy. destruct Iy as (psv & Ip & Iy).
    apply resolve_at_In in Iy. destruct Iy as (s & Rs & ->).
    destruct (I psv Ip) as (_ & E & D). split.
    + intros i Li. rewrite set_sign_admitted.
      destruct (Nat.eqb_spec i k); [lia | apply E; lia].
    + intros i Li. unfold determined_at. rewrite set_sign_admitted.
      destruct (Nat.eqb_spec i k) as [-> | Di].
      * destruct Rs as [-> | [-> | ->]]; reflexivity.
      * apply (D i). lia.
  - apply flat_map_constant_length. intros psv Ip.
    destruct (I psv Ip) as (Lp & E & _).
    unfold resolve_at, count_signs. rewrite length_map.
    rewrite (signs_at_admitted n psv k Lp L), (signs_at_admitted n x k Hx L).
    rewrite E by lia. reflexivity.
Qed.

Lemma unpack_loop_seq m : forall k res,
  k + m = n -> unpack_invariant n x k res ->
  exists res',
    unpack_loop (seq k m) res = Ok res'
    /\ unpack_invariant n x n res'
    /\ List.length res'
       = List.length res * product (map (count_signs x) (seq k m)).
Proof.
  induction m as [| m IH]; intros k res E I.
  - exists res. assert (K : k = n) by lia. subst k. simpl.
    split; [reflexivity |]. split; [exact I | lia].
  - destruct (unpack_at_step k res ltac:(lia) I) as (U & I' & Len).
    destruct (IH (S k) _ ltac:(lia) I') as (res' & U' & I'' & Len').
    exists res'. split; [| split].
    + unfold unpack_loop in *. simpl. rewrite U. exact U'.
    + exact I''.
    + rewrite Len', Len. simpl. lia.
Qed.

End UnpackLoop.

(** ** Counting *)

Lemma testbit_determined x i :
  Bitset.testbit (_determined_support x) i = determined_at x i.
Proof.
  unfold _determined_support, _determined_negative_support,
    _determined_zero_support, _determined_positive_support, determined_at,
    admitted.
  rewrite !BitsetFacts.testbit_union, !BitsetFacts.testbit_difference,
    !BitsetFacts.testbit_union.
  destruct (Bitset.testbit (_negative_support x) i),
    (Bitset.testbit (_zero_support x) i),
    (Bitset.testbit (_positive_support x) i); reflexivity.
Qed.

Lemma testbit_undetermined x i :
  Bitset.testbit (_undetermined_support x) i = undetermined_at x i.
Proof.
  unfold _undetermined_support, undetermined_at, admitted.
  rewrite !BitsetFacts.testbit_intersection.
  destruct (Bitset.testbit (_negative_support x) i),
    (Bitset.testbit (_zero_support x) i),
    (Bitset.testbit (_positive_support x) i); reflexivity.
Qed.

Lemma determined_support_filter n x :
  has_length n x -> determined_support x = filter (determined_at x) (seq 0 n).
Proof.
  intros (Cn & Cz & Cp). unfold determined_support, Bitset.to_list.
  replace (Bitset.capacity (_determined_support x)) with n
    by (simpl; rewrite Cn, Cz, Cp; lia).
  apply filter_ext. intros i. apply testbit_determined.
Qed.

Lemma undetermined_support_filter n x :
  has_length n x -> undetermined_support x = filter (undetermined_at x) (seq 0 n).
Proof.
  intros (Cn & Cz & Cp). unfold undetermined_support, Bitset.to_list.
  replace (Bitset.capacity (_undetermined_support x)) with n
    by (simpl; rewrite Cn, Cz, Cp; lia).
  apply filter_ext. intros i. apply testbit_undetermined.
Qed.

Lemma filter_all {A : Type} (f : A -> bool) l :
  (forall a, In a l -> f a = true) -> filter f l = l.
Proof.
  induction l as [| a l IH]; intros H; simpl; [reflexivity |].
  rewrite (H a) by (left; reflexivity). f_equal.
  apply IH. intros b I. apply H. right. exact I.
Qed.

Lemma is_sign_vector_determined n x :
  has_length n x -> (forall i, i < n -> determined_at x i = true) ->
  is_sign_vector x = true.
Proof.
  intros Hx D. unfold is_sign_vector.
  rewrite (determined_support_filter n x Hx), filter_all, length_seq.
  - apply Nat.eqb_eq. apply Hx.
  - intros i I. apply in_seq in I. apply D. lia.
Qed.

(** A position of a well-formed vector is determined, two-valued or
    undetermined, with 1, 2 or 3 admissible signs. *)
Lemma count_signs_cases n x i :
  has_length n x -> i < n -> admits_some x i = true ->
  (determined_at x i = true /\ undetermined_at x i = false
   /\ count_signs x i = 1)
  \/ (determined_at x i = false /\ undetermined_at x i = false
      /\ count_signs x i = 2)
  \/ (determined_at x i = false /\ undetermined_at x i = true
      /\ count_signs x i = 3).
Proof.
  intros Hx L W. unfold count_signs.
  rewrite (signs_at_admitted n x i Hx L).
  destruct Hx as (Cn & Cz & Cp). unfold admits_some in W.
  rewrite !contains_testbit in W by lia.
  unfold determined_at, undetermined_at, admitted.
  destruct (Bitset.testbit (_negative_support x) i),
    (Bitset.testbit (_zero_support x) i),
    (Bitset.testbit (_positive_support x) i);
    try discriminate W; simpl; tauto.
Qed.

(** The product of the numbers of admissible signs, over any positions of a
    well-formed vector. *)
Lemma product_count_signs n x l :
  has_length n x -> well_formed x -> (forall i, In i l -> i < n) ->
  List.length (filter (determined_at x) l)
  + List.length (filter (undetermined_at x) l) <= List.length l
  /\ product (map (count_signs x) l)
     = 2 ^ (List.length l - List.length (filter (determined_at x) l)
            - List.length (filter (undetermined_at x) l))
       * 3 ^ List.length (filter (undetermined_at x) l).
Proof.
  intros Hx W. rewrite well_formed_iff in W.
  induction l as [| i l IH]; intros H; [simpl; lia |].
  destruct IH as [Le E]; [intros j I; apply H; right; exact I |].
  assert (Li : i < n) by (apply H; left; reflexivity).
  assert (Lx : length x = n) by apply Hx.
  specialize (W i ltac:(lia)).
  cbn [map product fold_right filter List.length].
  fold (product (map (count_signs x) l)). rewrite E.
  set (d := List.length (filter (determined_at x) l)) in *.
  set (u := List.length (filter (undetermined_at x) l)) in *.
  set (m := List.length l) in *.
  destruct (count_signs_cases n x i Hx Li W)
    as [(D & U & C) | [(D & U & C) | (D & U & C)]];
    rewrite D, U, C; cbn [List.length]; fold d; fold u; fold m.
  - split; [lia |]. replace (S m - S d - u) with (m - d - u) by lia. ring.
  - split; [lia |]. replace (S m - d - u) with (S (m - d - u)) by lia.
    rewrite (Nat.pow_succ_r' 2). ring.
  - split; [lia |]. replace (S m - d - S u) with (m - d - u) by lia.
    rewrite (Nat.pow_succ_r' 3). ring.
Qed.

Lemma cardinality_product n x :
  has_length n x -> well_formed x ->
  cardinality x = product (map (count_signs x) (seq 0 n)).
Proof.
  intros Hx W.
  destruct (product_count_signs n x (seq 0 n) Hx W) as [_ E].
  { intros i I. apply in_seq in I. lia. }
  rewrite E, length_seq. unfold cardinality.
  rewrite (determined_support_filter n x Hx), (undetermined_support_filter n x Hx).
  replace (length x) with n by (symmetry; apply Hx). reflexivity.
Qed.

Lemma value_eqb_eq n a b :
  sign_vector_of_length n a -> sign_vector_of_length n b ->
  value_eqb a b = true <-> a = b.
Proof.
  destruct a as [[pa na] |], b as [[pb nb] |]; simpl; try tauto.
  intros [Cp Cn] [Cp' Cn']. unfold sv_eqb. simpl.
  rewrite andb_true_iff, !BitsetFacts.eqb_iff. split.
  - intros [P N0]. do 2 f_equal; apply bitset_ext; congruence.
  - intros E. inversion E; subst. auto.
Qed.

(** The vectors at the end of the loop are sign vectors, and different
    ones give different sign vectors. *)
Lemma unpack_cast n x res :
  unpack_invariant n x n res ->
  mapM to_sign_vector res = Ok (map as_sign_vector res)
  /\ fold_left (set_add value_eqb) (map as_sign_vector res) []
     = map as_sign_vector res
  /\ NoDup (map as_sign_vector res).
Proof.
  intros [N I].
  assert (Nm : NoDup (map as_sign_vector res)).
  { apply Injective_map_NoDup_in; [| exact N]. intros a b Ia Ib E.
    destruct (I a Ia) as (La & Ea & Da). destruct (I b Ib) as (Lb & Eb & Db).
    apply (admitted_ext n); try assumption. intros i.
    destruct (Nat.lt_ge_cases i n) as [L | L].
    - specialize (Da i L). specialize (Db i L).
      unfold determined_at, admitted in *. inversion E as [[P N0]].
      rewrite P, N0 in *.
      destruct (Bitset.testbit (_negative_support b) i),
        (Bitset.testbit (_positive_support b) i),
        (Bitset.testbit (_zero_support a) i),
        (Bitset.testbit (_zero_support b) i);
        try reflexivity; discriminate.
    - rewrite Ea, Eb by lia. reflexivity. }
  split; [| split]; [| | exact Nm].
  - apply mapM_Ok. intros psv Ip. destruct (I psv Ip) as (L & _ & D).
    unfold to_sign_vector. rewrite (is_sign_vector_determined n psv L D).
    reflexivity.
  - apply (fold_set_add_fresh value_eqb (sign_vector_of_length n)).
    + apply value_eqb_eq.
    + constructor.
    + apply Forall_forall. intros v Iv. apply in_map_iff in Iv.
      destruct Iv as (psv & <- & Ip). destruct (I psv Ip) as ((Cn & _ & Cp) & _).
      simpl. auto.
    + exact Nm.
Qed.

(** C6: the cardinality of a well-formed partial sign vector is
    [2^(length - |determined| - |undetermined|) * 3^|undetermined|], the
    product over the positions of the numbers of admissible signs, and
    [unpack()] returns a set of that many sign vectors. *)
Theorem cardinality_unpack n x :
  has_length n x -> well_formed x ->
  cardinality x
  = 2 ^ (n - List.length (determined_support x)
           - List.length (undetermined_support x))
    * 3 ^ List.length (undetermined_support x)
  /\ cardinality x = product (map (count_signs x) (seq 0 n))
  /\ exists l,
      unpack x None = Ok (SignVectors l)
      /\ NoDup l
      /\ Forall (sign_vector_of_length n) l
      /\ List.length l = cardinality x.
Proof.
  intros Hx W.
  assert (Lx : length x = n) by apply Hx.
  split; [unfold cardinality; rewrite Lx; reflexivity |].
  split; [apply cardinality_product; assumption |].
  destruct (unpack_loop_seq n x Hx n 0 [x] eq_refl (unpack_invariant_start n x Hx))
    as (res & U & I & Len).
  destruct (unpack_cast n x res I) as (M & F & Nm).
  exists (map as_sign_vector res). unfold unpack. rewrite Lx, U. simpl bind.
  rewrite M. simpl bind. rewrite F. split; [reflexivity |].
  split; [exact Nm |]. split.
  - apply Forall_forall. intros v Iv. apply in_map_iff in Iv.
    destruct Iv as (psv & <- & Ip). destruct I as [_ I].
    destruct (I psv Ip) as ((Cn & _ & Cp) & _). simpl. auto.
  - rewrite length_map, Len, (cardinality_product n x Hx W). simpl. lia.
Qed.

Lemma cardinality_unpack_witness :
  from_string "-n+*/" = Ok (packed 5 27 10 28)
  /\ has_length 5 (packed 5 27 10 28) /\ well_formed (packed 5 27 10 28)
  /\ cardinality (packed 5 27 10 28) = 12
  /\ exists l,
      unpack (packed 5 27 10 28) None = Ok (SignVectors l)
      /\ List.length l = 12.
Proof.
  assert (Hx : has_length 5 (packed 5 27 10 28)) by (repeat split; reflexivity).
  assert (Wx : well_formed (packed 5 27 10 28)) by reflexivity.
  split; [reflexivity |]. do 2 (split; [assumption |]).
  split; [reflexivity |].
  destruct (cardinality_unpack 5 _ Hx Wx) as (_ & _ & l & U & _ & _ & Len).
  exists l. split; [exact U | exact Len].
Defined.

(** * Further properties of the class *)

(** ** The algebra of composition *)

Ltac split_bits :=
  repeat match goal with
         | |- context [Bitset.testbit ?b ?i] => destruct (Bitset.testbit b i)
         end.

Ltac by_bits :=
  unfold __eq__, issubset; cbn [other_negative other_zero other_positive];
  rewrite ?andb_true_iff, ?BitsetFacts.eqb_iff, ?BitsetFacts.issubset_iff;
  repeat split; intros i;
  cbn [compose __neg__ _negative_support _zero_support _positive_support
         other_negative other_zero other_positive];
  repeat first [ rewrite BitsetFacts.testbit_union
               | rewrite BitsetFacts.testbit_intersection
               | rewrite BitsetFacts.testbit_difference
               | rewrite BitsetFacts.testbit_symmetric_difference ].

(** Composition is associative and idempotent: [(x ∘ y) ∘ z == x ∘ (y ∘ z)]
    and [x ∘ x == x], for all partial sign vectors. *)
Theorem compose_assoc_idem x y z :
  __eq__ (compose (compose x (PSV y)) (PSV z))
         (PSV (compose x (PSV (compose y (PSV z))))) = true
  /\ __eq__ (compose x (PSV x)) (PSV x) = true.
Proof.
  split; by_bits; split_bits; reflexivity.
Qed.

(** Composition is monotone for the subset order: widening either argument
    widens the composition. *)
Theorem compose_monotone x x' y y' :
  issubset x x' = true -> issubset y y' = true ->
  issubset (compose x (PSV y)) (compose x' (PSV y')) = true.
Proof.
  unfold issubset at 1 2.
  rewrite !andb_true_iff, !BitsetFacts.issubset_iff.
  intros [[Xp Xn] Xz] [[Yp Yn] Yz].
  by_bits;
    specialize (Xp i); specialize (Xn i); specialize (Xz i);
    specialize (Yp i); specialize (Yn i); specialize (Yz i);
    split_bits; simpl in *; auto;
    try solve [discriminate (Xp eq_refl) | discriminate (Xn eq_refl)
              | discriminate (Xz eq_refl) | discriminate (Yp eq_refl)
              | discriminate (Yn eq_refl) | discriminate (Yz eq_refl)].
Qed.

Lemma compose_monotone_witness :
  issubset (packed 5 1 12 18) (packed 5 3 12 22) = true
  /\ issubset (packed 5 6 0 25) (packed 5 6 19 29) = true
  /\ issubset (compose (packed 5 1 12 18) (PSV (packed 5 6 0 25)))
              (compose (packed 5 3 12 22) (PSV (packed 5 6 19 29))) = true.
Proof.
  assert (Hx : issubset (packed 5 1 12 18) (packed 5 3 12 22) = true)
    by reflexivity.
  assert (Hy : issubset (packed 5 6 0 25) (packed 5 6 19 29) = true)
    by reflexivity.
  do 2 (split; [assumption |]).
  apply (compose_monotone _ _ _ _ Hx Hy).
Defined.

(** ** The vectors [zero(n)] and [star(n)] *)

Lemma testbit_ones n i :
  Bitset.testbit (Bitset.mk n (N.ones (N.of_nat n))) i = (i <? n).
Proof.
  unfold Bitset.testbit. simpl.
  destruct (Nat.ltb_spec i n) as [L | L].
  - apply N.ones_spec_low. lia.
  - apply N.ones_spec_high. lia.
Qed.

Lemma testbit_empty n i : Bitset.testbit (Bitset.mk n 0) i = false.
Proof. apply N.bits_0. Qed.

Lemma zero_ok n :
  0 < n -> zero n = Ok (packed n 0 (N.ones (N.of_nat n)) 0).
Proof.
  intros L. unfold zero.
  rewrite FrozenBitset_capacity_ok by (simpl; tauto || assumption).
  simpl bind. unfold Bitset.complement. simpl. rewrite N.ldiff_0_r. reflexivity.
Qed.

Lemma star_ok n :
  0 < n ->
  star n = Ok (packed n (N.ones (N.of_nat n)) (N.ones (N.of_nat n))
                        (N.ones (N.of_nat n))).
Proof.
  intros L. unfold star.
  rewrite FrozenBitset_capacity_ok by (simpl; tauto || assumption).
  simpl bind. unfold Bitset.complement. simpl. rewrite N.ldiff_0_r. reflexivity.
Qed.

Lemma product_repeat c l :
  (forall a, In a l -> a = c) -> product l = c ^ List.length l.
Proof.
  induction l as [| a l IH]; intros H; simpl; [reflexivity |].
  rewrite (H a) by (left; reflexivity).
  rewrite IH by (intros b I; apply H; right; exact I). reflexivity.
Qed.

Lemma admitted_zero n i :
  admitted (packed n 0 (N.ones (N.of_nat n)) 0) i = (false, i <? n, false).
Proof.
  unfold admitted, packed.
  cbn [_negative_support _zero_support _positive_support].
  rewrite testbit_ones, !testbit_empty. reflexivity.
Qed.

Lemma admitted_star n i :
  admitted (packed n (N.ones (N.of_nat n)) (N.ones (N.of_nat n))
                   (N.ones (N.of_nat n))) i
  = (i <? n, i <? n, i <? n).
Proof.
  unfold admitted, packed.
  cbn [_negative_support _zero_support _positive_support].
  rewrite !testbit_ones. reflexivity.
Qed.

Lemma well_formed_admitted n x :
  has_length n x ->
  (forall i, i < n -> admitted x i <> (false, false, false)) ->
  well_formed x.
Proof.
  intros (Cn & Cz & Cp) H. apply well_formed_iff. intros i Li.
  unfold length in Li. unfold admits_some.
  rewrite !contains_testbit by lia. specialize (H i ltac:(lia)).
  unfold admitted in H.
  destruct (Bitset.testbit (_negative_support x) i),
    (Bitset.testbit (_zero_support x) i),
    (Bitset.testbit (_positive_support x) i); try reflexivity.
  exfalso. apply H. reflexivity.
Qed.

(** [zero(n)], for a positive [n], admits the sign 0 alone at every
    position: it is a sign vector packing one vector, and it is a left and
    right identity of the composition of valid vectors of length [n]. *)
Theorem zero_compose_identity n x :
  0 < n -> has_length n x -> valid x ->
  exists z,
    zero n = Ok z
    /\ has_length n z
    /\ (forall i, i < n -> getitem z (Z.of_nat i) = Ok [0%Z])
    /\ is_sign_vector z = true
    /\ cardinality z = 1
    /\ __eq__ (compose z (PSV x)) (PSV x) = true
    /\ __eq__ (compose x (PSV z)) (PSV x) = true.
Proof.
  intros L Hx (Vn & Vz & Vp).
  set (z := packed n 0 (N.ones (N.of_nat n)) 0).
  exists z.
  assert (Hz : has_length n z) by (repeat split; reflexivity).
  assert (A : forall i, i < n -> admitted z i = (false, true, false)).
  { intros i Li. unfold z. rewrite admitted_zero.
    apply Nat.ltb_lt in Li. rewrite Li. reflexivity. }
  assert (G : forall i, i < n -> signs_at z i = [0%Z]).
  { intros i Li. rewrite (signs_at_admitted n _ i Hz Li), (A i Li).
    reflexivity. }
  assert (W : well_formed z).
  { apply (well_formed_admitted n); [exact Hz |].
    intros i Li. rewrite (A i Li). discriminate. }
  split; [apply zero_ok; exact L |]. split; [exact Hz |].
  split; [intros i Li; rewrite getitem_nat by (unfold length; rewrite (proj1 Hz); lia);
          f_equal; auto |].
  split.
  { apply (is_sign_vector_determined n); [exact Hz |].
    intros i Li. unfold determined_at. rewrite (A i Li). reflexivity. }
  split.
  { rewrite (cardinality_product n _ Hz W).
    rewrite (product_repeat 1).
    - apply Nat.pow_1_l.
    - intros a I. apply in_map_iff in I. destruct I as (i & <- & I).
      apply in_seq in I. unfold count_signs. rewrite G by lia. reflexivity. }
  rewrite BitsetFacts.valid_iff in Vn, Vz, Vp.
  destruct Hx as (Cn & Cz & Cp).
  split; by_bits; unfold z, packed;
    cbn [_negative_support _zero_support _positive_support];
    rewrite ?testbit_ones, ?testbit_empty;
    (destruct (Nat.ltb_spec i n) as [Li | Li];
     [ split_bits; reflexivity
     | rewrite ?Vn, ?Vz, ?Vp by lia; reflexivity ]).
Qed.

Lemma zero_compose_identity_witness :
  0 < 5 /\ has_length 5 (packed 5 11 7 18) /\ valid (packed 5 11 7 18)
  /\ exists z,
      zero 5 = Ok z
      /\ __eq__ (compose z (PSV (packed 5 11 7 18))) (PSV (packed 5 11 7 18))
         = true
      /\ __eq__ (compose (packed 5 11 7 18) (PSV z)) (PSV (packed 5 11 7 18))
         = true.
Proof.
  assert (L : 0 < 5) by lia.
  assert (Hx : has_length 5 (packed 5 11 7 18)) by (repeat split; reflexivity).
  assert (Vx : valid (packed 5 11 7 18)) by (repeat split; reflexivity).
  do 3 (split; [assumption |]).
  destruct (zero_compose_identity 5 _ L Hx Vx)
    as (z & Z & _ & _ & _ & _ & A & B).
  exists z. auto.
Defined.

(** [star(n)], for a positive [n], admits the three signs at every
    position; every valid vector of length [n] is a subset of it, and it
    packs [3^n] sign vectors. *)
Theorem star_greatest n x :
  0 < n -> has_length n x -> valid x ->
  exists t,
    star n = Ok t
    /\ has_length n t
    /\ (forall i, i < n -> getitem t (Z.of_nat i) = Ok [-1; 0; 1]%Z)
    /\ cardinality t = 3 ^ n
    /\ issubset x t = true.
Proof.
  intros L Hx (Vn & Vz & Vp).
  set (t := packed n (N.ones (N.of_nat n)) (N.ones (N.of_nat n))
                     (N.ones (N.of_nat n))).
  exists t.
  assert (Ht : has_length n t) by (repeat split; reflexivity).
  assert (A : forall i, i < n -> admitted t i = (true, true, true)).
  { intros i Li. unfold t. rewrite admitted_star.
    apply Nat.ltb_lt in Li. rewrite Li. reflexivity. }
  assert (G : forall i, i < n -> signs_at t i = [-1; 0; 1]%Z).
  { intros i Li. rewrite (signs_at_admitted n _ i Ht Li), (A i Li).
    reflexivity. }
  assert (W : well_formed t).
  { apply (well_formed_admitted n); [exact Ht |].
    intros i Li. rewrite (A i Li). discriminate. }
  split; [apply star_ok; exact L |]. split; [exact Ht |].
  split; [intros i Li; rewrite getitem_nat by (unfold length; rewrite (proj1 Ht); lia);
          f_equal; auto |].
  split.
  { rewrite (cardinality_product n _ Ht W).
    rewrite (product_repeat 3).
    - rewrite length_map, length_seq. reflexivity.
    - intros a I. apply in_map_iff in I. destruct I as (i & <- & I).
      apply in_seq in I. unfold count_signs. rewrite G by lia. reflexivity. }
  rewrite BitsetFacts.valid_iff in Vn, Vz, Vp.
  destruct Hx as (Cn & Cz & Cp).
  by_bits; unfold t, packed;
    cbn [_negative_support _zero_support _positive_support];
    rewrite testbit_ones; intros T;
    (destruct (Nat.ltb_spec i n) as [Li | Li];
     [ reflexivity | rewrite ?Vn, ?Vz, ?Vp in T by lia; discriminate T ]).
Qed.

Lemma star_greatest_witness :
  0 < 5 /\ has_length 5 (packed 5 11 7 18) /\ valid (packed 5 11 7 18)
  /\ exists t, star 5 = Ok t /\ cardinality t = 243
               /\ issubset (packed 5 11 7 18) t = true.
Proof.
  assert (L : 0 < 5) by lia.
  assert (Hx : has_length 5 (packed 5 11 7 18)) by (repeat split; reflexivity).
  assert (Vx : valid (packed 5 11 7 18)) by (repeat split; reflexivity).
  do 3 (split; [assumption |]).
  destruct (star_greatest 5 _ L Hx Vx) as (t & T & _ & _ & C & S).
  exists t. auto.
Defined.

(** ** Support queries and indexing *)

Lemma In_support n a i :
  Bitset.capacity a = n -> i < n ->
  In i (Bitset.to_list a) <-> Bitset.testbit a i = true.
Proof.
  intros C L. rewrite BitsetFacts.In_to_list, C. tauto.
Qed.

Ltac support_cases n x i Hx L :=
  let Cn := fresh "Cn" in
  let Cz := fresh "Cz" in
  let Cp := fresh "Cp" in
  destruct (determined_capacity n x Hx) as (Cn & Cz & Cp);
  rewrite (getitem_nat x i) by (unfold length; rewrite (proj1 Hx); lia);
  rewrite (signs_at_admitted n x i Hx L);
  unfold determined_negative_support, determined_zero_support,
    determined_positive_support;
  rewrite ?(In_support n _ i Cn L), ?(In_support n _ i Cz L),
    ?(In_support n _ i Cp L);
  rewrite ?(determined_support_filter n x Hx),
    ?(undetermined_support_filter n x Hx), ?filter_In, ?in_seq;
  unfold _determined_negative_support, _determined_zero_support,
    _determined_positive_support, determined_at, undetermined_at, admitted;
  rewrite ?BitsetFacts.testbit_difference, ?BitsetFacts.testbit_union;
  destruct (Bitset.testbit (_negative_support x) i),
    (Bitset.testbit (_zero_support x) i),
    (Bitset.testbit (_positive_support x) i); simpl;
  repeat split; try tauto; try discriminate; try lia; eauto;
  try match goal with
      | H : exists _, _ |- _ => destruct H as [? H]; discriminate H
      | H : _ /\ _ |- _ => destruct H; discriminate
      | H : Ok _ = Ok _ |- _ => discriminate H
      end.

Lemma determined_zero_getitem n x i :
  has_length n x -> i < n ->
  In i (determined_zero_support x) <-> getitem x (Z.of_nat i) = Ok [0]%Z.
Proof. intros Hx L. support_cases n x i Hx L. Qed.

Lemma determined_sign_getitem n x i :
  has_length n x -> i < n ->
  (In i (determined_negative_support x) <-> getitem x (Z.of_nat i) = Ok [-1]%Z)
  /\ (In i (determined_positive_support x)
      <-> getitem x (Z.of_nat i) = Ok [1]%Z).
Proof. intros Hx L. support_cases n x i Hx L. Qed.

Lemma determined_getitem n x i :
  has_length n x -> i < n ->
  In i (determined_support x) <-> exists s, getitem x (Z.of_nat i) = Ok [s].
Proof. intros Hx L. support_cases n x i Hx L. Qed.

Lemma undetermined_getitem n x i :
  has_length n x -> i < n ->
  In i (undetermined_support x) <-> getitem x (Z.of_nat i) = Ok [-1; 0; 1]%Z.
Proof. intros Hx L. support_cases n x i Hx L. Qed.

(** The support queries agree with indexing: a position is in the
    determined negative, zero or positive support exactly when [x[i]] is
    [[-1]], [[0]] or [[1]], in the undetermined support exactly when it is
    [[-1, 0, 1]], and in the determined support exactly when [x[i]] has one
    element. *)
Theorem determined_support_getitem n x i :
  has_length n x -> i < n ->
  (In i (determined_negative_support x) <-> getitem x (Z.of_nat i) = Ok [-1]%Z)
  /\ (In i (determined_zero_support x) <-> getitem x (Z.of_nat i) = Ok [0]%Z)
  /\ (In i (determined_positive_support x) <-> getitem x (Z.of_nat i) = Ok [1]%Z)
  /\ (In i (undetermined_support x)
      <-> getitem x (Z.of_nat i) = Ok [-1; 0; 1]%Z)
  /\ (In i (determined_support x)
      <-> exists s, getitem x (Z.of_nat i) = Ok [s]).
Proof.
  intros Hx L.
  destruct (determined_sign_getitem n x i Hx L) as [N P].
  split; [exact N |].
  split; [apply (determined_zero_getitem n x i Hx L) |].
  split; [exact P |].
  split; [apply (undetermined_getitem n x i Hx L)
         | apply (determined_getitem n x i Hx L)].
Qed.

Lemma determined_support_getitem_witness :
  has_length 9 (packed 9 430 124 31) /\ 6 < 9
  /\ from_string "+/**pn0--" = Ok (packed 9 430 124 31)
  /\ (In 6 (determined_zero_support (packed 9 430 124 31))
      <-> getitem (packed 9 430 124 31) (Z.of_nat 6) = Ok [0]%Z).
Proof.
  assert (Hx : has_length 9 (packed 9 430 124 31)) by (repeat split; reflexivity).
  assert (L : 6 < 9) by lia.
  do 2 (split; [assumption |]). split; [reflexivity |].
  apply (determined_support_getitem 9 _ 6 Hx L).
Defined.

(** ** Negation and symmetry *)

Lemma union_comm a b : a :|: b = b :|: a.
Proof.
  unfold Bitset.union. rewrite Nat.max_comm, N.lor_comm. reflexivity.
Qed.

Lemma intersection_comm a b : a :&: b = b :&: a.
Proof.
  unfold Bitset.intersection. rewrite Nat.max_comm, N.land_comm. reflexivity.
Qed.

(** [-x] is an involution, it commutes with composition and keeps the
    subset order; negating the second vector exchanges the connecting and
    the separating elements and keeps orthogonality. *)
Theorem neg_laws x y :
  __neg__ (__neg__ x) = x
  /\ compose (__neg__ x) (PSV (__neg__ y)) = __neg__ (compose x (PSV y))
  /\ issubset (__neg__ x) (__neg__ y) = issubset x y
  /\ connecting_elements x (PSV (__neg__ y)) = separating_elements x (PSV y)
  /\ separating_elements x (PSV (__neg__ y)) = connecting_elements x (PSV y)
  /\ is_orthogonal_to x (PSV (__neg__ y)) = is_orthogonal_to x (PSV y).
Proof.
  split; [destruct x; reflexivity |]. split; [reflexivity |].
  split.
  { unfold issubset, __neg__. simpl.
    destruct (Bitset.issubset (_positive_support x) (_positive_support y)),
      (Bitset.issubset (_negative_support x) (_negative_support y));
      reflexivity. }
  split; [reflexivity |]. split; [reflexivity |].
  unfold is_orthogonal_to.
  change (_determined_zero_support (__neg__ y))
    with (_zero_support y :\: (_positive_support y :|: _negative_support y)).
  rewrite (union_comm (_positive_support y) (_negative_support y)).
  change (_separating_elements x (PSV (__neg__ y)))
    with (_connecting_elements x (PSV y)).
  change (_connecting_elements x (PSV (__neg__ y)))
    with (_separating_elements x (PSV y)).
  rewrite (orb_comm (Bitset.isempty (_connecting_elements x (PSV y)))).
  reflexivity.
Qed.

(** The connecting elements, the separating elements and orthogonality do
    not depend on the order of the two partial sign vectors. *)
Theorem elements_symmetric x y :
  connecting_elements x (PSV y) = connecting_elements y (PSV x)
  /\ separating_elements x (PSV y) = separating_elements y (PSV x)
  /\ is_orthogonal_to x (PSV y) = is_orthogonal_to y (PSV x).
Proof.
  assert (C : _connecting_elements x (PSV y) = _connecting_elements y (PSV x)).
  { unfold _connecting_elements.
    rewrite (intersection_comm (_determined_positive_support x)),
      (intersection_comm (_determined_negative_support x)). reflexivity. }
  assert (S : _separating_elements x (PSV y) = _separating_elements y (PSV x)).
  { unfold _separating_elements.
    rewrite (intersection_comm (_determined_positive_support x)),
      (intersection_comm (_determined_negative_support x)).
    apply union_comm. }
  unfold connecting_elements, separating_elements, is_orthogonal_to.
  rewrite C, S, (union_comm (_determined_zero_support x)). auto.
Qed.

Lemma isempty_false_bit a i :
  Bitset.testbit a i = true -> Bitset.isempty a = false.
Proof.
  intros T. destruct (Bitset.isempty a) eqn:E; [| reflexivity].
  rewrite BitsetFacts.isempty_iff in E. congruence.
Qed.

(** A partial sign vector is orthogonal to itself exactly when all its
    positions are determined zeros. *)
Theorem is_orthogonal_to_self n x :
  has_length n x ->
  is_orthogonal_to x (PSV x) = true
  <-> forall i, i < n -> getitem x (Z.of_nat i) = Ok [0]%Z.
Proof.
  intros Hx.
  destruct (determined_capacity n x Hx) as (_ & Cz & _).
  assert (S : Bitset.isempty (_separating_elements x (PSV x)) = true).
  { apply BitsetFacts.isempty_iff. intros i.
    unfold _separating_elements, _determined_positive_support,
      _determined_negative_support.
    repeat first [ rewrite BitsetFacts.testbit_union
                 | rewrite BitsetFacts.testbit_intersection
                 | rewrite BitsetFacts.testbit_difference ].
    split_bits; reflexivity. }
  unfold is_orthogonal_to. rewrite S. simpl.
  pose proof (cover_iff n _ _ Cz Cz) as Z.
  fold (determined_zero_support x) in Z.
  split.
  - intros H i L.
    destruct (Bitset.isempty (Bitset.complement _)) eqn:E; [| discriminate H].
    apply (determined_zero_getitem n x i Hx L).
    destruct (proj1 Z eq_refl i L); assumption.
  - intros H.
    destruct (Bitset.isempty (Bitset.complement _)) eqn:E; [reflexivity |].
    assert (F : false = true).
    { apply Z. intros i L. left.
      apply (determined_zero_getitem n x i Hx L). apply H. exact L. }
    discriminate F.
Qed.

Lemma is_orthogonal_to_self_witness :
  has_length 5 (packed 5 0 31 0)
  /\ (is_orthogonal_to (packed 5 0 31 0) (PSV (packed 5 0 31 0)) = true
      <-> forall i, i < 5 -> getitem (packed 5 0 31 0) (Z.of_nat i) = Ok [0]%Z).
Proof.
  assert (Hx : has_length 5 (packed 5 0 31 0)) by (repeat split; reflexivity).
  split; [assumption |].
  apply (is_orthogonal_to_self 5 _ Hx).
Defined.

Lemma In_union_of_intersections n a b c d e :
  Bitset.capacity a = n -> Bitset.capacity b = n ->
  Bitset.capacity c = n -> Bitset.capacity d = n -> e < n ->
  In e (Bitset.to_list ((a :&: b) :|: (c :&: d)))
  <-> (In e (Bitset.to_list a) /\ In e (Bitset.to_list b))
      \/ (In e (Bitset.to_list c) /\ In e (Bitset.to_list d)).
Proof.
  intros Ca Cb Cc Cd L.
  rewrite (In_support n _ e Ca L), (In_support n _ e Cb L),
    (In_support n _ e Cc L), (In_support n _ e Cd L).
  rewrite (In_support n) by (simpl; lia || rewrite ?Ca, ?Cb, ?Cc, ?Cd; lia).
  rewrite BitsetFacts.testbit_union, !BitsetFacts.testbit_intersection,
    orb_true_iff, !andb_true_iff. reflexivity.
Qed.

(** In terms of indexing: [e] is a separating element of [x] and [y] when
    one of [x[e]], [y[e]] is [[1]] and the other [[-1]], and a connecting
    element when both are [[1]] or both are [[-1]]. *)
Theorem separating_connecting_getitem n x y e :
  has_length n x -> has_length n y -> e < n ->
  (In e (separating_elements x (PSV y))
   <-> (getitem x (Z.of_nat e) = Ok [1]%Z /\ getitem y (Z.of_nat e) = Ok [-1]%Z)
       \/ (getitem x (Z.of_nat e) = Ok [-1]%Z
           /\ getitem y (Z.of_nat e) = Ok [1]%Z))
  /\ (In e (connecting_elements x (PSV y))
      <-> (getitem x (Z.of_nat e) = Ok [1]%Z /\ getitem y (Z.of_nat e) = Ok [1]%Z)
          \/ (getitem x (Z.of_nat e) = Ok [-1]%Z
              /\ getitem y (Z.of_nat e) = Ok [-1]%Z)).
Proof.
  intros Hx Hy L.
  destruct (determined_capacity n x Hx) as (Cn & _ & Cp).
  destruct (determined_capacity n y Hy) as (Cn' & _ & Cp').
  destruct (determined_sign_getitem n x e Hx L) as (Xn & Xp).
  destruct (determined_sign_getitem n y e Hy L) as (Yn & Yp).
  unfold separating_elements, connecting_elements, _separating_elements,
    _connecting_elements.
  rewrite !(In_union_of_intersections n) by assumption.
  fold (determined_positive_support x) (determined_negative_support x)
    (determined_positive_support y) (determined_negative_support y).
  rewrite Xn, Xp, Yn, Yp. tauto.
Qed.

Lemma separating_connecting_getitem_witness :
  has_length 5 (packed 5 22 10 11) /\ has_length 5 (packed 5 6 0 25) /\ 4 < 5
  /\ (In 4 (separating_elements (packed 5 22 10 11) (PSV (packed 5 6 0 25)))
      <-> (getitem (packed 5 22 10 11) (Z.of_nat 4) = Ok [1]%Z
           /\ getitem (packed 5 6 0 25) (Z.of_nat 4) = Ok [-1]%Z)
          \/ (getitem (packed 5 22 10 11) (Z.of_nat 4) = Ok [-1]%Z
              /\ getitem (packed 5 6 0 25) (Z.of_nat 4) = Ok [1]%Z)).
Proof.
  assert (Hx : has_length 5 (packed 5 22 10 11)) by (repeat split; reflexivity).
  assert (Hy : has_length 5 (packed 5 6 0 25)) by (repeat split; reflexivity).
  assert (L : 4 < 5) by lia.
  do 3 (split; [assumption |]).
  apply (separating_connecting_getitem 5 _ _ 4 Hx Hy L).
Defined.

(** ** Formatting *)






(** ** Sign vectors among the partial sign vectors *)

Lemma filter_length_all {A : Type} (f : A -> bool) l :
  List.length (filter f l) = List.length l -> forall a, In a l -> f a = true.
Proof.
  induction l as [| b l IH]; simpl; [tauto |].
  pose proof (filter_length_le f l) as Le.
  destruct (f b) eqn:F; simpl; intros E a [<- | I]; auto; try lia.
Qed.

Lemma is_sign_vector_all_determined n x :
  has_length n x -> is_sign_vector x = true ->
  forall i, i < n -> determined_at x i = true.
Proof.
  intros Hx H i L. unfold is_sign_vector in H. apply Nat.eqb_eq in H.
  rewrite (determined_support_filter n x Hx) in H.
  apply (filter_length_all _ (seq 0 n)); [| apply in_seq; lia].
  rewrite length_seq, <- H. apply Hx.
Qed.

Lemma determined_at_singleton n x i :
  has_length n x -> i < n ->
  determined_at x i = true <-> exists s, getitem x (Z.of_nat i) = Ok [s].
Proof.
  intros Hx L. rewrite <- (determined_getitem n x i Hx L),
    (determined_support_filter n x Hx), filter_In, in_seq.
  split; [intros D; split; [lia | exact D] | tauto].
Qed.

(** [is_sign_vector()] holds exactly when every position admits one sign. *)
Theorem is_sign_vector_iff n x :
  has_length n x ->
  is_sign_vector x = true
  <-> forall i, i < n -> exists s, getitem x (Z.of_nat i) = Ok [s].
Proof.
  intros Hx. split.
  - intros H i L. apply (determined_at_singleton n x i Hx L).
    apply (is_sign_vector_all_determined n x Hx H i L).
  - intros H. apply (is_sign_vector_determined n x Hx). intros i L.
    apply (determined_at_singleton n x i Hx L). apply H. exact L.
Qed.

Lemma is_sign_vector_iff_witness :
  has_length 4 (packed 4 8 1 6)
  /\ from_string "0++-" = Ok (packed 4 8 1 6)
  /\ (is_sign_vector (packed 4 8 1 6) = true
      <-> forall i, i < 4 ->
            exists s, getitem (packed 4 8 1 6) (Z.of_nat i) = Ok [s]).
Proof.
  assert (Hx : has_length 4 (packed 4 8 1 6)) by (repeat split; reflexivity).
  split; [assumption |]. split; [reflexivity |].
  apply (is_sign_vector_iff 4 _ Hx).
Defined.

(** A sign vector with disjoint supports, read as a partial sign vector by
    [from_sign_vector], is a sign vector again and [to_sign_vector] gives it
    back; with overlapping supports it is not a sign vector. *)
Theorem from_sign_vector_round_trip n sv :
  Bitset.capacity (sv_positive_support sv) = n ->
  Bitset.capacity (sv_negative_support sv) = n ->
  has_length n (from_sign_vector sv)
  /\ (is_sign_vector (from_sign_vector sv) = true
      <-> forall i, i < n ->
            Bitset.testbit (sv_positive_support sv) i
            && Bitset.testbit (sv_negative_support sv) i = false)
  /\ (is_sign_vector (from_sign_vector sv) = true ->
      to_sign_vector (from_sign_vector sv) = Ok (VSignVector sv)).
Proof.
  intros Cp Cn.
  assert (H : has_length n (from_sign_vector sv)).
  { unfold has_length, from_sign_vector, sv_zero_support. simpl.
    rewrite Cp, Cn. repeat split; lia. }
  assert (D : forall i, i < n ->
              determined_at (from_sign_vector sv) i
              = negb (Bitset.testbit (sv_positive_support sv) i
                      && Bitset.testbit (sv_negative_support sv) i)).
  { intros i L. unfold determined_at, admitted, from_sign_vector, sv_zero_support.
    cbn [_negative_support _zero_support _positive_support].
    rewrite BitsetFacts.testbit_complement, BitsetFacts.testbit_union.
    simpl Bitset.capacity. rewrite Cp, Cn, Nat.max_id.
    apply Nat.ltb_lt in L. rewrite L.
    destruct (Bitset.testbit (sv_positive_support sv) i),
      (Bitset.testbit (sv_negative_support sv) i); reflexivity. }
  split; [exact H |]. split.
  - split.
    + intros S i L. unfold is_sign_vector in S. apply Nat.eqb_eq in S.
      rewrite (determined_support_filter n _ H) in S.
      assert (T : determined_at (from_sign_vector sv) i = true).
      { apply (filter_length_all _ (seq 0 n)); [| apply in_seq; lia].
        rewrite length_seq, <- S. apply H. }
      rewrite (D i L) in T. apply negb_true_iff. exact T.
    + intros S. apply (is_sign_vector_determined n _ H). intros i L.
      rewrite (D i L), (S i L). reflexivity.
  - intros S. unfold to_sign_vector. rewrite S. destruct sv. reflexivity.
Qed.

Lemma from_sign_vector_round_trip_witness :
  Bitset.capacity (Bitset.mk 6 18) = 6 /\ Bitset.capacity (Bitset.mk 6 4) = 6
  /\ is_sign_vector
       (from_sign_vector (mkSignVector (Bitset.mk 6 18) (Bitset.mk 6 4))) = true
  /\ to_string
       (from_sign_vector (mkSignVector (Bitset.mk 6 18) (Bitset.mk 6 4)))
     = Ok "0+-0+0"%string
  /\ to_sign_vector
       (from_sign_vector (mkSignVector (Bitset.mk 6 18) (Bitset.mk 6 4)))
     = Ok (VSignVector (mkSignVector (Bitset.mk 6 18) (Bitset.mk 6 4))).
Proof.
  assert (Cp : Bitset.capacity (Bitset.mk 6 18) = 6) by reflexivity.
  assert (Cn : Bitset.capacity (Bitset.mk 6 4) = 6) by reflexivity.
  assert (S : is_sign_vector
                (from_sign_vector (mkSignVector (Bitset.mk 6 18) (Bitset.mk 6 4)))
              = true) by reflexivity.
  do 3 (split; [assumption |]). split; [reflexivity |].
  destruct (from_sign_vector_round_trip 6
              (mkSignVector (Bitset.mk 6 18) (Bitset.mk 6 4)) Cp Cn)
    as (_ & _ & G).
  apply (G S).
Defined.

(** The other way round: a valid partial sign vector that is a sign vector
    is equal to [from_sign_vector] of its [to_sign_vector]. *)
Theorem to_sign_vector_round_trip n x :
  has_length n x -> valid x -> is_sign_vector x = true ->
  exists sv,
    to_sign_vector x = Ok (VSignVector sv)
    /\ __eq__ (from_sign_vector sv) (PSV x) = true.
Proof.
  intros Hx (Vn & Vz & Vp) S.
  exists (mkSignVector (_positive_support x) (_negative_support x)).
  split; [unfold to_sign_vector; rewrite S; reflexivity |].
  unfold is_sign_vector in S. apply Nat.eqb_eq in S.
  rewrite (determined_support_filter n x Hx) in S.
  assert (D : forall i, i < n -> determined_at x i = true).
  { intros i L. apply (filter_length_all _ (seq 0 n)); [| apply in_seq; lia].
    rewrite length_seq, <- S. apply Hx. }
  rewrite BitsetFacts.valid_iff in Vn, Vz, Vp.
  destruct Hx as (Cn & Cz & Cp).
  unfold __eq__, from_sign_vector, sv_zero_support.
  cbn [_negative_support _zero_support _positive_support other_negative
         other_zero other_positive sv_positive_support sv_negative_support].
  rewrite !andb_true_iff, !BitsetFacts.eqb_iff.
  repeat split; intros i; try reflexivity.
  rewrite BitsetFacts.testbit_complement, BitsetFacts.testbit_union.
  simpl Bitset.capacity. rewrite Cn, Cp, Nat.max_id.
  destruct (Nat.ltb_spec i n) as [L | L].
  - specialize (D i L). unfold determined_at, admitted in D.
    destruct (Bitset.testbit (_negative_support x) i),
      (Bitset.testbit (_zero_support x) i),
      (Bitset.testbit (_positive_support x) i); try reflexivity;
      discriminate D.
  - rewrite Vz by lia. reflexivity.
Qed.

Lemma to_sign_vector_round_trip_witness :
  has_length 4 (packed 4 8 1 6) /\ valid (packed 4 8 1 6)
  /\ is_sign_vector (packed 4 8 1 6) = true
  /\ exists sv,
      to_sign_vector (packed 4 8 1 6) = Ok (VSignVector sv)
      /\ __eq__ (from_sign_vector sv) (PSV (packed 4 8 1 6)) = true.
Proof.
  assert (Hx : has_length 4 (packed 4 8 1 6)) by (repeat split; reflexivity).
  assert (Vx : valid (packed 4 8 1 6)) by (repeat split; reflexivity).
  assert (S : is_sign_vector (packed 4 8 1 6) = true) by reflexivity.
  do 3 (split; [assumption |]).
  apply (to_sign_vector_round_trip 4 _ Hx Vx S).
Defined.

(** ** Setting and flipping signs *)

Lemma FrozenBitset_ok n indices :
  indices <> [] -> (forall i, In i indices -> i < n) ->
  exists b,
    Bitset.FrozenBitset indices = Ok b
    /\ Bitset.capacity b <= n
    /\ forall i, Bitset.testbit b i = existsb (Nat.eqb i) indices.
Proof.
  intros Ne H. destruct indices as [| j l] eqn:E; [congruence |].
  rewrite <- E in *.
  exists (Bitset.mk (Bitset.needed_capacity indices) (Bitset.of_indices indices)).
  split; [rewrite E; reflexivity |]. split.
  - simpl. unfold Bitset.needed_capacity. rewrite E. rewrite <- E.
    apply Nat.le_succ_l. apply list_max_lt; [congruence |].
    apply Forall_forall. exact H.
  - intros i. unfold Bitset.testbit. simpl.
    destruct (existsb (Nat.eqb i) indices) eqn:X.
    + apply BitsetFacts.testbit_of_indices. apply existsb_exists in X.
      destruct X as (k & I & K). apply Nat.eqb_eq in K. congruence.
    + destruct (N.testbit _ _) eqn:T; [| reflexivity].
      apply BitsetFacts.testbit_of_indices in T.
      assert (Y : existsb (Nat.eqb i) indices = true).
      { apply existsb_exists. exists i. split; [exact T | apply Nat.eqb_refl]. }
      congruence.
Qed.

(** [set_sign(indices, sign)], for a non-empty list of positions of [x],
    returns a vector of the same length whose candidate set is that of
    [sign] at the given positions, whatever it was in [x], and that of [x]
    elsewhere. *)
Theorem set_sign_getitem n x indices sign :
  has_length n x -> indices <> [] -> (forall i, In i indices -> i < n) ->
  exists y,
    set_sign x indices sign = Ok y
    /\ has_length n y
    /\ forall i, i < n ->
         getitem y (Z.of_nat i)
         = if existsb (Nat.eqb i) indices
           then Ok (flags_signs (sign_flags sign))
           else getitem x (Z.of_nat i).
Proof.
  intros Hx Ne H.
  destruct (FrozenBitset_ok n indices Ne H) as (b & F & Cb & T).
  unfold set_sign. rewrite F. cbn [bind].
  pose proof Hx as (Cn & Cz & Cp).
  assert (G : forall (f : bool) (a : Bitset.t), Bitset.capacity a = n ->
              Bitset.capacity (if f then a :|: b else a :\: b) = n
              /\ forall i, Bitset.testbit (if f then a :|: b else a :\: b) i
                           = if existsb (Nat.eqb i) indices then f
                             else Bitset.testbit a i).
  { intros f a Ca. destruct f; simpl Bitset.capacity; rewrite Ca;
      (split; [lia |]); intros i;
      rewrite ?BitsetFacts.testbit_union, ?BitsetFacts.testbit_difference, T;
      destruct (existsb (Nat.eqb i) indices), (Bitset.testbit a i);
      reflexivity. }
  set (fl := sign_flags sign).
  assert (E : exists y,
             (match sign with
              | SignStr c =>
                  Ok (mkPartialSignVector
                        (if str_in c ["-"; "n"; "/"; "*"]%string
                         then _negative_support x :|: b
                         else _negative_support x :\: b)
                        (if str_in c ["0"; "n"; "p"; "*"]%string
                         then _zero_support x :|: b else _zero_support x :\: b)
                        (if str_in c ["+"; "p"; "/"; "*"]%string
                         then _positive_support x :|: b
                         else _positive_support x :\: b))
              | SignList l =>
                  Ok (mkPartialSignVector
                        (if int_in (-1) l then _negative_support x :|: b
                         else _negative_support x :\: b)
                        (if int_in 0 l then _zero_support x :|: b
                         else _zero_support x :\: b)
                        (if int_in 1 l then _positive_support x :|: b
                         else _positive_support x :\: b))
              end) = Ok y
             /\ y = mkPartialSignVector
                      (if fst (fst fl) then _negative_support x :|: b
                       else _negative_support x :\: b)
                      (if snd (fst fl) then _zero_support x :|: b
                       else _zero_support x :\: b)
                      (if snd fl then _positive_support x :|: b
                       else _positive_support x :\: b)).
  { destruct sign; eexists; split; reflexivity. }
  destruct E as (y & Ey & Dy). exists y. split; [exact Ey |].
  destruct (G (fst (fst fl)) _ Cn) as [Kn Tn].
  destruct (G (snd (fst fl)) _ Cz) as [Kz Tz].
  destruct (G (snd fl) _ Cp) as [Kp Tp].
  assert (Hy : has_length n y) by (subst y; repeat split; assumption).
  split; [exact Hy |]. intros i L.
  rewrite (getitem_nat y i) by (unfold length; rewrite (proj1 Hy); lia).
  rewrite (getitem_nat x i) by (unfold length; rewrite Cn; lia).
  rewrite (signs_at_admitted n y i Hy L), (signs_at_admitted n x i Hx L).
  unfold admitted. subst y.
  cbn [_negative_support _zero_support _positive_support].
  rewrite Tn, Tz, Tp.
  destruct (existsb (Nat.eqb i) indices); [| reflexivity].
  unfold flags_signs. destruct fl as [[f1 f2] f3]. reflexivity.
Qed.

Lemma set_sign_getitem_witness :
  has_length 5 (packed 5 1 8 22) /\ [0; 2; 3] <> []
  /\ (forall i, In i [0; 2; 3] -> i < 5)
  /\ from_string "-++0+" = Ok (packed 5 1 8 22)
  /\ exists y,
      set_sign (packed 5 1 8 22) [0; 2; 3] (SignStr "n") = Ok y
      /\ to_string y = Ok "n+nn+"%string
      /\ getitem y (Z.of_nat 2) = Ok [-1; 0]%Z.
Proof.
  assert (Hx : has_length 5 (packed 5 1 8 22)) by (repeat split; reflexivity).
  assert (Ne : [0; 2; 3] <> []) by discriminate.
  assert (R : forall i, In i [0; 2; 3] -> i < 5) by (simpl; intros i; lia).
  do 3 (split; [assumption |]). split; [reflexivity |].
  destruct (set_sign_getitem 5 _ [0; 2; 3] (SignStr "n") Hx Ne R)
    as (y & E & _ & G).
  exists y. split; [exact E |]. split.
  - vm_compute in E. inversion E. reflexivity.
  - apply (G 2). lia.
Defined.

(** A string [sign] stands for the list of signs of its symbol; a string
    that is none of the seven symbols stands for the empty list, which
    leaves the positions without any admissible sign. *)
Theorem set_sign_codes x indices :
  set_sign x indices (SignStr "-") = set_sign x indices (SignList [-1]%Z)
  /\ set_sign x indices (SignStr "0") = set_sign x indices (SignList [0]%Z)
  /\ set_sign x indices (SignStr "+") = set_sign x indices (SignList [1]%Z)
  /\ set_sign x indices (SignStr "n") = set_sign x indices (SignList [-1; 0]%Z)
  /\ set_sign x indices (SignStr "p") = set_sign x indices (SignList [0; 1]%Z)
  /\ set_sign x indices (SignStr "/") = set_sign x indices (SignList [-1; 1]%Z)
  /\ set_sign x indices (SignStr "*")
     = set_sign x indices (SignList [-1; 0; 1]%Z)
  /\ forall c,
      str_in c ["-"; "0"; "+"; "n"; "p"; "/"; "*"]%string = false ->
      set_sign x indices (SignStr c) = set_sign x indices (SignList []).
Proof.
  repeat split; try reflexivity.
  intros c H. unfold str_in in H. cbn [existsb] in H.
  rewrite !orb_false_iff in H.
  destruct H as (H1 & H2 & H3 & H4 & H5 & H6 & H7 & _).
  unfold set_sign, str_in, int_in. cbn [existsb].
  rewrite H1, H2, H3, H4, H5, H6, H7. reflexivity.
Qed.

Lemma set_sign_codes_witness :
  str_in "x" ["-"; "0"; "+"; "n"; "p"; "/"; "*"]%string = false
  /\ set_sign (packed 5 1 8 22) [0] (SignStr "x")
     = set_sign (packed 5 1 8 22) [0] (SignList []).
Proof.
  assert (H : str_in "x" ["-"; "0"; "+"; "n"; "p"; "/"; "*"]%string = false)
    by reflexivity.
  split; [assumption |].
  destruct (set_sign_codes (packed 5 1 8 22) [0]) as (_ & _ & _ & _ & _ & _ & _ & G).
  apply (G _ H).
Defined.

(** [flip_signs(indices)], for a non-empty list of positions of [x], keeps
    the length and the candidate sets outside [indices]; at a position of
    [indices] that does not admit both [-] and [+], the signs are
    multiplied by [-1]. *)
Theorem flip_signs_getitem n x indices :
  has_length n x -> indices <> [] -> (forall i, In i indices -> i < n) ->
  exists y,
    flip_signs x indices = Ok y
    /\ has_length n y
    /\ forall i, i < n ->
         (existsb (Nat.eqb i) indices = false ->
          getitem y (Z.of_nat i) = getitem x (Z.of_nat i))
         /\ (existsb (Nat.eqb i) indices = true ->
             Bitset.contains (_negative_support x) i
             && Bitset.contains (_positive_support x) i = false ->
             getitem y (Z.of_nat i)
             = (l <- getitem x (Z.of_nat i) ;; Ok (rev (map Z.opp l)))).
Proof.
  intros Hx Ne H.
  destruct (FrozenBitset_ok n indices Ne H) as (b & F & Cb & T).
  unfold flip_signs. rewrite F. cbn [bind].
  pose proof Hx as (Cn & Cz & Cp).
  set (y := mkPartialSignVector _ _ _). exists y.
  assert (Hy : has_length n y).
  { unfold y, has_length. simpl. rewrite Cn, Cz, Cp. repeat split; lia. }
  split; [reflexivity |]. split; [exact Hy |]. intros i L.
  rewrite (getitem_nat y i) by (unfold length; rewrite (proj1 Hy); lia).
  rewrite (getitem_nat x i) by (unfold length; rewrite Cn; lia).
  rewrite (signs_at_admitted n y i Hy L), (signs_at_admitted n x i Hx L).
  rewrite !contains_testbit by lia.
  unfold admitted, y. cbn [_negative_support _zero_support _positive_support bind].
  rewrite !BitsetFacts.testbit_symmetric_difference,
    !BitsetFacts.testbit_intersection, !BitsetFacts.testbit_union, T.
  split; intros X; rewrite X.
  - destruct (Bitset.testbit (_negative_support x) i),
      (Bitset.testbit (_zero_support x) i),
      (Bitset.testbit (_positive_support x) i); reflexivity.
  - destruct (Bitset.testbit (_negative_support x) i),
      (Bitset.testbit (_zero_support x) i),
      (Bitset.testbit (_positive_support x) i); simpl;
      intros D; try reflexivity; discriminate D.
Qed.

Lemma flip_signs_getitem_witness :
  has_length 5 (packed 5 1 12 22) /\ [0; 2; 3] <> []
  /\ (forall i, In i [0; 2; 3] -> i < 5)
  /\ from_string "-+p0+" = Ok (packed 5 1 12 22)
  /\ exists y,
      flip_signs (packed 5 1 12 22) [0; 2; 3] = Ok y
      /\ to_string y = Ok "++n0+"%string
      /\ getitem y (Z.of_nat 1) = getitem (packed 5 1 12 22) (Z.of_nat 1).
Proof.
  assert (Hx : has_length 5 (packed 5 1 12 22)) by (repeat split; reflexivity).
  assert (Ne : [0; 2; 3] <> []) by discriminate.
  assert (R : forall i, In i [0; 2; 3] -> i < 5) by (simpl; intros i; lia).
  do 3 (split; [assumption |]). split; [reflexivity |].
  destruct (flip_signs_getitem 5 _ [0; 2; 3] Hx Ne R) as (y & E & _ & G).
  exists y. split; [exact E |]. split.
  - vm_compute in E. inversion E. reflexivity.
  - apply (G 1); [lia | reflexivity].
Defined.

Lemma flip_signs_involutive_disjoint_witness :
  [0; 2; 3] <> []
  /\ (forall i, In i [0; 2; 3] ->
        Bitset.testbit (_negative_support (packed 5 1 12 22)) i
        && Bitset.testbit (_positive_support (packed 5 1 12 22)) i = false)
  /\ (y <- flip_signs (packed 5 1 12 22) [0; 2; 3] ;;
      z <- flip_signs y [0; 2; 3] ;;
      Ok (__eq__ z (PSV (packed 5 1 12 22)))) = Ok true.
Proof.
  assert (Ne : [0; 2; 3] <> []) by discriminate.
  assert (D : forall i, In i [0; 2; 3] ->
                Bitset.testbit (_negative_support (packed 5 1 12 22)) i
                && Bitset.testbit (_positive_support (packed 5 1 12 22)) i
                = false).
  { simpl. intros i [<- | [<- | [<- | []]]]; reflexivity. }
  do 2 (split; [assumption |]).
  apply (flip_signs_involutive_disjoint _ _ Ne D).
Defined.

(** ** The comparison operators *)

Lemma eq_sym x y : __eq__ x (PSV y) = __eq__ y (PSV x).
Proof.
  unfold __eq__, Bitset.eqb. simpl.
  rewrite (N.eqb_sym (Bitset.bits (_negative_support x))),
    (N.eqb_sym (Bitset.bits (_positive_support x))),
    (N.eqb_sym (Bitset.bits (_zero_support x))). reflexivity.
Qed.

Lemma issubset_antisym_eq x y :
  issubset x y = true -> issubset y x = true -> __eq__ x (PSV y) = true.
Proof.
  unfold issubset, __eq__. simpl. rewrite !andb_true_iff.
  intros [[P N0] Z0] [[P' N'] Z'].
  rewrite <- !issubset_antisym, P, P', N0, N', Z0, Z'. auto.
Qed.

Lemma eq_issubset x y : __eq__ x (PSV y) = true -> issubset y x = true.
Proof.
  unfold issubset, __eq__. simpl.
  rewrite !andb_true_iff, <- !issubset_antisym, !andb_true_iff. tauto.
Qed.

Lemma issubset_psv_trans x y z :
  issubset x y = true -> issubset y z = true -> issubset x z = true.
Proof.
  unfold issubset. rewrite !andb_true_iff.
  intros [[P N0] Z0] [[P' N'] Z'].
  rewrite (issubset_trans _ _ _ P P'), (issubset_trans _ _ _ N0 N'),
    (issubset_trans _ _ _ Z0 Z'). auto.
Qed.

(** [<] is a strict partial order on the partial sign vectors: irreflexive,
    asymmetric and transitive; [x <= y] holds exactly when [x < y] or
    [x == y]; and [>=], [>] are [<=], [<] with the operands exchanged. *)
Theorem lt_strict_order x y z :
  __lt__ x (OPartial x) = false
  /\ (__lt__ x (OPartial y) = true -> __lt__ y (OPartial x) = false)
  /\ (__lt__ x (OPartial y) = true -> __lt__ y (OPartial z) = true ->
      __lt__ x (OPartial z) = true)
  /\ (__le__ x (OPartial y) = true
      <-> __lt__ x (OPartial y) = true \/ __eq__ x (PSV y) = true)
  /\ __ge__ x (OPartial y) = Ok (__le__ y (OPartial x))
  /\ __gt__ x (OPartial y) = Ok (__lt__ y (OPartial x)).
Proof.
  unfold __lt__, __gt__, __ge__, __le__, eq_operand.
  split; [| split; [| split; [| split; [| split]]]].
  - assert (E : __eq__ x (PSV x) = true)
      by (apply issubset_antisym_eq; unfold issubset;
          rewrite !issubset_refl; reflexivity).
    rewrite E. reflexivity.
  - rewrite andb_true_iff, negb_true_iff. intros [N L].
    destruct (issubset y x) eqn:S; [| apply andb_false_r].
    rewrite (issubset_antisym_eq x y L S) in N. discriminate N.
  - rewrite !andb_true_iff, !negb_true_iff. intros [N L] [N' L'].
    split; [| apply (issubset_psv_trans x y z L L')].
    destruct (__eq__ x (PSV z)) eqn:E; [| reflexivity].
    apply eq_issubset in E.
    rewrite (issubset_antisym_eq x y L (issubset_psv_trans y z x L' E)) in N.
    discriminate N.
  - rewrite andb_true_iff, negb_true_iff. split.
    + intros L. destruct (__eq__ x (PSV y)); auto.
    + intros [[_ L] | E]; [exact L |].
      rewrite eq_sym in E. apply eq_issubset in E. exact E.
  - reflexivity.
  - rewrite (eq_sym x y). destruct (__eq__ y (PSV x)); reflexivity.
Qed.

Lemma lt_strict_order_witness :
  from_string "-+00+" = Ok (packed 5 1 12 18)
  /\ from_string "-p**+" = Ok (packed 5 13 14 30)
  /\ __lt__ (packed 5 1 12 18) (OPartial (packed 5 13 14 30)) = true
  /\ __lt__ (packed 5 13 14 30) (OPartial (packed 5 1 12 18)) = false.
Proof.
  assert (L : __lt__ (packed 5 1 12 18) (OPartial (packed 5 13 14 30)) = true)
    by reflexivity.
  do 2 (split; [reflexivity |]). split; [assumption |].
  destruct (lt_strict_order (packed 5 1 12 18) (packed 5 13 14 30)
              (packed 5 13 14 30)) as (_ & A & _).
  apply (A L).
Defined.

Lemma bool_eq_iff (a b : bool) : (a = true <-> b = true) -> a = b.
Proof. destruct a, b; intuition. Qed.

Lemma len_zero_iff a :
  Bitset.valid a ->
  (Bitset.len a =? 0) = true <-> forall i, Bitset.testbit a i = false.
Proof.
  intros V. rewrite Nat.eqb_eq, <- BitsetFacts.isempty_iff, <- (to_list_nil a V).
  unfold Bitset.len. split; [apply length_zero_iff_nil | intros ->; reflexivity].
Qed.

(** Comparing a valid vector of length [n] with the integer 0 compares it
    with [zero(n)] in the subset order: [x <= 0] is [x.issubset(zero(n))]
    and [x >= 0] is [zero(n).issubset(x)]; on a well-formed vector,
    [x == 0] is [x == zero(n)] and [bool(x)] its negation. *)
Theorem compare_with_zero n x :
  0 < n -> has_length n x -> valid x ->
  exists z,
    zero n = Ok z
    /\ __le__ x (OInt 0) = issubset x z
    /\ __ge__ x (OInt 0) = Ok (issubset z x)
    /\ (well_formed x ->
        eq_operand x (OInt 0) = __eq__ x (PSV z)
        /\ __bool__ x = negb (__eq__ x (PSV z))).
Proof.
  intros L Hx Vx. pose proof Hx as (Cn & Cz & Cp).
  pose proof Vx as (Vn & Vz & Vp).
  set (z := packed n 0 (N.ones (N.of_nat n)) 0). exists z.
  split; [apply zero_ok; exact L |].
  assert (Vu : Bitset.valid (_positive_support x :|: _negative_support x))
    by (apply valid_union; assumption).
  assert (E0 : eq_operand x (OInt 0) = true
               <-> forall i, Bitset.testbit (_positive_support x) i = false
                             /\ Bitset.testbit (_negative_support x) i = false).
  { unfold eq_operand. simpl. rewrite (len_zero_iff _ Vu).
    split; intros H i; specialize (H i);
      rewrite BitsetFacts.testbit_union in *.
    - apply orb_false_iff. exact H.
    - apply orb_false_iff. exact H. }
  rewrite BitsetFacts.valid_iff in Vn, Vz, Vp.
  assert (Le : __le__ x (OInt 0) = issubset x z).
  { apply bool_eq_iff. unfold __le__. simpl (0 =? 0)%Z. cbv iota. rewrite E0.
    unfold issubset, z, packed.
    cbn [_negative_support _zero_support _positive_support].
    rewrite !andb_true_iff, !BitsetFacts.issubset_iff. split.
    - intros H. repeat split; intros i T; rewrite ?testbit_ones.
      + rewrite (proj1 (H i)) in T. discriminate T.
      + rewrite (proj2 (H i)) in T. discriminate T.
      + apply Nat.ltb_lt. destruct (Nat.lt_ge_cases i n) as [Li | Li];
          [exact Li |]. rewrite Vz in T by lia. discriminate T.
    - intros [[P N0] _] i. specialize (P i). specialize (N0 i).
      rewrite testbit_empty in P, N0.
      split; [destruct (Bitset.testbit (_positive_support x) i)
             | destruct (Bitset.testbit (_negative_support x) i)];
        auto; symmetry; auto. }
  split; [exact Le |]. split.
  { unfold __ge__. simpl (0 =? 0)%Z. cbv iota.
    rewrite (mapM_Ok _ (signs_at x)).
    - cbn [bind]. f_equal. apply bool_eq_iff.
      rewrite forallb_forall. unfold issubset, z, packed.
      cbn [_negative_support _zero_support _positive_support].
      rewrite !andb_true_iff, !BitsetFacts.issubset_iff. split.
      + intros H. repeat split; intros i T;
          rewrite ?testbit_empty, ?testbit_ones in T; try discriminate T.
        apply Nat.ltb_lt in T.
        specialize (H (signs_at x i)
                      ltac:(apply in_map; apply in_seq; unfold length; lia)).
        rewrite (signs_at_admitted n x i Hx T) in H. unfold admitted in H.
        destruct (Bitset.testbit (_negative_support x) i),
          (Bitset.testbit (_zero_support x) i),
          (Bitset.testbit (_positive_support x) i);
          try reflexivity; discriminate H.
      + intros [_ Z0] l I. apply in_map_iff in I. destruct I as (i & <- & I).
        apply in_seq in I. unfold length in I. rewrite Cn in I.
        assert (Li : i < n) by lia.
        specialize (Z0 i). rewrite testbit_ones in Z0.
        apply Nat.ltb_lt in Li. specialize (Z0 Li). apply Nat.ltb_lt in Li.
        rewrite (signs_at_admitted n x i Hx Li). unfold admitted. rewrite Z0.
        destruct (Bitset.testbit (_negative_support x) i),
          (Bitset.testbit (_positive_support x) i); reflexivity.
    - intros i I. apply in_seq in I. apply getitem_nat. lia. }
  intros W.
  assert (Eq : eq_operand x (OInt 0) = __eq__ x (PSV z)).
  { apply bool_eq_iff. rewrite E0. split.
    - intros H. apply issubset_antisym_eq.
      + rewrite <- Le. unfold __le__. simpl (0 =? 0)%Z. cbv iota.
        apply E0. exact H.
      + unfold issubset, z, packed.
        cbn [_negative_support _zero_support _positive_support].
        rewrite !andb_true_iff, !BitsetFacts.issubset_iff.
        repeat split; intros i T;
          rewrite ?testbit_empty, ?testbit_ones in T; try discriminate T.
        apply Nat.ltb_lt in T. rewrite well_formed_iff in W.
        specialize (W i ltac:(unfold length; lia)). unfold admits_some in W.
        rewrite !contains_testbit in W by lia.
        rewrite (proj1 (H i)), (proj2 (H i)) in W.
        destruct (Bitset.testbit (_zero_support x) i);
          [reflexivity | discriminate W].
    - intros H. rewrite eq_sym in H. apply eq_issubset in H.
      rewrite <- Le in H. unfold __le__ in H.
      simpl (0 =? 0)%Z in H. cbv iota in H. apply E0. exact H. }
  split; [exact Eq |]. unfold __bool__. rewrite Eq. reflexivity.
Qed.

Lemma compare_with_zero_witness :
  0 < 4 /\ has_length 4 (packed 4 12 15 0) /\ valid (packed 4 12 15 0)
  /\ from_string "00nn" = Ok (packed 4 12 15 0)
  /\ exists z,
      zero 4 = Ok z
      /\ __ge__ (packed 4 12 15 0) (OInt 0) = Ok (issubset z (packed 4 12 15 0))
      /\ __ge__ (packed 4 12 15 0) (OInt 0) = Ok true.
Proof.
  assert (L : 0 < 4) by lia.
  assert (Hx : has_length 4 (packed 4 12 15 0)) by (repeat split; reflexivity).
  assert (Vx : valid (packed 4 12 15 0)) by (repeat split; reflexivity).
  do 3 (split; [assumption |]). split; [reflexivity |].
  destruct (compare_with_zero 4 _ L Hx Vx) as (z & Z & _ & G & _).
  exists z. split; [exact Z |]. split; [exact G | reflexivity].
Defined.

(** ** Construction from candidate lists *)

Lemma from_iterable_fold l : forall a b c k,
  fold_left
    (fun '(negative_support, zero_support, positive_support, length) s =>
       (if int_in (-1) s then negative_support ++ [length] else negative_support,
        if int_in 0 s then zero_support ++ [length] else zero_support,
        if int_in 1 s then positive_support ++ [length] else positive_support,
        S length))
    l (a, b, c, k)
  = (a ++ positions_of (-1) k l, b ++ positions_of 0 k l,
     c ++ positions_of 1 k l, k + List.length l).
Proof.
  induction l as [| s l IH]; intros a b c k; cbn [fold_left positions_of List.length].
  - rewrite !app_nil_r, Nat.add_0_r. reflexivity.
  - rewrite IH. rewrite Nat.add_succ_r.
    destruct (int_in (-1) s), (int_in 0 s), (int_in 1 s);
      rewrite <- ?app_assoc; reflexivity.
Qed.

Lemma In_positions_of c l : forall k i,
  In i (positions_of c k l)
  <-> k <= i /\ exists s, nth_error l (i - k) = Some s /\ int_in c s = true.
Proof.
  induction l as [| s l IH]; intros k i; cbn [positions_of].
  - split; [intros [] |]. intros (_ & s & E & _). destruct (i - k); discriminate E.
  - rewrite in_app_iff, IH. split.
    + intros [I | (L & t & E & C)].
      * destruct (int_in c s) eqn:C; [| destruct I].
        destruct I as [<- | []]. split; [lia |]. exists s.
        rewrite Nat.sub_diag. auto.
      * split; [lia |]. exists t.
        replace (i - k) with (S (i - S k)) by lia. auto.
    + intros (L & t & E & C). destruct (i - k) as [| m] eqn:M.
      * left. simpl in E. inversion E; subst t. rewrite C. left. lia.
      * right. split; [lia |]. exists t.
        replace (i - S k) with m by lia. auto.
Qed.

Lemma testbit_positions_of c l i :
  N.testbit (Bitset.of_indices (positions_of c 0 l)) (N.of_nat i)
  = match nth_error l i with
    | Some s => int_in c s
    | None => false
    end.
Proof.
  apply bool_eq_iff. rewrite BitsetFacts.testbit_of_indices, In_positions_of.
  rewrite Nat.sub_0_r.
  destruct (nth_error l i) as [s |]; split.
  - intros (_ & t & E & C). congruence.
  - intros C. split; [lia |]. eauto.
  - intros (_ & t & E & _). discriminate E.
  - discriminate.
Qed.

Lemma from_iterable_ok l :
  l <> [] -> from_iterable l = Ok (items_vector l).
Proof.
  intros Ne. unfold from_iterable. rewrite from_iterable_fold. simpl app.
  simpl Nat.add. unfold from_support.
  assert (L : 0 < List.length l) by (destruct l; simpl; [congruence | lia]).
  assert (R : forall c i, In i (positions_of c 0 l) -> i < List.length l).
  { intros c i I. apply In_positions_of in I. destruct I as (_ & s & E & _).
    apply nth_error_Some. rewrite Nat.sub_0_r in E. congruence. }
  rewrite !FrozenBitset_capacity_ok by (try assumption; apply R).
  reflexivity.
Qed.

Lemma items_vector_length l : has_length (List.length l) (items_vector l).
Proof. repeat split; reflexivity. Qed.

Lemma items_vector_getitem l i s :
  nth_error l i = Some s ->
  getitem (items_vector l) (Z.of_nat i)
  = Ok (flags_signs (int_in (-1) s, int_in 0 s, int_in 1 s)).
Proof.
  intros E. pose proof (items_vector_length l) as Hy.
  assert (L : i < List.length l) by (apply nth_error_Some; congruence).
  rewrite (getitem_nat _ i) by (unfold length; rewrite (proj1 Hy); lia).
  rewrite (signs_at_admitted _ _ i Hy L).
  unfold admitted, items_vector, Bitset.testbit.
  cbn [_negative_support _zero_support _positive_support Bitset.bits].
  rewrite !testbit_positions_of, E. reflexivity.
Qed.

(** [from_iterable] of a non-empty list [l] returns a vector as long as
    [l] whose candidate set at position [i] holds the signs -1, 0, 1 that
    the element [l[i]] contains. *)
Theorem from_iterable_getitem l :
  l <> [] ->
  exists y,
    from_iterable l = Ok y
    /\ has_length (List.length l) y
    /\ forall i s, nth_error l i = Some s ->
         getitem y (Z.of_nat i)
         = Ok (flags_signs (int_in (-1) s, int_in 0 s, int_in 1 s)).
Proof.
  intros Ne. exists (items_vector l).
  split; [apply from_iterable_ok; exact Ne |].
  split; [apply items_vector_length |].
  intros i s E. apply items_vector_getitem. exact E.
Qed.

Lemma from_iterable_getitem_witness :
  [[-1; 0; 1]; [0]; [-1]; [0; 1]]%Z <> []
  /\ exists y,
      from_iterable [[-1; 0; 1]; [0]; [-1]; [0; 1]]%Z = Ok y
      /\ to_string y = Ok "*0-p"%string
      /\ getitem y (Z.of_nat 3) = Ok [0; 1]%Z.
Proof.
  assert (Ne : [[-1; 0; 1]; [0]; [-1]; [0; 1]]%Z <> []) by discriminate.
  split; [assumption |].
  destruct (from_iterable_getitem _ Ne) as (y & E & _ & G).
  exists y. split; [exact E |]. split.
  - vm_compute in E. inversion E. reflexivity.
  - apply (G 3 [0; 1]%Z). reflexivity.
Defined.

Lemma list_from_positions_range x n ps :
  length x = n -> (forall i, In i ps -> i < n) ->
  list_from_positions x (map Z.of_nat ps) = Ok (map (signs_at x) ps).
Proof.
  intros Lx H. unfold list_from_positions.
  rewrite (mapM_Ok _ (fun z => signs_at x (Z.to_nat z))).
  - rewrite map_map. f_equal. apply map_ext. intros i. rewrite Nat2Z.id.
    reflexivity.
  - intros z I. apply in_map_iff in I. destruct I as (i & <- & I).
    rewrite Nat2Z.id. apply getitem_nat. rewrite Lx. apply H. exact I.
Qed.

Lemma int_in_signs_at n x i :
  has_length n x -> i < n ->
  (int_in (-1) (signs_at x i), int_in 0 (signs_at x i), int_in 1 (signs_at x i))
  = admitted x i.
Proof.
  intros Hx L. rewrite (signs_at_admitted n x i Hx L). unfold admitted.
  destruct (Bitset.testbit (_negative_support x) i),
    (Bitset.testbit (_zero_support x) i),
    (Bitset.testbit (_positive_support x) i); reflexivity.
Qed.

(** Round trip through candidate lists: [from_iterable] of the list of all
    [x[i]] is equal to [x], for a valid vector of positive length. *)
Theorem from_iterable_round_trip n x :
  0 < n -> has_length n x -> valid x ->
  (items <- list_from_positions x (map Z.of_nat (seq 0 n)) ;;
   y <- from_iterable items ;;
   Ok (__eq__ y (PSV x))) = Ok true.
Proof.
  intros L Hx (Vn & Vz & Vp). pose proof Hx as (Cn & Cz & Cp).
  rewrite (list_from_positions_range x n)
    by (try exact Cn; intros i I; apply in_seq in I; lia).
  cbn [bind].
  assert (Ne : map (signs_at x) (seq 0 n) <> []).
  { destruct n; [lia | discriminate]. }
  rewrite (from_iterable_ok _ Ne). cbn [bind]. f_equal. unfold items_vector.
  rewrite BitsetFacts.valid_iff in Vn, Vz, Vp.
  assert (T : forall c i,
             N.testbit
               (Bitset.of_indices (positions_of c 0 (map (signs_at x) (seq 0 n))))
               (N.of_nat i)
             = (i <? n) && int_in c (signs_at x i)).
  { intros c i. rewrite testbit_positions_of, nth_error_map.
    destruct (Nat.ltb_spec i n) as [Li | Li].
    - rewrite (nth_error_nth' _ 0) by (rewrite length_seq; lia).
      rewrite seq_nth by lia. reflexivity.
    - rewrite (proj2 (nth_error_None _ _)) by (rewrite length_seq; lia).
      reflexivity. }
  unfold __eq__. cbn [other_negative other_zero other_positive
                        _negative_support _zero_support _positive_support].
  rewrite !andb_true_iff, !BitsetFacts.eqb_iff.
  unfold Bitset.testbit at 1 3 5. cbn [Bitset.bits].
  repeat split; intros i; rewrite T;
    (destruct (Nat.ltb_spec i n) as [Li | Li];
     [ pose proof (int_in_signs_at n x i Hx Li) as A; unfold admitted in A;
       inversion A; reflexivity
     | rewrite ?Vn, ?Vz, ?Vp by lia; reflexivity ]).
Qed.

Lemma from_iterable_round_trip_witness :
  0 < 5 /\ has_length 5 (packed 5 9 30 4) /\ valid (packed 5 9 30 4)
  /\ (items <- list_from_positions (packed 5 9 30 4) (map Z.of_nat (seq 0 5)) ;;
      y <- from_iterable items ;;
      Ok (__eq__ y (PSV (packed 5 9 30 4)))) = Ok true.
Proof.
  assert (L : 0 < 5) by lia.
  assert (Hx : has_length 5 (packed 5 9 30 4)) by (repeat split; reflexivity).
  assert (Vx : valid (packed 5 9 30 4)) by (repeat split; reflexivity).
  do 3 (split; [assumption |]).
  apply (from_iterable_round_trip 5 _ L Hx Vx).
Defined.

(** ** Deleting components *)

Lemma complement_to_list n indices :
  Bitset.to_list (Bitset.complement (Bitset.mk n (Bitset.of_indices indices)))
  = kept_positions n indices.
Proof.
  unfold Bitset.to_list, kept_positions. simpl Bitset.capacity.
  apply filter_ext_in. intros i I. apply in_seq in I.
  rewrite BitsetFacts.testbit_complement. simpl Bitset.capacity.
  assert (L : (i <? n) = true) by (apply Nat.ltb_lt; lia). rewrite L. simpl.
  f_equal. apply bool_eq_iff. unfold Bitset.testbit. simpl.
  rewrite BitsetFacts.testbit_of_indices, existsb_exists. split.
  - intros H. exists i. split; [exact H | apply Nat.eqb_refl].
  - intros (k & H & E). apply Nat.eqb_eq in E. congruence.
Qed.

(** [delete_components(indices)], for positions of [x] that leave at least
    one position, returns the vector of the kept positions, in their
    order: its [j]-th candidate set is [x[i]] for the [j]-th kept position
    [i]. *)
Theorem delete_components_getitem n x indices :
  0 < n -> has_length n x -> (forall i, In i indices -> i < n) ->
  kept_positions n indices <> [] ->
  exists y,
    delete_components x indices = Ok y
    /\ has_length (List.length (kept_positions n indices)) y
    /\ forall j i, nth_error (kept_positions n indices) j = Some i ->
         getitem y (Z.of_nat j) = getitem x (Z.of_nat i).
Proof.
  intros L Hx R Ne. pose proof Hx as (Cn & Cz & Cp).
  assert (K : forall i, In i (kept_positions n indices) -> i < n).
  { intros i I. apply filter_In in I. destruct I as [I _].
    apply in_seq in I. lia. }
  assert (Ne' : map (signs_at x) (kept_positions n indices) <> []).
  { destruct (kept_positions n indices); [congruence | discriminate]. }
  pose proof (from_iterable_ok _ Ne') as E.
  pose proof (items_vector_length (map (signs_at x) (kept_positions n indices)))
    as Hy.
  pose proof (items_vector_getitem (map (signs_at x) (kept_positions n indices)))
    as G.
  exists (items_vector (map (signs_at x) (kept_positions n indices))).
  rewrite length_map in Hy. split; [| split; [exact Hy |]].
  - unfold delete_components, length. rewrite Cn.
    rewrite (FrozenBitset_capacity_ok indices n L R). cbn [bind].
    rewrite complement_to_list.
    rewrite (mapM_Ok _ (signs_at x)).
    + cbn [bind]. exact E.
    + intros i I. apply getitem_nat. unfold length. rewrite Cn. apply K.
      exact I.
  - intros j i Ej.
    assert (Li : i < n) by (apply K; eapply nth_error_In; exact Ej).
    rewrite (G j (signs_at x i)) by (rewrite nth_error_map, Ej; reflexivity).
    rewrite (getitem_nat x i) by (unfold length; rewrite Cn; exact Li).
    rewrite (int_in_signs_at n x i Hx Li).
    rewrite (signs_at_admitted n x i Hx Li). unfold flags_signs.
    destruct (admitted x i) as [[a b] c]. reflexivity.
Qed.

Lemma delete_components_getitem_witness :
  0 < 5 /\ has_length 5 (packed 5 18 14 11)
  /\ (forall i, In i [1; 3] -> i < 5)
  /\ kept_positions 5 [1; 3] <> []
  /\ from_string "+*0p-" = Ok (packed 5 18 14 11)
  /\ exists y,
      delete_components (packed 5 18 14 11) [1; 3] = Ok y
      /\ to_string y = Ok "+0-"%string
      /\ getitem y (Z.of_nat 2) = getitem (packed 5 18 14 11) (Z.of_nat 4).
Proof.
  assert (L : 0 < 5) by lia.
  assert (Hx : has_length 5 (packed 5 18 14 11)) by (repeat split; reflexivity).
  assert (R : forall i, In i [1; 3] -> i < 5) by (simpl; intros i; lia).
  assert (Ne : kept_positions 5 [1; 3] <> []) by (vm_compute; discriminate).
  do 4 (split; [assumption |]). split; [reflexivity |].
  destruct (delete_components_getitem 5 _ [1; 3] L Hx R Ne) as (y & E & _ & G).
  exists y. split; [exact E |]. split.
  - vm_compute in E. inversion E. reflexivity.
  - apply (G 2 4). reflexivity.
Defined.

(** ** Unpacking at chosen positions *)

Lemma In_fold_set_add {A : Type} (eqb : A -> A -> bool) l : forall temp v,
  In v (fold_left (set_add eqb) l temp) -> In v temp \/ In v l.
Proof.
  induction l as [| a l IH]; intros temp v; simpl; [auto |].
  intros I. apply IH in I. destruct I as [I | I]; [| auto].
  unfold set_add in I. destruct (existsb (eqb a) temp); [auto |].
  apply in_app_iff in I. destruct I as [I | [<- | []]]; auto.
Qed.

Lemma issubset_admitted y x :
  issubset y x = true
  <-> forall i,
        (fst (fst (admitted y i)) = true -> fst (fst (admitted x i)) = true)
        /\ (snd (fst (admitted y i)) = true -> snd (fst (admitted x i)) = true)
        /\ (snd (admitted y i) = true -> snd (admitted x i) = true).
Proof.
  unfold issubset, admitted. simpl.
  rewrite !andb_true_iff, !BitsetFacts.issubset_iff. split.
  - intros [[P N0] Z0] i. auto.
  - intros H. repeat split; intros i; apply (H i).
Qed.

Lemma set_at_issubset n psv e s :
  has_length n psv -> e < n -> In s (signs_at psv e) ->
  issubset (set_at psv e s) psv = true.
Proof.
  intros Hp L I. apply issubset_admitted. intros i.
  rewrite set_sign_admitted. destruct (Nat.eqb_spec i e) as [-> | D]; [| tauto].
  rewrite (signs_at_admitted n psv e Hp L) in I.
  destruct (admitted psv e) as [[a b] c]. simpl.
  destruct a, b, c; simpl in I;
    repeat match goal with H : _ \/ _ |- _ => destruct H end;
    subst; simpl; try tauto; repeat split; discriminate.
Qed.

Section UnpackIndices.
Variables (n : nat) (x : PartialSignVector).
Hypothesis Hx : has_length n x.

Lemma resolved_start : resolved n x [] x.
Proof.
  split; [exact Hx |]. split; [| split; [intros e [] | reflexivity]].
  unfold issubset. rewrite !issubset_refl. reflexivity.
Qed.

Lemma unpack_at_resolved e done res :
  e < n -> (forall y, In y res -> resolved n x done y) ->
  exists res',
    unpack_at e res = Ok res'
    /\ forall y, In y res' -> resolved n x (e :: done) y.
Proof.
  intros L H. eexists. split.
  - apply unpack_at_flat. intros psv I. destruct (H psv I) as ((C & _) & _).
    unfold length. lia.
  - intros y I. apply In_fold_set_add in I. destruct I as [[] | I].
    apply in_flat_map in I. destruct I as (psv & Ip & I).
    unfold resolve_at in I. apply in_map_iff in I. destruct I as (s & <- & Is).
    destruct (H psv Ip) as (Hp & Sp & Dp & Ep).
    split; [apply set_sign_has_length; assumption |].
    split; [apply (issubset_psv_trans _ psv);
            [apply (set_at_issubset n) |]; assumption |].
    split.
    + intros k Ik. unfold determined_at. rewrite set_sign_admitted.
      destruct (Nat.eqb_spec k e) as [-> | D].
      * apply signs_at_range in Is.
        destruct Is as [-> | [-> | ->]]; reflexivity.
      * apply (Dp k). destruct Ik as [Ik | Ik]; [congruence | exact Ik].
    + intros i Ni. rewrite set_sign_admitted.
      destruct (Nat.eqb_spec i e) as [-> | D].
      * exfalso. apply Ni. left. reflexivity.
      * apply Ep. intros Hi. apply Ni. right. exact Hi.
Qed.

Lemma unpack_loop_resolved indices : forall done res,
  (forall e, In e indices -> e < n) ->
  (forall y, In y res -> resolved n x done y) ->
  exists res',
    unpack_loop indices res = Ok res'
    /\ forall y, In y res' -> resolved n x (rev indices ++ done) y.
Proof.
  induction indices as [| e indices IH]; intros done res R H.
  - exists res. split; [reflexivity | exact H].
  - destruct (unpack_at_resolved e done res (R e (or_introl eq_refl)) H)
      as (res1 & U1 & H1).
    destruct (IH (e :: done) res1 (fun k I => R k (or_intror I)) H1)
      as (res' & U & H').
    exists res'. split.
    + unfold unpack_loop in *. simpl. rewrite U1. exact U.
    + simpl rev. rewrite <- app_assoc. exact H'.
Qed.

End UnpackIndices.

Lemma determined_at_getitem n y e :
  has_length n y -> e < n -> determined_at y e = true ->
  exists s, getitem y (Z.of_nat e) = Ok [s].
Proof.
  intros Hy L D. apply (determined_getitem n y e Hy L).
  rewrite (determined_support_filter n y Hy). apply filter_In.
  split; [apply in_seq; lia | exact D].
Qed.

Lemma admitted_getitem n x y i :
  has_length n x -> has_length n y -> i < n -> admitted y i = admitted x i ->
  getitem y (Z.of_nat i) = getitem x (Z.of_nat i).
Proof.
  intros Hx Hy L E.
  rewrite (getitem_nat y i) by (unfold length; rewrite (proj1 Hy); lia).
  rewrite (getitem_nat x i) by (unfold length; rewrite (proj1 Hx); lia).
  rewrite (signs_at_admitted n y i Hy L), (signs_at_admitted n x i Hx L), E.
  reflexivity.
Qed.

(** [unpack(indices)], for positions of [x], raises nothing; every vector
    it returns has the length of [x], is a subset of [x], has one sign at
    each position of [indices] and the candidate sets of [x] at the other
    positions. *)
Theorem unpack_indices_sound n x indices :
  has_length n x -> (forall e, In e indices -> e < n) ->
  exists res,
    unpack x (Some indices) = Ok (PartialSignVectors res)
    /\ forall y, In y res ->
         has_length n y
         /\ issubset y x = true
         /\ (forall e, In e indices -> exists s, getitem y (Z.of_nat e) = Ok [s])
         /\ (forall i, i < n -> ~ In i indices ->
             getitem y (Z.of_nat i) = getitem x (Z.of_nat i)).
Proof.
  intros Hx R.
  destruct (unpack_loop_resolved n x indices [] [x] R) as (res & U & H).
  { intros y [<- | []]. apply resolved_start. exact Hx. }
  exists res. unfold unpack. rewrite U. split; [reflexivity |].
  intros y I. destruct (H y I) as (Hy & S & D & E).
  split; [exact Hy |]. split; [exact S |]. split.
  - intros e Ie. apply (determined_at_getitem n y e Hy (R e Ie)).
    apply D. apply in_or_app. left. apply in_rev in Ie. exact Ie.
  - intros i L Ni. apply (admitted_getitem n x y i Hx Hy L). apply E.
    intros Hi. apply in_app_iff in Hi. destruct Hi as [Hi | []].
    apply in_rev in Hi. exact (Ni Hi).
Qed.

Lemma unpack_indices_sound_witness :
  has_length 3 (packed 3 2 7 3) /\ (forall e, In e [1; 2] -> e < 3)
  /\ from_string "p*0" = Ok (packed 3 2 7 3)
  /\ exists res,
      unpack (packed 3 2 7 3) (Some [1; 2]) = Ok (PartialSignVectors res)
      /\ mapM to_string res = Ok ["p-0"; "p00"; "p+0"]%string
      /\ forall y, In y res -> issubset y (packed 3 2 7 3) = true.
Proof.
  assert (Hx : has_length 3 (packed 3 2 7 3)) by (repeat split; reflexivity).
  assert (R : forall e, In e [1; 2] -> e < 3) by (simpl; intros e; lia).
  do 2 (split; [assumption |]). split; [reflexivity |].
  destruct (unpack_indices_sound 3 _ [1; 2] Hx R) as (res & U & H).
  exists res. split; [exact U |]. split.
  - vm_compute in U. inversion U. reflexivity.
  - intros y I. apply (H y I).
Defined.

(** [unpack()] on all positions returns sign vectors only: each is the
    sign vector of a partial sign vector of the length of [x] that is a
    sign vector and a subset of [x]. *)
Theorem unpack_default_sound n x :
  has_length n x ->
  exists l,
    unpack x None = Ok (SignVectors l)
    /\ forall v, In v l ->
         exists y,
           v = VSignVector (mkSignVector (_positive_support y)
                                         (_negative_support y))
           /\ has_length n y
           /\ is_sign_vector y = true
           /\ issubset y x = true.
Proof.
  intros Hx.
  destruct (unpack_loop_seq n x Hx n 0 [x] eq_refl (unpack_invariant_start n x Hx))
    as (res & U & I & _).
  destruct (unpack_loop_resolved n x (seq 0 n) [] [x]) as (res' & U' & H).
  { intros e Ie. apply in_seq in Ie. lia. }
  { intros y [<- | []]. apply resolved_start. exact Hx. }
  assert (E : res' = res) by congruence. subst res'.
  destruct (unpack_cast n x res I) as (M & F & _).
  exists (map as_sign_vector res). unfold unpack.
  replace (length x) with n by (symmetry; apply Hx).
  rewrite U. cbn [bind]. rewrite M. cbn [bind]. rewrite F.
  split; [reflexivity |]. intros v Iv. apply in_map_iff in Iv.
  destruct Iv as (y & <- & Iy). destruct (H y Iy) as (Hy & S & D & _).
  exists y. split; [reflexivity |]. split; [exact Hy |]. split; [| exact S].
  apply (is_sign_vector_determined n y Hy). intros i L. apply D.
  apply in_or_app. left. apply in_rev. rewrite rev_involutive.
  apply in_seq. lia.
Qed.

Lemma unpack_default_sound_witness :
  has_length 3 (packed 3 2 7 3)
  /\ exists l,
      unpack (packed 3 2 7 3) None = Ok (SignVectors l)
      /\ List.length l = 6
      /\ forall v, In v l ->
           exists y,
             v = VSignVector (mkSignVector (_positive_support y)
                                           (_negative_support y))
             /\ is_sign_vector y = true
             /\ issubset y (packed 3 2 7 3) = true.
Proof.
  assert (Hx : has_length 3 (packed 3 2 7 3)) by (repeat split; reflexivity).
  split; [assumption |].
  destruct (unpack_default_sound 3 _ Hx) as (l & U & H).
  exists l. split; [exact U |]. split.
  - vm_compute in U. inversion U. reflexivity.
  - intros v I. destruct (H v I) as (y & E & _ & S & T). exists y. auto.
Defined.

(** ** Lists of components *)

Lemma getitem_in_range x p :
  (- Z.of_nat (length x) <= p < Z.of_nat (length x))%Z ->
  getitem x p = Ok (signs_at x (Z.to_nat (p mod Z.of_nat (length x)))).
Proof.
  intros R. unfold getitem.
  destruct (Z.geb_spec p (Z.of_nat (length x))) as [G | _]; [lia |].
  destruct (Z.ltb_spec p (- Z.of_nat (length x))) as [G | _]; [lia |].
  cbn [orb].
  replace (if (p <? 0)%Z then (p mod Z.of_nat (length x))%Z else p)
    with (p mod Z.of_nat (length x))%Z
    by (destruct (Z.ltb_spec p 0); [reflexivity | rewrite Z.mod_small; lia]).
  unfold signs_at. simpl.
  destruct (Bitset.contains (_negative_support x) _),
    (Bitset.contains (_zero_support x) _),
    (Bitset.contains (_positive_support x) _); reflexivity.
Qed.

Lemma getitem_out_of_range x p :
  (p < - Z.of_nat (length x) \/ Z.of_nat (length x) <= p)%Z ->
  getitem x p = Raise (IndexError "index out of range").
Proof.
  intros R. unfold getitem.
  destruct (Z.geb_spec p (Z.of_nat (length x))) as [G | G]; [reflexivity |].
  destruct (Z.ltb_spec p (- Z.of_nat (length x))) as [L | L]; [reflexivity |].
  lia.
Qed.

Lemma mapM_Raise {A B : Type} (f : A -> result B) e l :
  (forall a, In a l -> (exists b, f a = Ok b) \/ f a = Raise e) ->
  (exists a, In a l /\ f a = Raise e) ->
  mapM f l = Raise e.
Proof.
  induction l as [| a l IH]; intros H (a' & I & E); [destruct I |].
  simpl. destruct (H a (or_introl eq_refl)) as [(b & Eb) | Ea].
  - rewrite Eb. cbn [bind]. rewrite IH; [reflexivity | |].
    + intros c Ic. apply H. right. exact Ic.
    + destruct I as [<- | I]; [congruence |]. eauto.
  - rewrite Ea. reflexivity.
Qed.

(** [list_from_positions(positions)] returns the candidate sets at the
    positions, a negative position counting from the end, when all
    positions lie in [[-n, n)]; it raises [IndexError] as soon as one does
    not. *)
Theorem list_from_positions_range_error x positions :
  ((forall p, In p positions ->
      (- Z.of_nat (length x) <= p < Z.of_nat (length x))%Z) ->
   list_from_positions x positions
   = Ok (map (fun p => signs_at x (Z.to_nat (p mod Z.of_nat (length x))))
             positions))
  /\ ((exists p, In p positions
                 /\ (p < - Z.of_nat (length x) \/ Z.of_nat (length x) <= p)%Z) ->
      list_from_positions x positions
      = Raise (IndexError "index out of range")).
Proof.
  unfold list_from_positions. split.
  - intros H. apply mapM_Ok. intros p I. apply getitem_in_range. apply H. exact I.
  - intros (p & I & R). apply mapM_Raise.
    + intros q _.
      destruct (Z_lt_ge_dec q (- Z.of_nat (length x))) as [L | L];
        [right; apply getitem_out_of_range; lia |].
      destruct (Z_lt_ge_dec q (Z.of_nat (length x))) as [L' | L'];
        [| right; apply getitem_out_of_range; lia].
      left. eexists. apply getitem_in_range. lia.
    + exists p. split; [exact I | apply getitem_out_of_range; exact R].
Qed.

Lemma list_from_positions_range_error_witness :
  (forall p, In p [0; 1; -1]%Z ->
     (- Z.of_nat (length (packed 5 9 28 26)) <= p
      < Z.of_nat (length (packed 5 9 28 26)))%Z)
  /\ from_string "-+0*p" = Ok (packed 5 9 28 26)
  /\ list_from_positions (packed 5 9 28 26) [0; 1; -1]%Z
     = Ok [[-1]; [1]; [0; 1]]%Z
  /\ (exists p, In p [0; 5]%Z
                /\ (p < - Z.of_nat (length (packed 5 9 28 26))
                    \/ Z.of_nat (length (packed 5 9 28 26)) <= p)%Z)
  /\ list_from_positions (packed 5 9 28 26) [0; 5]%Z
     = Raise (IndexError "index out of range").
Proof.
  assert (R : forall p, In p [0; 1; -1]%Z ->
                (- Z.of_nat (length (packed 5 9 28 26)) <= p
                 < Z.of_nat (length (packed 5 9 28 26)))%Z).
  { simpl. intros p [<- | [<- | [<- | []]]]; lia. }
  assert (O : exists p, In p [0; 5]%Z
                /\ (p < - Z.of_nat (length (packed 5 9 28 26))
                    \/ Z.of_nat (length (packed 5 9 28 26)) <= p)%Z).
  { exists 5%Z. simpl. split; [auto | lia]. }
  split; [assumption |]. split; [reflexivity |].
  destruct (list_from_positions_range_error (packed 5 9 28 26) [0; 1; -1]%Z)
    as [A _].
  destruct (list_from_positions_range_error (packed 5 9 28 26) [0; 5]%Z)
    as [_ B].
  split; [rewrite (A R); reflexivity |]. split; [assumption |].
  apply (B O).
Defined.

(** ** Strings and candidate lists *)

Lemma int_in_char_signs t :
  (int_in (-1) (char_signs t), int_in 0 (char_signs t), int_in 1 (char_signs t))
  = (char_in t ["-"; "n"; "/"; "*"]%char,
     char_in t ["0"; "n"; "p"; "*"]%char,
     char_in t ["+"; "p"; "/"; "*"]%char).
Proof.
  unfold char_signs, flags_signs.
  destruct (char_in t ["-"; "n"; "/"; "*"]%char),
    (char_in t ["0"; "n"; "p"; "*"]%char),
    (char_in t ["+"; "p"; "/"; "*"]%char); reflexivity.
Qed.

Lemma of_indices_ext l l' :
  (forall i, In i l <-> In i l') -> Bitset.of_indices l = Bitset.of_indices l'.
Proof.
  intros H. apply N.bits_inj. intros k. rewrite <- (N2Nat.id k).
  apply bool_eq_iff. rewrite !BitsetFacts.testbit_of_indices. apply H.
Qed.

(** [from_string(s)] is [from_iterable] of the candidate lists of the
    characters of [s], also when they fail (on the empty string); a
    character that is none of the seven symbols stands for the empty
    candidate list, so that the position admits no sign. *)
Theorem from_string_from_iterable s :
  from_string s = from_iterable (map char_signs (list_ascii_of_string s))
  /\ forall y i t,
      from_string s = Ok y -> nth_error (list_ascii_of_string s) i = Some t ->
      getitem y (Z.of_nat i) = Ok (char_signs t)
      /\ (char_in t alphabet = false -> getitem y (Z.of_nat i) = Ok []).
Proof.
  assert (E : from_string s
              = from_iterable (map char_signs (list_ascii_of_string s))).
  { destruct (string_dec s EmptyString) as [-> | Ne]; [reflexivity |].
    assert (Ne' : map char_signs (list_ascii_of_string s) <> [])
      by (destruct s; [congruence | discriminate]).
    rewrite (from_string_ok s Ne), (from_iterable_ok _ Ne').
    unfold items_vector. rewrite length_map, length_list_ascii_of_string.
    assert (P : forall c l,
               (forall t, int_in c (char_signs t) = char_in t l) ->
               Bitset.of_indices (positions_in l s)
               = Bitset.of_indices
                   (positions_of c 0 (map char_signs (list_ascii_of_string s)))).
    { intros c l H. apply of_indices_ext. intros i.
      rewrite In_positions_in, In_positions_of, Nat.sub_0_r. split.
      - intros (t & Et & C). split; [lia |]. exists (char_signs t).
        rewrite nth_error_map, Et, H. auto.
      - intros (_ & l' & El & C). rewrite nth_error_map in El.
        destruct (nth_error (list_ascii_of_string s) i) as [t |];
          [| discriminate El].
        inversion El; subst l'. exists t. rewrite <- H. auto. }
    rewrite (P (-1)%Z ["-"; "n"; "/"; "*"]%char),
      (P 0%Z ["0"; "n"; "p"; "*"]%char), (P 1%Z ["+"; "p"; "/"; "*"]%char);
      [reflexivity | | |]; intros t;
      pose proof (int_in_char_signs t) as I; injection I as I1 I2 I3;
      assumption. }
  split; [exact E |]. intros y i t Ey Et.
  assert (Ne : map char_signs (list_ascii_of_string s) <> []).
  { destruct (list_ascii_of_string s); [destruct i; discriminate Et
                                       | discriminate]. }
  pose proof (from_iterable_ok _ Ne) as Ey'.
  assert (Iy : items_vector (map char_signs (list_ascii_of_string s)) = y)
    by congruence.
  pose proof (items_vector_getitem (map char_signs (list_ascii_of_string s)))
    as G.
  rewrite Iy in G.
  assert (Gi : getitem y (Z.of_nat i) = Ok (char_signs t)).
  { rewrite (G i (char_signs t)) by (rewrite nth_error_map, Et; reflexivity).
    rewrite int_in_char_signs. reflexivity. }
  split; [exact Gi |]. intros C. rewrite Gi. f_equal.
  unfold char_in, alphabet in C. cbn [existsb] in C.
  rewrite !orb_false_iff in C.
  destruct C as (C1 & C2 & C3 & C4 & C5 & C6 & C7 & _).
  unfold char_signs, char_in. cbn [existsb].
  rewrite C1, C2, C3, C4, C5, C6, C7. reflexivity.
Qed.

Lemma from_string_from_iterable_witness :
  from_string "+a" = Ok (packed 2 0 0 1)
  /\ nth_error (list_ascii_of_string "+a") 1 = Some "a"%char
  /\ char_in "a" alphabet = false
  /\ getitem (packed 2 0 0 1) (Z.of_nat 1) = Ok []
  /\ to_string (packed 2 0 0 1)
     = Raise (TypeError "sequence item: expected str instance, NoneType found").
Proof.
  assert (E : from_string "+a" = Ok (packed 2 0 0 1)) by reflexivity.
  assert (N : nth_error (list_ascii_of_string "+a") 1 = Some "a"%char)
    by reflexivity.
  assert (C : char_in "a" alphabet = false) by reflexivity.
  do 3 (split; [assumption |]).
  destruct (from_string_from_iterable "+a") as [_ G].
  destruct (G _ 1 "a"%char E N) as [_ H].
  split; [apply (H C) | reflexivity].
Defined.

(** ** Composition at determined positions *)

(** Where [x] has a single nonzero sign, [x.compose(y)] has that sign,
    whatever [y] is; where [x] is a determined zero, [x.compose(y)] has the
    candidate set of [y]. *)
Theorem compose_getitem_determined n x y i :
  has_length n x -> has_length n y -> i < n ->
  (forall s, getitem x (Z.of_nat i) = Ok [s] -> s <> 0%Z ->
     getitem (compose x (PSV y)) (Z.of_nat i) = Ok [s])
  /\ (getitem x (Z.of_nat i) = Ok [0%Z] ->
      getitem (compose x (PSV y)) (Z.of_nat i) = getitem y (Z.of_nat i)).
Proof.
  intros Hx Hy L.
  pose proof (compose_has_length n x y Hx Hy) as Hc.
  rewrite (getitem_nat x i) by (unfold length; rewrite (proj1 Hx); lia).
  rewrite (getitem_nat y i) by (unfold length; rewrite (proj1 Hy); lia).
  rewrite (getitem_nat (compose x (PSV y)) i)
    by (unfold length; rewrite (proj1 Hc); lia).
  rewrite (signs_at_admitted n x i Hx L), (signs_at_admitted n y i Hy L),
    (signs_at_admitted n _ i Hc L).
  unfold admitted.
  cbn [compose _negative_support _zero_support _positive_support
         other_negative other_zero other_positive].
  rewrite !BitsetFacts.testbit_union, !BitsetFacts.testbit_intersection.
  destruct (Bitset.testbit (_negative_support x) i),
    (Bitset.testbit (_zero_support x) i),
    (Bitset.testbit (_positive_support x) i),
    (Bitset.testbit (_negative_support y) i),
    (Bitset.testbit (_zero_support y) i),
    (Bitset.testbit (_positive_support y) i); simpl;
    (split;
     [ intros s E Ns; try discriminate E; injection E as E'; subst s;
       solve [reflexivity | exfalso; apply Ns; reflexivity]
     | intros E; try discriminate E; reflexivity ]).
Qed.

Lemma compose_getitem_determined_witness :
  has_length 5 (packed 5 9 30 4) /\ has_length 5 (packed 5 6 19 12) /\ 1 < 5
  /\ getitem (packed 5 9 30 4) (Z.of_nat 1) = Ok [0%Z]
  /\ getitem (compose (packed 5 9 30 4) (PSV (packed 5 6 19 12))) (Z.of_nat 1)
     = getitem (packed 5 6 19 12) (Z.of_nat 1).
Proof.
  assert (Hx : has_length 5 (packed 5 9 30 4)) by (repeat split; reflexivity).
  assert (Hy : has_length 5 (packed 5 6 19 12)) by (repeat split; reflexivity).
  assert (L : 1 < 5) by lia.
  assert (E : getitem (packed 5 9 30 4) (Z.of_nat 1) = Ok [0%Z]) by reflexivity.
  do 4 (split; [assumption |]).
  destruct (compose_getitem_determined 5 _ (packed 5 6 19 12) 1 Hx Hy L)
    as [_ G].
  apply (G E).
Defined.

(** ** Cardinality and the subset order *)

Lemma product_le l l' :
  Forall2 le l l' -> product l <= product l'.
Proof.
  induction 1 as [| a b l l' Le _ IH]; simpl; [lia |].
  apply Nat.mul_le_mono; assumption.
Qed.

Lemma product_one l :
  (forall a, In a l -> 1 <= a) -> product l = 1 <-> forall a, In a l -> a = 1.
Proof.
  induction l as [| a l IH]; intros H; simpl; [tauto |].
  assert (Ha : 1 <= a) by (apply H; left; reflexivity).
  assert (Hl : forall b, In b l -> 1 <= b) by (intros b I; apply H; right; exact I).
  specialize (IH Hl). split.
  - intros E. apply Nat.eq_mul_1 in E. destruct E as [-> P].
    intros b [<- | I]; [reflexivity | apply IH; assumption].
  - intros E. rewrite (E a) by (left; reflexivity).
    rewrite (proj2 IH) by (intros b I; apply E; right; exact I). reflexivity.
Qed.

Lemma count_signs_le n x y i :
  has_length n x -> has_length n y -> i < n -> issubset x y = true ->
  count_signs x i <= count_signs y i.
Proof.
  intros Hx Hy L S. unfold count_signs.
  rewrite (signs_at_admitted n x i Hx L), (signs_at_admitted n y i Hy L).
  rewrite issubset_admitted in S. specialize (S i).
  destruct (admitted x i) as [[a b] c], (admitted y i) as [[a' b'] c'].
  simpl in S. destruct S as (Sa & Sb & Sc).
  destruct a, b, c, a', b', c'; simpl; try lia;
    try discriminate (Sa eq_refl); try discriminate (Sb eq_refl);
    discriminate (Sc eq_refl).
Qed.

(** A wider well-formed vector packs at least as many sign vectors. *)
Theorem cardinality_monotone n x y :
  has_length n x -> has_length n y -> well_formed x -> well_formed y ->
  issubset x y = true -> cardinality x <= cardinality y.
Proof.
  intros Hx Hy Wx Wy S.
  rewrite (cardinality_product n x Hx Wx), (cardinality_product n y Hy Wy).
  apply product_le.
  assert (G : forall l, (forall i, In i l -> i < n) ->
              Forall2 le (map (count_signs x) l) (map (count_signs y) l)).
  { induction l as [| i l IH]; intros H; simpl; constructor.
    - apply (count_signs_le n); auto. apply H. left. reflexivity.
    - apply IH. intros j I. apply H. right. exact I. }
  apply G. intros i I. apply in_seq in I. lia.
Qed.

(** A well-formed vector packs exactly one sign vector when it is a sign
    vector, and only then. *)
Theorem cardinality_one_iff n x :
  has_length n x -> well_formed x ->
  cardinality x = 1 <-> is_sign_vector x = true.
Proof.
  intros Hx Wx. rewrite (cardinality_product n x Hx Wx).
  assert (C : forall i, i < n ->
              (determined_at x i = true /\ count_signs x i = 1)
              \/ (determined_at x i = false /\ 2 <= count_signs x i)).
  { intros i L. rewrite well_formed_iff in Wx.
    destruct (count_signs_cases n x i Hx L
                (Wx i ltac:(unfold length; rewrite (proj1 Hx); lia)))
      as [(D & _ & C) | [(D & _ & C) | (D & _ & C)]]; rewrite D, C;
      [left | right | right]; split; try reflexivity; lia. }
  rewrite product_one.
  - split.
    + intros H. apply (is_sign_vector_determined n x Hx). intros i L.
      destruct (C i L) as [[D _] | [_ G]]; [exact D |].
      rewrite (H (count_signs x i)) in G; [lia |].
      apply in_map. apply in_seq. lia.
    + intros H a I. apply in_map_iff in I. destruct I as (i & <- & I).
      apply in_seq in I. assert (L : i < n) by lia.
      pose proof (is_sign_vector_all_determined n x Hx H i L) as D.
      destruct (C i L) as [[_ G] | [D' _]]; [exact G | congruence].
  - intros a I. apply in_map_iff in I. destruct I as (i & <- & I).
    apply in_seq in I. destruct (C i ltac:(lia)) as [[_ G] | [_ G]]; lia.
Qed.

Lemma cardinality_one_iff_witness :
  has_length 4 (packed 4 8 1 6) /\ well_formed (packed 4 8 1 6)
  /\ (cardinality (packed 4 8 1 6) = 1
      <-> is_sign_vector (packed 4 8 1 6) = true).
Proof.
  assert (Hx : has_length 4 (packed 4 8 1 6)) by (repeat split; reflexivity).
  assert (Wx : well_formed (packed 4 8 1 6)) by reflexivity.
  do 2 (split; [assumption |]).
  apply (cardinality_one_iff 4 _ Hx Wx).
Defined.

Lemma cardinality_monotone_witness :
  has_length 5 (packed 5 1 12 18) /\ has_length 5 (packed 5 3 12 22)
  /\ well_formed (packed 5 1 12 18) /\ well_formed (packed 5 3 12 22)
  /\ issubset (packed 5 1 12 18) (packed 5 3 12 22) = true
  /\ cardinality (packed 5 1 12 18) <= cardinality (packed 5 3 12 22).
Proof.
  assert (Hx : has_length 5 (packed 5 1 12 18)) by (repeat split; reflexivity).
  assert (Hy : has_length 5 (packed 5 3 12 22)) by (repeat split; reflexivity).
  assert (Wx : well_formed (packed 5 1 12 18)) by reflexivity.
  assert (Wy : well_formed (packed 5 3 12 22)) by reflexivity.
  assert (S : issubset (packed 5 1 12 18) (packed 5 3 12 22) = true)
    by reflexivity.
  do 5 (split; [assumption |]).
  apply (cardinality_monotone 5 _ _ Hx Hy Wx Wy S).
Defined.

(** ** Construction from supports *)

Lemma valid_of_indices n l :
  (forall i, In i l -> i < n) -> Bitset.valid (Bitset.mk n (Bitset.of_indices l)).
Proof.
  intros H. apply BitsetFacts.valid_iff. simpl. intros i L.
  unfold Bitset.testbit. simpl.
  destruct (N.testbit _ _) eqn:T; [| reflexivity].
  apply BitsetFacts.testbit_of_indices in T. apply H in T. lia.
Qed.

Lemma to_list_of_indices n l i :
  (forall j, In j l -> j < n) ->
  In i (Bitset.to_list (Bitset.mk n (Bitset.of_indices l))) <-> In i l.
Proof.
  intros H. rewrite BitsetFacts.In_to_list. simpl. unfold Bitset.testbit. simpl.
  rewrite BitsetFacts.testbit_of_indices. split; [tauto |].
  intros I. split; [apply H; exact I | exact I].
Qed.

(** [from_support], for a positive length and positions below it, returns
    a valid vector of that length whose three support queries list exactly
    the given positions, each once. *)
Theorem from_support_supports n negative zero positive :
  0 < n ->
  (forall i, In i negative -> i < n) ->
  (forall i, In i zero -> i < n) ->
  (forall i, In i positive -> i < n) ->
  exists y,
    from_support negative zero positive n = Ok y
    /\ has_length n y /\ valid y
    /\ (forall i, In i (negative_support y) <-> In i negative)
    /\ (forall i, In i (zero_support y) <-> In i zero)
    /\ (forall i, In i (positive_support y) <-> In i positive)
    /\ NoDup (negative_support y) /\ NoDup (zero_support y)
    /\ NoDup (positive_support y).
Proof.
  intros L Hn Hz Hp. eexists. split.
  - unfold from_support. rewrite !FrozenBitset_capacity_ok by assumption.
    reflexivity.
  - split; [repeat split; reflexivity |].
    split; [repeat split; apply valid_of_indices; assumption |].
    unfold negative_support, zero_support, positive_support.
    cbn [_negative_support _zero_support _positive_support].
    repeat split; try (apply to_list_of_indices; assumption);
      try (intros I; apply (to_list_of_indices n) in I; assumption);
      unfold Bitset.to_list; apply NoDup_filter; apply seq_NoDup.
Qed.

Lemma from_support_supports_witness :
  0 < 6
  /\ (forall i, In i [1; 2; 4] -> i < 6)
  /\ (forall i, In i [2; 3; 5] -> i < 6)
  /\ (forall i, In i [0; 2; 5] -> i < 6)
  /\ exists y,
      from_support [1; 2; 4] [2; 3; 5] [0; 2; 5] 6 = Ok y
      /\ to_string y = Ok "+-*0-p"%string
      /\ forall i, In i (negative_support y) <-> In i [1; 2; 4].
Proof.
  assert (L : 0 < 6) by lia.
  assert (Hn : forall i, In i [1; 2; 4] -> i < 6) by (simpl; intros i; lia).
  assert (Hz : forall i, In i [2; 3; 5] -> i < 6) by (simpl; intros i; lia).
  assert (Hp : forall i, In i [0; 2; 5] -> i < 6) by (simpl; intros i; lia).
  do 4 (split; [assumption |]).
  destruct (from_support_supports 6 _ _ _ L Hn Hz Hp)
    as (y & E & _ & _ & G & _).
  exists y. split; [exact E |]. split; [| exact G].
  vm_compute in E. inversion E. reflexivity.
Defined.
